(** * The timed quiz session of [app/@protected_routes/quiz/[id]/page.tsx]

    A shallow embedding of the session logic of [QuizComponent]: the
    initialisation done by [fetchQuizContent], the countdown, the navigation
    handlers, the scorer and the review filter, followed by the properties
    of the specification that were checked against it.

    Conventions of the embedding.
    - A JavaScript string is a [string]; its characters stand for code units
      below 256.
    - [undefined] and [null] are [None].
    - An integer-valued JavaScript number is a [Z], exact below 2^53; the
      result of [parseInt] is an [option Z] whose [None] is [NaN].  The one
      place where the code leaves the integers, the percentage of the result
      screen, is computed on binary64 floats.
    - A React state setter call is an [Action]; a handler maps the state of
      the render it closes over to the setter calls it issues, and [run]
      applies them. *)

From Stdlib Require Import ZArith List String Ascii Bool Arith Lia.
From Stdlib Require Import Permutation.
From Stdlib Require Import Reals Lra Psatz.
From Stdlib Require Import PrimFloat FloatOps SpecFloat FloatAxioms Uint63.
From Stdlib Require Import DecimalString DecimalPos.
Import ListNotations.

Local Open Scope string_scope.
Local Open Scope list_scope.

(** ** JavaScript strings and numbers *)

Module JS.

(** [!s] for a string: only the empty string is falsy. *)
Definition truthy (s : string) : bool :=
  match s with
  | EmptyString => false
  | String _ _ => true
  end.

(** Truthiness of an optional string, [undefined] being falsy too. *)
Definition truthy_opt (o : option string) : bool :=
  match o with
  | None => false
  | Some s => truthy s
  end.

(** [a === b] on values that are strings or [undefined]. *)
Definition strict_eq (a b : option string) : bool :=
  match a, b with
  | None, None => true
  | Some x, Some y => String.eqb x y
  | _, _ => false
  end.

(** [s.substring(i, j)] for [i <= j]. *)
Definition substring (i j : nat) (s : string) : string :=
  String.substring i (j - i) s.

(** [s.split(sep)] for a non-empty separator: [skip] counts the characters
    of a separator occurrence still to be dropped, [cur] is the piece read
    so far. *)
Fixpoint split_go (sep : string) (skip : nat) (cur : string) (s : string)
  : list string :=
  match s with
  | EmptyString => [cur]
  | String c s' =>
      match skip with
      | S k => split_go sep k cur s'
      | O =>
          if String.prefix sep s
          then cur :: split_go sep (String.length sep - 1) EmptyString s'
          else split_go sep 0 (cur ++ String c EmptyString) s'
      end
  end.

Definition split (sep s : string) : list string :=
  split_go sep 0 EmptyString s.

(** White space skipped by [parseInt], among the code units below 256. *)
Definition is_white_space (c : ascii) : bool :=
  let n := nat_of_ascii c in
  ((9 <=? n) && (n <=? 13))%nat || (n =? 32)%nat || (n =? 160)%nat.

Fixpoint trim_start (s : string) : string :=
  match s with
  | String c s' => if is_white_space c then trim_start s' else s
  | EmptyString => EmptyString
  end.

(** Value of a character as a digit of the radix, if it is one. *)
Definition digit_value (radix : Z) (c : ascii) : option Z :=
  let n := Z.of_nat (nat_of_ascii c) in
  let v :=
    (if (48 <=? n) && (n <=? 57) then Some (n - 48)
     else if (97 <=? n) && (n <=? 122) then Some (n - 87)
     else if (65 <=? n) && (n <=? 90) then Some (n - 55)
     else None)%Z in
  match v with
  | Some d => if (d <? radix)%Z then Some d else None
  | None => None
  end.

(** The longest prefix of digits, read in the radix; [None] when there is no
    digit at all. *)
Fixpoint parse_digits (radix : Z) (acc : option Z) (s : string) : option Z :=
  match s with
  | EmptyString => acc
  | String c s' =>
      match digit_value radix c with
      | Some d =>
          parse_digits radix
            (Some (match acc with Some a => a * radix + d | None => d end)%Z) s'
      | None => acc
      end
  end.

(** [parseInt(s)] with no radix argument: leading white space, a sign, an
    optional [0x] prefix, then digits.  [None] is [NaN]. *)
Definition parseInt (s : string) : option Z :=
  let s1 := trim_start s in
  let '(sign, s2) :=
    match s1 with
    | String "-" r => ((-1)%Z, r)
    | String "+" r => (1%Z, r)
    | _ => (1%Z, s1)
    end in
  let '(radix, s3) :=
    match s2 with
    | String "0" (String "x" r) => (16%Z, r)
    | String "0" (String "X" r) => (16%Z, r)
    | _ => (10%Z, s2)
    end in
  option_map (Z.mul sign) (parse_digits radix None s3).

(** Arithmetic and comparison with [NaN] propagation. *)
Definition mul (a b : option Z) : option Z :=
  match a, b with
  | Some x, Some y => Some (x * y)%Z
  | _, _ => None
  end.

Definition add (a b : option Z) : option Z :=
  match a, b with
  | Some x, Some y => Some (x + y)%Z
  | _, _ => None
  end.

Definition gt (a b : option Z) : bool :=
  match a, b with
  | Some x, Some y => (y <? x)%Z
  | _, _ => false
  end.

(** A number as [Array.prototype.includes] sees it.  [Other] stands for the
    numbers [parseInt] never returns (fractions, infinities). *)
Inductive number : Type :=
  | NaN : number
  | Int : Z -> number
  | Other : number.

Definition of_parseInt (o : option Z) : number :=
  match o with
  | Some z => Int z
  | None => NaN
  end.

(** SameValueZero, the equality of [includes]: [NaN] equals [NaN]. *)
Definition same_value_zero (a b : number) : bool :=
  match a, b with
  | NaN, NaN => true
  | Int x, Int y => (x =? y)%Z
  | _, _ => false
  end.

Definition includes (l : list number) (x : number) : bool :=
  existsb (fun y => same_value_zero y x) l.

(** [l.slice(0, end)]: a [NaN] end is 0, a negative end counts from the
    back. *)
Definition slice0 {A : Type} (l : list A) (e : option Z) : list A :=
  let len := Z.of_nat (List.length l) in
  let rel := match e with Some z => z | None => 0%Z end in
  let final := if (rel <? 0)%Z then Z.max (len + rel) 0 else Z.min rel len in
  firstn (Z.to_nat final) l.

End JS.

(** ** The question bank, as the bank service returns it *)

Module Bank.

Record Question : Type := mkQuestion {
  question : string;
  options : list string;
  answer : list string
}.

Record Week : Type := mkWeek {
  name : string;
  questions : list Question
}.

Record QuizContent : Type := mkQuizContent {
  title : string;
  weeks : list Week
}.

End Bank.

(** ** The session *)

(** [QuizQuestion]: [answer] is [q.answer[0]], which is [undefined] for an
    empty answer list; [selectedAnswer] and [isMarked] are absent until
    written. *)
Record QuizQuestion : Type := mkQuizQuestion {
  question : string;
  options : list string;
  answer : option string;
  selectedAnswer : option string;
  isMarked : option bool;
  weekNumber : string;
  isExpanded : option bool
}.

Definition QuizQuestion_eq_dec (a b : QuizQuestion) : {a = b} + {a <> b}.
Proof.
  repeat decide equality.
Defined.

(** The state hooks of [QuizComponent]. *)
Record State : Type := mkState {
  questions : list QuizQuestion;
  currentQuestionIndex : nat;
  timeRemaining : Z;
  quizSubmitted : bool;
  score : nat;
  showWarning : bool;
  showOnlyIncorrect : bool;
  expandedQuestionIndex : option nat;
  showError : bool;
  isLoading : bool;
  fetchError : option string
}.

(** The values the hooks are created with. *)
Definition initialState : State :=
  mkState [] 0 0%Z false 0 false false None false false None.

(** A call of one of the state setters. *)
Inductive Action : Type :=
  | SetQuestions (qs : list QuizQuestion)
  | SetCurrentQuestionIndex (i : nat)
  | SetTimeRemaining (t : Z)
  | SetQuizSubmitted (b : bool)
  | SetScore (n : nat)
  | SetShowWarning (b : bool)
  | SetShowOnlyIncorrect (b : bool)
  | SetExpandedQuestionIndex (i : option nat)
  | SetShowError (b : bool)
  | SetIsLoading (b : bool)
  | SetFetchError (e : option string).

Definition apply_action (s : State) (a : Action) : State :=
  match a with
  | SetQuestions qs =>
      mkState qs (currentQuestionIndex s) (timeRemaining s) (quizSubmitted s)
        (score s) (showWarning s) (showOnlyIncorrect s)
        (expandedQuestionIndex s) (showError s) (isLoading s) (fetchError s)
  | SetCurrentQuestionIndex i =>
      mkState (questions s) i (timeRemaining s) (quizSubmitted s)
        (score s) (showWarning s) (showOnlyIncorrect s)
        (expandedQuestionIndex s) (showError s) (isLoading s) (fetchError s)
  | SetTimeRemaining t =>
      mkState (questions s) (currentQuestionIndex s) t (quizSubmitted s)
        (score s) (showWarning s) (showOnlyIncorrect s)
        (expandedQuestionIndex s) (showError s) (isLoading s) (fetchError s)
  | SetQuizSubmitted b =>
      mkState (questions s) (currentQuestionIndex s) (timeRemaining s) b
        (score s) (showWarning s) (showOnlyIncorrect s)
        (expandedQuestionIndex s) (showError s) (isLoading s) (fetchError s)
  | SetScore n =>
      mkState (questions s) (currentQuestionIndex s) (timeRemaining s)
        (quizSubmitted s) n (showWarning s) (showOnlyIncorrect s)
        (expandedQuestionIndex s) (showError s) (isLoading s) (fetchError s)
  | SetShowWarning b =>
      mkState (questions s) (currentQuestionIndex s) (timeRemaining s)
        (quizSubmitted s) (score s) b (showOnlyIncorrect s)
        (expandedQuestionIndex s) (showError s) (isLoading s) (fetchError s)
  | SetShowOnlyIncorrect b =>
      mkState (questions s) (currentQuestionIndex s) (timeRemaining s)
        (quizSubmitted s) (score s) (showWarning s) b
        (expandedQuestionIndex s) (showError s) (isLoading s) (fetchError s)
  | SetExpandedQuestionIndex i =>
      mkState (questions s) (currentQuestionIndex s) (timeRemaining s)
        (quizSubmitted s) (score s) (showWarning s) (showOnlyIncorrect s)
        i (showError s) (isLoading s) (fetchError s)
  | SetShowError b =>
      mkState (questions s) (currentQuestionIndex s) (timeRemaining s)
        (quizSubmitted s) (score s) (showWarning s) (showOnlyIncorrect s)
        (expandedQuestionIndex s) b (isLoading s) (fetchError s)
  | SetIsLoading b =>
      mkState (questions s) (currentQuestionIndex s) (timeRemaining s)
        (quizSubmitted s) (score s) (showWarning s) (showOnlyIncorrect s)
        (expandedQuestionIndex s) (showError s) b (fetchError s)
  | SetFetchError e =>
      mkState (questions s) (currentQuestionIndex s) (timeRemaining s)
        (quizSubmitted s) (score s) (showWarning s) (showOnlyIncorrect s)
        (expandedQuestionIndex s) (showError s) (isLoading s) e
  end.

(** The state after the setter calls of a handler have been applied. *)
Definition run (acts : list Action) (s : State) : State :=
  fold_left apply_action acts s.

(** What a handler leaves behind: the setter calls it made and, when it
    stopped on one, the exception. *)
Inductive Exn : Type :=
  | TypeError.

Definition Outcome : Type := (list Action * option Exn)%type.

(** ** Scorer *)

(** The predicate of both [filter] calls on [q.selectedAnswer === q.answer]. *)
Definition isCorrect (q : QuizQuestion) : bool :=
  JS.strict_eq (selectedAnswer q) (answer q).

(** [correctAnswers] of [submitQuiz]. *)
Definition correctAnswers (qs : list QuizQuestion) : nat :=
  List.length (filter isCorrect qs).

(** [submitQuiz]: it reads [questions] and writes [score] and
    [quizSubmitted]; nothing in it looks at [quizSubmitted]. *)
Definition submitQuiz (s : State) : list Action :=
  [SetScore (correctAnswers (questions s)); SetQuizSubmitted true].

(** How often [setScore] is called in a list of calls. *)
Definition scoreWrites (acts : list Action) : nat :=
  List.length
    (filter (fun a => match a with SetScore _ => true | _ => false end) acts).

(** ** Navigation *)

(** [arr[i] = v] on a copy of the array, for [i] in range. *)
Fixpoint update {A : Type} (i : nat) (v : A) (l : list A) : list A :=
  match l, i with
  | [], _ => []
  | _ :: t, O => v :: t
  | h :: t, S j => h :: update j v t
  end.

Definition withSelectedAnswer (a : string) (q : QuizQuestion) : QuizQuestion :=
  mkQuizQuestion (question q) (options q) (answer q) (Some a) (isMarked q)
    (weekNumber q) (isExpanded q).

(** [handleAnswerSelect]: writing [selectedAnswer] on a missing element
    throws, after the error flag was cleared.  The write goes to the question
    object, which the copied array shares with the old one; the state holds
    the one copy of the questions here. *)
Definition handleAnswerSelect (a : string) (s : State) : Outcome :=
  match nth_error (questions s) (currentQuestionIndex s) with
  | None => ([SetShowError false], Some TypeError)
  | Some q =>
      ([SetShowError false;
        SetQuestions
          (update (currentQuestionIndex s) (withSelectedAnswer a q)
             (questions s))],
       None)
  end.

(** [goToNextQuestion]: the guard is [!currentQuestion.selectedAnswer], a
    test of truthiness. *)
Definition goToNextQuestion (s : State) : Outcome :=
  match nth_error (questions s) (currentQuestionIndex s) with
  | None => ([], Some TypeError)
  | Some currentQuestion =>
      if negb (JS.truthy_opt (selectedAnswer currentQuestion))
      then ([SetShowError true], None)
      else
        (SetShowError false ::
           (if (Z.of_nat (currentQuestionIndex s)
                =? Z.of_nat (List.length (questions s)) - 1)%Z
            then submitQuiz s
            else [SetCurrentQuestionIndex (currentQuestionIndex s + 1)]),
         None)
  end.

(** The state after the "next" button. *)
Definition advance (s : State) : State :=
  run (fst (goToNextQuestion s)) s.

(** ** Timer *)

(** The effect on [timeRemaining], [quizSubmitted] and [questions]. *)
Definition expiryEffect (s : State) : list Action :=
  if (timeRemaining s =? 0)%Z && negb (quizSubmitted s)
     && (0 <? List.length (questions s))%nat
  then submitQuiz s
  else [].

(** The updater passed to [setTimeRemaining] by the interval callback. *)
Definition tickUpdater (s : State) (prev : Z) : list Action :=
  if (prev <=? 1)%Z
  then submitQuiz s ++ [SetTimeRemaining 0%Z]
  else
    (if (prev =? 30)%Z then [SetShowWarning true] else [])
      ++ [SetTimeRemaining (prev - 1)%Z].

(** One firing of an interval that was set up in the render of [s]; the
    interval exists only while [timeRemaining > 0 && !quizSubmitted], and
    is set up again at every change of [timeRemaining], so that [prev] is
    that of the state.  Its [submitQuiz] reads the questions of the render
    it was set up in: they are those of [s] here, and [intervalCallback]
    below gives [tick] the array the interval of a page has kept. *)
Definition tick (s : State) : list Action :=
  if (0 <? timeRemaining s)%Z && negb (quizSubmitted s)
  then tickUpdater s (timeRemaining s)
  else [].

(** ** Review *)

Definition toggleQuestionExpansion (index : nat) (s : State) : list Action :=
  if quizSubmitted s
  then [SetExpandedQuestionIndex
          (match expandedQuestionIndex s with
           | Some i => if (i =? index)%nat then None else Some index
           | None => Some index
           end)]
  else [].

(** [displayedQuestions] of the result screen. *)
Definition displayedQuestions (s : State) : list QuizQuestion :=
  if showOnlyIncorrect s
  then filter (fun q => negb (isCorrect q)) (questions s)
  else questions s.

(** What the user and the timer can do to a session. *)
Inductive Event : Type :=
  | Tick
  | Expiry
  | AnswerSelect (a : string)
  | NextQuestion
  | ToggleExpansion (index : nat)
  | OnlyIncorrect (checked : bool).

Definition handle (e : Event) (s : State) : list Action :=
  match e with
  | Tick => tick s
  | Expiry => expiryEffect s
  | AnswerSelect a => fst (handleAnswerSelect a s)
  | NextQuestion => fst (goToNextQuestion s)
  | ToggleExpansion i => toggleQuestionExpansion i s
  | OnlyIncorrect b => [SetShowOnlyIncorrect b]
  end.

(** The setter calls of a sequence of events, and the state they lead to. *)
Fixpoint trace (es : list Event) (s : State) : list Action * State :=
  match es with
  | [] => ([], s)
  | e :: es' =>
      let acts := handle e s in
      let '(rest, s') := trace es' (run acts s) in
      (acts ++ rest, s')
  end.

(** How often the warning is switched on, or off, in a list of calls. *)
Definition warningWrites (b : bool) (acts : list Action) : nat :=
  List.length
    (filter (fun a => match a with
                      | SetShowWarning b' => Bool.eqb b b'
                      | _ => false
                      end) acts).

(** ** The result screen: percentage and colour *)

(** A count or a length as a double; exact, both being below 2^53. *)
Definition float_of_nat (n : nat) : float :=
  PrimFloat.of_uint63 (Uint63.of_Z (Z.of_nat n)).

(** [(score / questions.length) * 100], in binary64 as the engine does it. *)
Definition percentageDouble (score len : nat) : float :=
  PrimFloat.mul (PrimFloat.div (float_of_nat score) (float_of_nat len))
    100%float.

(** The exact value of a finite, non-negative double as a fraction
    [num / den] with [den] a power of two.  A quotient of two lengths is
    never negative. *)
Definition dyadic (x : float) : option (Z * Z) :=
  match Prim2SF x with
  | S754_zero _ => Some (0, 1)%Z
  | S754_finite false m e =>
      Some (if (0 <=? e)%Z then (Z.pos m * 2 ^ e, 1)%Z
            else (Z.pos m, 2 ^ (- e))%Z)
  | _ => None
  end.

(** [x.toFixed(1)] for a finite [x >= 0], as the number of tenths printed:
    the integer [n] with [n / 10] nearest to the exact value of [x], the
    larger one on a tie. *)
Definition toFixed1 (x : float) : option Z :=
  match dyadic x with
  | Some (num, den) => Some ((20 * num + den) / (2 * den))%Z
  | None => None
  end.

(** [percentage] of the result screen, as tenths. *)
Definition percentage (s : State) : option Z :=
  toFixed1 (percentageDouble (score s) (List.length (questions s))).

(** [Number(percentage)]: the double nearest to the printed decimal, for
    [n >= 0] tenths. *)
Definition numberOfTenths (n : Z) : float :=
  PrimFloat.div (PrimFloat.of_uint63 (Uint63.of_Z n)) 10%float.

Inductive Tier : Type :=
  | High
  | Mid
  | Low.

(** The three class strings [getScoreColor] chooses from. *)
Definition tierClass (t : Tier) : string :=
  match t with
  | High => "text-green-800 dark:bg-green-800/20"
  | Mid => "text-yellow-600 dark:bg-yellow-800/20"
  | Low => "dark:bg-red-800/20 text-red-800"
  end.

Definition getScoreColor (percentage : float) : string :=
  if PrimFloat.leb 80%float percentage then tierClass High
  else if PrimFloat.leb 60%float percentage then tierClass Mid
  else tierClass Low.

(** [getScoreColor(Number(percentage))] of the result screen; a [percentage]
    that is not a decimal ("NaN", "Infinity") reads back as the double it
    was printed from. *)
Definition scoreColor (s : State) : string :=
  match percentage s with
  | Some n => getScoreColor (numberOfTenths n)
  | None =>
      getScoreColor (percentageDouble (score s) (List.length (questions s)))
  end.

(** The two roundings of [percentageDouble] stay within the relative error
    [2^-51] of the exact quotient: a test on given numbers, shown below to
    hold on all of them. *)
Definition ieee_accurate (score len : nat) : bool :=
  match dyadic (percentageDouble score len) with
  | Some (num, den) =>
      (0 <? den)%Z
      && (Z.abs (num * Z.of_nat len - 100 * Z.of_nat score * den) * 2 ^ 51
          <=? 100 * Z.of_nat score * den)%Z
  | None => false
  end.

(** ** Initialisation: [fetchQuizContent] *)

(** What the component reads from the router and the address bar. *)
Record Location : Type := mkLocation {
  pathname : string;
  weeksParam : option string;
  numQuestionsParam : option string;
  timeParam : option string
}.

(** What [await fetch(...)] followed by [await response.json()] gives. *)
Inductive Body : Type :=
  | Malformed (message : string)
  | Json (data : Bank.QuizContent).

Inductive Fetched : Type :=
  | Rejects (message : string)
  | Responds (ok : bool) (statusText : string) (body : Body).

(** The errors thrown inside the [try] block. *)
Inductive FetchError : Type :=
  | InvalidUrlFormat
  | CourseCodeNotFound
  | FetchFailed (statusText : string)
  | NoQuestionsAvailable
  | Thrown (message : string).

Definition message (e : FetchError) : string :=
  match e with
  | InvalidUrlFormat => "Invalid quiz URL format."
  | CourseCodeNotFound => "Course code not found in URL."
  | FetchFailed statusText => "Error fetching quiz content: " ++ statusText
  | NoQuestionsAvailable => "No questions available for the selected weeks."
  | Thrown m => m
  end.

(** [timeSeconds]: a sum of three [parseInt] results, or 0 for an absent or
    empty parameter. *)
Definition timeSeconds (timeParam : option string) : option Z :=
  match timeParam with
  | Some t =>
      if JS.truthy t
      then
        JS.add
          (JS.add
             (JS.mul (JS.parseInt (JS.substring 0 2 t)) (Some 3600%Z))
             (JS.mul (JS.parseInt (JS.substring 2 4 t)) (Some 60%Z)))
          (JS.parseInt (JS.substring 4 6 t))
      else Some 0%Z
  | None => Some 0%Z
  end.

(** The argument of [setTimeRemaining]. *)
Definition initialTimeRemaining (timeParam : option string) : Z :=
  let t := timeSeconds timeParam in
  if JS.gt t (Some 0%Z)
  then match t with Some z => z | None => 0%Z end
  else (30 * 60)%Z.

Definition numQuestions (numQuestionsParam : option string) : option Z :=
  match numQuestionsParam with
  | Some n => if JS.truthy n then JS.parseInt n else Some 0%Z
  | None => Some 0%Z
  end.

(** The object literal built for a bank question of a week. *)
Definition deriveQuestion (week : Bank.Week) (q : Bank.Question)
  : QuizQuestion :=
  mkQuizQuestion (Bank.question q) (Bank.options q) (hd_error (Bank.answer q))
    None None (Bank.name week) (Some false).

(** [allQuestions], for the requested week numbers. *)
Definition allQuestions (weeks : list JS.number) (data : Bank.QuizContent)
  : list QuizQuestion :=
  flat_map
    (fun week => map (deriveQuestion week) (Bank.questions week))
    (filter
       (fun week =>
          JS.includes weeks (JS.of_parseInt (JS.parseInt (Bank.name week))))
       (Bank.weeks data)).

(** An insertion sort driven by comparator results, as engines run on short
    arrays: the new element moves left while the comparator is positive.
    A draw [true] is [Math.random() < 0.5], a negative comparator; an
    exhausted source stops the move. *)
Fixpoint insertLeft {A : Type} (rnd : list bool) (x : A) (sortedRev : list A)
  {struct sortedRev} : list A * list bool :=
  match sortedRev with
  | [] => ([x], rnd)
  | t :: rest =>
      match rnd with
      | [] => (x :: sortedRev, [])
      | true :: rnd' => (x :: sortedRev, rnd')
      | false :: rnd' =>
          let '(r, rnd'') := insertLeft rnd' x rest in (t :: r, rnd'')
      end
  end.

Fixpoint insertionSortGo {A : Type} (rnd : list bool) (sortedRev todo : list A)
  : list A :=
  match todo with
  | [] => rev sortedRev
  | x :: todo' =>
      let '(sortedRev', rnd') := insertLeft rnd x sortedRev in
      insertionSortGo rnd' sortedRev' todo'
  end.

Definition insertionSort {A : Type} (rnd : list bool) (l : list A) : list A :=
  insertionSortGo rnd [] l.

(** [Number] on an optionally signed run of decimal digits after optional
    white space, the empty string being 0.  Strings with a fraction, an
    exponent, a radix prefix or [Infinity] are outside this instance. *)
Definition numberOfDigits (s : string) : JS.number :=
  match JS.trim_start s with
  | EmptyString => JS.Int 0
  | String c r =>
      let body := if (Ascii.eqb c "-" || Ascii.eqb c "+")%bool then r
                  else String c r in
      let fix allDigits (u : string) : bool :=
        match u with
        | EmptyString => true
        | String d u' =>
            match JS.digit_value 10 d with
            | Some _ => allDigits u'
            | None => false
            end
        end in
      if allDigits body && JS.truthy body
      then JS.of_parseInt (JS.parseInt s)
      else JS.NaN
  end.

(** All random sources of [k] draws. *)
Fixpoint sources (k : nat) : list (list bool) :=
  match k with
  | O => [[]]
  | S k' => map (cons true) (sources k') ++ map (cons false) (sources k')
  end.

(** The course code of the path, or the error thrown for it. *)
Definition courseCodeOf (pathname : string) : FetchError + string :=
  let pathParts := JS.split "/quiz/" pathname in
  if (List.length pathParts <? 2)%nat then inl InvalidUrlFormat
  else
    let courseCodeWithParams := nth 1 pathParts EmptyString in
    let courseCode := hd EmptyString (JS.split "?" courseCodeWithParams) in
    if negb (JS.truthy courseCode) then inl CourseCodeNotFound
    else inr courseCode.

Section Engine.

(** [Array.prototype.sort] under the comparator [() => Math.random() - 0.5]:
    the comparator ignores its arguments, so a run is fixed by the array and
    by the signs of the draws ([true] for a draw below 0.5).  The algorithm
    is the engine's. *)
Variable sort : list bool -> list QuizQuestion -> list QuizQuestion.

(** [Number] on strings, the engine's conversion used by [map(Number)]. *)
Variable Number : string -> JS.number.

Definition weeks (weeksParam : option string) : list JS.number :=
  match weeksParam with
  | Some w => if JS.truthy w then map Number (JS.split "-" w) else []
  | None => []
  end.

(** [shuffledQuestions]. *)
Definition shuffledQuestions (rnd : list bool) (candidates : list QuizQuestion)
  : list QuizQuestion :=
  sort rnd candidates.

(** The body of the [try] block: the setter calls made before it ends, and
    the error it throws, if any. *)
Definition fetchBody (loc : Location) (fetch : string -> Fetched)
    (rnd : list bool) : list Action * option FetchError :=
  match courseCodeOf (pathname loc) with
  | inl e => ([], Some e)
  | inr courseCode =>
      let setTime := SetTimeRemaining (initialTimeRemaining (timeParam loc)) in
      match fetch courseCode with
      | Rejects m => ([setTime], Some (Thrown m))
      | Responds false statusText _ => ([setTime], Some (FetchFailed statusText))
      | Responds true _ (Malformed m) => ([setTime], Some (Thrown m))
      | Responds true _ (Json data) =>
          let candidates := allQuestions (weeks (weeksParam loc)) data in
          if (List.length candidates =? 0)%nat
          then ([setTime], Some NoQuestionsAvailable)
          else
            ([setTime;
              SetQuestions
                (JS.slice0 (shuffledQuestions rnd candidates)
                   (numQuestions (numQuestionsParam loc)))],
             None)
      end
  end.

(** [fetchQuizContent], with its [catch] and [finally]. *)
Definition fetchQuizContent (loc : Location) (fetch : string -> Fetched)
    (rnd : list bool) : list Action :=
  [SetIsLoading true; SetFetchError None]
    ++ (let '(acts, err) := fetchBody loc fetch rnd in
        acts ++
          match err with
          | Some e =>
              [SetFetchError
                 (Some (if JS.truthy (message e) then message e
                        else "An unknown error occurred."))]
          | None => []
          end)
    ++ [SetIsLoading false].

(** Among the sources of [k] draws, those that shuffle [candidates] into the
    ordering [p].  With [k] at least the number of comparator calls of a run,
    the probability of [p] is this count over [2^k]. *)
Definition orderingCount (k : nat) (candidates p : list QuizQuestion) : nat :=
  count_occ (list_eq_dec QuizQuestion_eq_dec)
    (map (fun rnd => shuffledQuestions rnd candidates) (sources k)) p.

End Engine.

(** ** Vocabulary of the properties *)

(** The subsequence of the incorrectly answered questions, in the words of
    the specification: every question whose selected answer differs from the
    expected one is kept, the others are dropped, and the order stays. *)
Inductive IncorrectOnly : list QuizQuestion -> list QuizQuestion -> Prop :=
  | IncorrectOnly_nil : IncorrectOnly [] []
  | IncorrectOnly_keep q l l' :
      selectedAnswer q <> answer q ->
      IncorrectOnly l l' -> IncorrectOnly (q :: l) (q :: l')
  | IncorrectOnly_drop q l l' :
      selectedAnswer q = answer q ->
      IncorrectOnly l l' -> IncorrectOnly (q :: l) l'.

(** The orderings of three candidates. *)
Definition sixOrderings (a b c : QuizQuestion) : list (list QuizQuestion) :=
  [[a; b; c]; [a; c; b]; [b; a; c]; [b; c; a]; [c; a; b]; [c; b; a]].

(** A time parameter written as six decimal digits. *)
Definition digitChar (d : nat) : ascii := ascii_of_nat (48 + d).

Definition hhmmss (h1 h2 m1 m2 s1 s2 : nat) : string :=
  String (digitChar h1) (String (digitChar h2)
    (String (digitChar m1) (String (digitChar m2)
      (String (digitChar s1) (String (digitChar s2) EmptyString))))).

(** Powers of two, the value of a mantissa at an exponent, and the position
    of a real between two neighbours of the grid of step [2^e], as the
    rounding of [SpecFloat] records it. *)
Definition two_pow (e : Z) : R := powerRZ 2 e.

Definition F2R (m e : Z) : R := (IZR m * two_pow e)%R.

Definition inbetween (m e : Z) (l : location) (r : R) : Prop :=
  match l with
  | loc_Exact => r = F2R m e
  | loc_Inexact Lt => (F2R m e < r < F2R m e + two_pow e / 2)%R
  | loc_Inexact Eq => r = (F2R m e + two_pow e / 2)%R
  | loc_Inexact Gt => (F2R m e + two_pow e / 2 < r < F2R m e + two_pow e)%R
  end.

(** What [k] right shifts of the mantissa [m0] at the exponent [e0] keep. *)
Definition shr_inv (m0 e0 : Z) (r : R) (k : Z) (mrs : shr_record) : Prop :=
  (0 <= shr_m mrs)%Z
  /\ inbetween (shr_m mrs) (e0 + k) (loc_of_shr_record mrs) r
  /\ shr_m mrs = (m0 / 2 ^ k)%Z.

(** The second half of [binary_round_aux]: the rounded mantissa is brought
    back to 53 digits and packed. *)
Definition finish (sx : bool) (m2 e1 : Z) : spec_float :=
  let '(mrs'', e'') := shr_fexp prec emax m2 e1 loc_Exact in
  match shr_m mrs'' with
  | Z0 => S754_zero sx
  | Zpos m =>
      if Z.leb e'' (emax - prec) then S754_finite sx m e''
      else S754_infinity sx
  | _ => S754_nan
  end.

(** The tier of a percentage given in tenths, in the words of the
    specification: high from 80, mid from 60, low below. *)
Definition tierOfTenths (n : Z) : Tier :=
  if (800 <=? n)%Z then High else if (600 <=? n)%Z then Mid else Low.

(** Every percentage from 0.0 to 100.0 is given the colour of its tier. *)
Definition tierTable : bool :=
  forallb
    (fun n => String.eqb (getScoreColor (numberOfTenths n))
                (tierClass (tierOfTenths n)))
    (map Z.of_nat (seq 0 1001)).

(** ** Sample sessions *)

(** A session of one question, answered correctly, in its last second. *)
Definition lastSecondSession : State :=
  mkState
    [mkQuizQuestion "q" ["x"; "y"] (Some "x") (Some "x") None "1" (Some false)]
    0 1%Z false 0 false false None false false None.

(** A bank of two weeks, three questions in week 1 and two in week 2, every
    question with the options "yes" and "no" and the answer "yes". *)
Definition bankQuestion (text : string) : Bank.Question :=
  Bank.mkQuestion text ["yes"; "no"] ["yes"].

Definition sampleBank : Bank.QuizContent :=
  Bank.mkQuizContent "Sample course"
    [Bank.mkWeek "1"
       [bankQuestion "1a"; bankQuestion "1b"; bankQuestion "1c"];
     Bank.mkWeek "2" [bankQuestion "2a"; bankQuestion "2b"]].

Definition sampleFetch (courseCode : string) : Fetched :=
  Responds true "OK" (Json sampleBank).

(** [/quiz/CS101?weeks=1-2&numQ=4&time=003000] and two variations of it. *)
Definition sampleLocation : Location :=
  mkLocation "/quiz/CS101" (Some "1-2") (Some "4") (Some "003000").

Definition zeroCountLocation : Location :=
  mkLocation "/quiz/CS101" (Some "1-2") (Some "0") (Some "003000").

Definition noWeeksLocation : Location :=
  mkLocation "/quiz/CS101" None (Some "4") (Some "003000").

Definition sampleSource : list bool :=
  [false; true; true; false; false; true; false; true; true; false].

(** The three candidates of week 1. *)
Definition threeCandidates : list QuizQuestion :=
  allQuestions [JS.Int 1] sampleBank.

(** Two questions, nothing selected; the first one offers an empty option. *)
Definition blankOptionSession : State :=
  mkState
    [mkQuizQuestion "q1" [""; "x"] (Some "x") None None "1" (Some false);
     mkQuizQuestion "q2" ["x"; "y"] (Some "x") None None "1" (Some false)]
    0 600%Z false 0 false false None false false None.

(** Eighty questions, 23 of them answered correctly. *)
Definition tieSession : State :=
  mkState
    (repeat
       (mkQuizQuestion "q" ["x"; "y"] (Some "x") (Some "x") None "1"
          (Some false)) 23
     ++ repeat
          (mkQuizQuestion "q" ["x"; "y"] (Some "x") (Some "y") None "1"
             (Some false)) 57)
    79 5%Z false 0 false false None false false None.

(** Thirty-one seconds left, and what happens next. *)
Definition countdownSession : State :=
  mkState
    [mkQuizQuestion "q" ["x"; "y"] (Some "x") None None "1" (Some false)]
    0 31%Z false 0 false false None false false None.

Definition countdownEvents : list Event :=
  [Tick; AnswerSelect "x"; Tick; Tick; AnswerSelect "y"; Tick].

(** A bank question that lists no answer. *)
Definition answerlessQuestion : Bank.Question :=
  Bank.mkQuestion "q" ["x"; "y"] [].

(** ** The clock *)

(** [String(n)] for an integer. *)
Definition toStringZ (z : Z) : string :=
  NilZero.string_of_int (Z.to_int z).

(** The filling of [padStart]: [k] characters of the repeated pad string. *)
Fixpoint padFill (k : nat) (pad cur : string) : string :=
  match k with
  | O => EmptyString
  | S k' =>
      match cur with
      | String c r => String c (padFill k' pad r)
      | EmptyString =>
          match pad with
          | String c r => String c (padFill k' pad r)
          | EmptyString => EmptyString
          end
      end
  end.

(** [s.padStart(target, pad)]. *)
Definition padStart (target : nat) (pad s : string) : string :=
  if (target <=? String.length s)%nat then s
  else (padFill (target - String.length s) pad pad ++ s)%string.

(** [formatTime]: [Math.floor] of a quotient is [Z.div], [%] is [Z.rem]. *)
Definition formatTime (totalSeconds : Z) : string :=
  let hours := (totalSeconds / 3600)%Z in
  let minutes := (Z.rem totalSeconds 3600 / 60)%Z in
  let seconds := Z.rem totalSeconds 60 in
  (padStart 2 "0" (toStringZ hours) ++ ":"
     ++ padStart 2 "0" (toStringZ minutes) ++ ":"
     ++ padStart 2 "0" (toStringZ seconds))%string.

(** ** What is rendered *)

(** The five branches of [content], with the values each one shows: on the
    result screen the cards, the score over the number of questions, the
    count of correct answers made anew, the percentage, its colour and the
    open card; on the answering screen the question, its position, the
    clock and its colour, the warning, the request to answer and the text
    of the button. *)
Inductive Screen : Type :=
  | Loading
  | FetchFailure (message : string)
  | NoQuestions
  | Results (displayed : list QuizQuestion) (correct total recount : nat)
      (percentage : option Z) (colour : string) (expanded : option nat)
  | Answering (currentQuestion : QuizQuestion) (position total : nat)
      (clock : string) (clockRed warning error : bool) (button : string).

(** The render: the answering branch reads [currentQuestion.question] and
    throws on a missing question. *)
Definition render (s : State) : Exn + Screen :=
  if isLoading s then inr Loading
  else if JS.truthy_opt (fetchError s)
  then inr (FetchFailure
              (match fetchError s with Some m => m | None => EmptyString end))
  else if (List.length (questions s) =? 0)%nat then inr NoQuestions
  else if quizSubmitted s
  then inr (Results (displayedQuestions s) (score s)
              (List.length (questions s)) (correctAnswers (questions s))
              (percentage s) (scoreColor s) (expandedQuestionIndex s))
  else
    match nth_error (questions s) (currentQuestionIndex s) with
    | None => inl TypeError
    | Some currentQuestion =>
        inr (Answering currentQuestion (currentQuestionIndex s + 1)
               (List.length (questions s)) (formatTime (timeRemaining s))
               (timeRemaining s <=? 30)%Z (showWarning s) (showError s)
               (if (Z.of_nat (currentQuestionIndex s)
                    =? Z.of_nat (List.length (questions s)) - 1)%Z
                then "Submit" else "Next"))
    end.

(** The card of the result screen whose details are shown: the one whose
    position among the displayed questions is [expandedQuestionIndex]. *)
Definition openCard (s : State) : option QuizQuestion :=
  match expandedQuestionIndex s with
  | Some i => nth_error (displayedQuestions s) i
  | None => None
  end.

(** ** The page: the state and what the interval sees of it *)

(** The callback of the interval calls the [submitQuiz] of the render in
    which the interval was set up, and reads the [questions] array of that
    render.  The effect that sets the interval up runs again when
    [timeRemaining] or [quizSubmitted] has changed, not when the questions
    have.  An answer is selected by a write into the question object, which
    the arrays of all renders share, so that the array of an earlier render
    shows the answers of the current one; only [fetchQuizContent] puts other
    objects in place.  [stale] is [None] when the interval reads the
    questions of the state, and holds what it reads when that is the array
    of before the fetch. *)
Record Page : Type := mkPage {
  state : State;
  stale : option (list QuizQuestion)
}.

(** The questions as the callback of the interval reads them. *)
Definition seen (p : Page) : list QuizQuestion :=
  match stale p with
  | Some qs => qs
  | None => questions (state p)
  end.

(** One firing of the interval: [tick] with [submitQuiz] reading [seen]. *)
Definition intervalCallback (p : Page) : list Action :=
  tick (run [SetQuestions (seen p)] (state p)).

(** The setter calls of an event on a page.  The handlers of the buttons
    and the expiry effect belong to the current render. *)
Definition handlePage (e : Event) (p : Page) : list Action :=
  match e with
  | Tick => intervalCallback p
  | _ => handle e (state p)
  end.

(** The page after an event: the state after the setter calls, and the
    interval set up again when one of its dependencies has changed. *)
Definition afterEvent (e : Event) (p : Page) : Page :=
  let s' := run (handlePage e p) (state p) in
  mkPage s'
    (if (timeRemaining s' =? timeRemaining (state p))%Z
        && Bool.eqb (quizSubmitted s') (quizSubmitted (state p))
     then stale p
     else None).

(** The handlers are reachable only from the elements of the branch that is
    rendered: the option buttons and the button below them on the answering
    screen, the cards and the check box on the result screen.  The interval
    and the expiry effect guard themselves. *)
Definition enabled (e : Event) (s : State) : bool :=
  match e, render s with
  | Tick, _ => true
  | Expiry, _ => true
  | AnswerSelect a, inr (Answering q _ _ _ _ _ _ _) =>
      existsb (String.eqb a) (options q)
  | NextQuestion, inr (Answering _ _ _ _ _ _ _ _) => true
  | ToggleExpansion i, inr (Results displayed _ _ _ _ _ _) =>
      (i <? List.length displayed)%nat
  | OnlyIncorrect _, inr (Results _ _ _ _ _ _ _) => true
  | _, _ => false
  end.

(** The page after a sequence of events, those not on offer being
    dropped. *)
Fixpoint play (es : list Event) (p : Page) : Page :=
  match es with
  | [] => p
  | e :: es' => play es' (if enabled e (state p) then afterEvent e p else p)
  end.

(** Selecting an answer for every question and pressing the button below
    each time. *)
Definition walk (answers : list string) : list Event :=
  flat_map (fun a => [AnswerSelect a; NextQuestion]) answers.

(** ** The phases of [fetchQuizContent] *)

(** The message [catch] stores for an error. *)
Definition reported (e : FetchError) : Action :=
  SetFetchError
    (Some (if JS.truthy (message e) then message e
           else "An unknown error occurred.")).

(** [fetchQuizContent] up to its first [await]: the calls made before the
    request is sent.  An error of the URL is thrown, caught and stored
    without any [await]. *)
Definition beforeAwait (loc : Location) : list Action :=
  [SetIsLoading true; SetFetchError None]
    ++ match courseCodeOf (pathname loc) with
       | inl e => [reported e; SetIsLoading false]
       | inr _ => [SetTimeRemaining (initialTimeRemaining (timeParam loc))]
       end.

Section Phases.

Variable sort : list bool -> list QuizQuestion -> list QuizQuestion.
Variable Number : string -> JS.number.

(** [fetchQuizContent] from the answer of the bank service on. *)
Definition afterAwait (loc : Location) (fetch : string -> Fetched)
    (rnd : list bool) : list Action :=
  match courseCodeOf (pathname loc) with
  | inl _ => []
  | inr courseCode =>
      match fetch courseCode with
      | Rejects m => [reported (Thrown m)]
      | Responds false statusText _ => [reported (FetchFailed statusText)]
      | Responds true _ (Malformed m) => [reported (Thrown m)]
      | Responds true _ (Json data) =>
          let candidates := allQuestions (weeks Number (weeksParam loc)) data in
          if (List.length candidates =? 0)%nat
          then [reported NoQuestionsAvailable]
          else [SetQuestions
                  (JS.slice0 (shuffledQuestions sort rnd candidates)
                     (numQuestions (numQuestionsParam loc)))]
      end ++ [SetIsLoading false]
  end.

(** The page once [fetchQuizContent] has run on the hooks as they are
    created, when the bank service answers before the interval fires for
    the first time; [arrivedPage] below is the page when it has fired
    meanwhile.  The interval was set up when the clock was set, on the
    empty array of before; the questions that arrive do not set it up
    again. *)
Definition openPage (loc : Location) (fetch : string -> Fetched)
    (rnd : list bool) : Page :=
  mkPage (run (fetchQuizContent sort Number loc fetch rnd) initialState)
    (Some []).

End Phases.

(** ** The page while the questions load, and when they arrive *)

(** The page at the first [await] of [fetchQuizContent], run on the hooks as
    they are created: the interval is set up on the clock just set and
    reads the empty array of that render. *)
Definition loadingPage (loc : Location) : Page :=
  mkPage (run (beforeAwait loc) initialState) None.

Section Arrival.

Variable sort : list bool -> list QuizQuestion -> list QuizQuestion.
Variable Number : string -> JS.number.

(** The page when the bank service has answered, after the events
    [loading] of the time it took: the rest of [fetchQuizContent] runs on
    the state reached, and the interval keeps the array it read before. *)
Definition arrivedPage (loc : Location) (fetch : string -> Fetched)
    (rnd : list bool) (loading : list Event) : Page :=
  let p := play loading (loadingPage loc) in
  mkPage (run (afterAwait sort Number loc fetch rnd) (state p))
    (Some (seen p)).

End Arrival.

(** ** Vocabulary of the further properties *)

(** What a question keeps for the whole session. *)
Definition fixedPart (q : QuizQuestion)
  : string * list string * option string * string :=
  (question q, options q, answer q, weekNumber q).

(** A session on the screen: loaded without error, the index on a question,
    the score no more than the number of questions, every selected answer
    one of the options. *)
Definition SessionInv (s : State) : Prop :=
  isLoading s = false
  /\ fetchError s = None
  /\ (questions s <> [] -> currentQuestionIndex s < List.length (questions s))
  /\ score s <= List.length (questions s)
  /\ Forall (fun q => forall a, selectedAnswer q = Some a -> In a (options q))
       (questions s).

(** A page with a session on the screen, the interval having seen no more
    questions than there are. *)
Definition PageInv (p : Page) : Prop :=
  SessionInv (state p)
  /\ List.length (seen p) <= List.length (questions (state p)).

(** The score is that of the questions once the quiz is submitted, and the
    interval reads the questions of the state before it can submit: it does
    so from its second firing on. *)
Definition ScoreInv (p : Page) : Prop :=
  (quizSubmitted (state p) = true ->
   score (state p) = correctAnswers (questions (state p)))
  /\ (stale p = None \/ quizSubmitted (state p) = true
      \/ (2 <= timeRemaining (state p))%Z \/ (timeRemaining (state p) <= 0)%Z).

(** How often the interval fires in a sequence of events. *)
Definition ticksOf (es : list Event) : nat :=
  List.length (filter (fun e => match e with Tick => true | _ => false end) es).

(** The questions with the answers of a list selected, one each. *)
Fixpoint selectAll (answers : list string) (qs : list QuizQuestion)
  : list QuizQuestion :=
  match answers, qs with
  | a :: answers', q :: qs' => withSelectedAnswer a q :: selectAll answers' qs'
  | _, _ => qs
  end.

(** The question at a position has an answer selected. *)
Definition answeredAt (s : State) (i : nat) : Prop :=
  exists q a, nth_error (questions s) i = Some q /\ selectedAnswer q = Some a.

(** No occurrence of [sep] starts inside [a] when [a] is followed by
    [tail]. *)
Fixpoint noPrefixIn (sep a tail : string) : bool :=
  match a with
  | EmptyString => true
  | String c a' =>
      negb (String.prefix sep (a ++ tail)%string) && noPrefixIn sep a' tail
  end.

Definition isDigit (c : ascii) : bool :=
  match JS.digit_value 10 c with
  | Some _ => true
  | None => false
  end.

Fixpoint allDigits (s : string) : bool :=
  match s with
  | EmptyString => true
  | String c r => isDigit c && allDigits r
  end.

(** The number a run of decimal digits stands for, after [acc]. *)
Fixpoint uintValue (d : Decimal.uint) (acc : Z) : Z :=
  match d with
  | Decimal.Nil => acc
  | Decimal.D0 l => uintValue l (acc * 10 + 0)
  | Decimal.D1 l => uintValue l (acc * 10 + 1)
  | Decimal.D2 l => uintValue l (acc * 10 + 2)
  | Decimal.D3 l => uintValue l (acc * 10 + 3)
  | Decimal.D4 l => uintValue l (acc * 10 + 4)
  | Decimal.D5 l => uintValue l (acc * 10 + 5)
  | Decimal.D6 l => uintValue l (acc * 10 + 6)
  | Decimal.D7 l => uintValue l (acc * 10 + 7)
  | Decimal.D8 l => uintValue l (acc * 10 + 8)
  | Decimal.D9 l => uintValue l (acc * 10 + 9)
  end%Z.

(** The digits [String(z)] prints for [z >= 0]. *)
Definition digitsOf (z : Z) : Decimal.uint :=
  match z with
  | Z.pos p => Pos.to_uint p
  | _ => Decimal.D0 Decimal.Nil
  end.

(** A page behind the loading screen, as [fetchQuizContent] leaves it at
    its first [await] and the interval keeps it. *)
Definition Waiting (p : Page) : Prop :=
  isLoading (state p) = true
  /\ fetchError (state p) = None
  /\ questions (state p) = []
  /\ seen p = []
  /\ currentQuestionIndex (state p) = 0
  /\ score (state p) = 0
  /\ showError (state p) = false
  /\ showOnlyIncorrect (state p) = false
  /\ expandedQuestionIndex (state p) = None.

(** ** Sample pages *)

(** The session of [countdownSession], the interval set up on it. *)
Definition runningPage : Page := mkPage countdownSession None.

(** One question, not answered, one second left. *)
Definition finalSecondPage : Page :=
  mkPage
    (mkState
       [mkQuizQuestion "q" ["x"; "y"] (Some "x") None None "1" (Some false)]
       0 1%Z false 0 false false None false false None)
    None.

(** A time budget of twenty seconds. *)
Definition shortBudgetPage : Page :=
  mkPage
    (mkState
       [mkQuizQuestion "q" ["x"; "y"] (Some "x") None None "1" (Some false)]
       0 20%Z false 0 false false None false false None)
    None.

(** Three questions submitted, the first answered correctly, the others
    not, the second card open. *)
Definition reviewPage : Page :=
  mkPage
    (mkState
       [mkQuizQuestion "q1" ["x"; "y"] (Some "x") (Some "x") None "1"
          (Some false);
        mkQuizQuestion "q2" ["x"; "y"] (Some "x") (Some "y") None "1"
          (Some false);
        mkQuizQuestion "q3" ["x"; "y"] (Some "y") None None "2" (Some false)]
       2 600%Z true 1 false false (Some 1) false false None)
    None.

(** [numQ=-2] and [numQ=all] on the sample location. *)
Definition negativeCountLocation : Location :=
  mkLocation "/quiz/CS101" (Some "1-2") (Some "-2") (Some "003000").

Definition wordCountLocation : Location :=
  mkLocation "/quiz/CS101" (Some "1-2") (Some "all") (Some "003000").

(** A bank question that lists two answers. *)
Definition twoAnswerQuestion : Bank.Question :=
  Bank.mkQuestion "q" ["x"; "y"; "z"] ["x"; "y"].

(** [/quiz/CS101?weeks=1&numQ=1&time=000001]: one question, one second. *)
Definition oneSecondLocation : Location :=
  mkLocation "/quiz/CS101" (Some "1") (Some "1") (Some "000001").

(** * Properties *)

(** ** Applying setter calls *)

(** Setter calls applied to a state given by its fields compute. *)
Ltac by_fields s := destruct s; cbn; repeat split; reflexivity.

Lemma filter_length_split {A : Type} (f : A -> bool) (l : list A) :
  List.length (filter f l) + List.length (filter (fun x => negb (f x)) l)
  = List.length l.
Proof.
  induction l as [|x l IH]; simpl; [reflexivity|].
  destruct (f x); simpl; lia.
Qed.

Lemma strict_eq_true_iff (a b : option string) :
  JS.strict_eq a b = true <-> a = b.
Proof.
  destruct a as [x|], b as [y|]; simpl; split; intros H;
    try discriminate; try reflexivity.
  - apply String.eqb_eq in H. now subst.
  - injection H as ->. apply String.eqb_refl.
Qed.

Lemma isCorrect_true_iff (q : QuizQuestion) :
  isCorrect q = true <-> selectedAnswer q = answer q.
Proof. apply strict_eq_true_iff. Qed.

Lemma isCorrect_false_iff (q : QuizQuestion) :
  isCorrect q = false <-> selectedAnswer q <> answer q.
Proof.
  rewrite <- isCorrect_true_iff. destruct (isCorrect q); split; intros H;
    congruence.
Qed.

(** ** Submission *)



(** ** Navigation *)

(** C4, as the code has it: with the current question's [selectedAnswer]
    unset or the empty string, the "next" button only raises the error flag
    and leaves the index, the submission flag, the score and the questions
    as they are; with a non-empty [selectedAnswer] it runs [submitQuiz] on
    the last index and otherwise moves the index by exactly one. *)
Theorem goToNextQuestion_gate (s : State) (q : QuizQuestion) :
  nth_error (questions s) (currentQuestionIndex s) = Some q ->
  (selectedAnswer q = None \/ selectedAnswer q = Some EmptyString ->
     goToNextQuestion s = ([SetShowError true], None)
     /\ currentQuestionIndex (advance s) = currentQuestionIndex s
     /\ quizSubmitted (advance s) = quizSubmitted s
     /\ score (advance s) = score s
     /\ questions (advance s) = questions s)
  /\ (forall a, selectedAnswer q = Some a -> a <> EmptyString ->
      (S (currentQuestionIndex s) = List.length (questions s) ->
         goToNextQuestion s = (SetShowError false :: submitQuiz s, None)
         /\ quizSubmitted (advance s) = true
         /\ score (advance s) = correctAnswers (questions s)
         /\ currentQuestionIndex (advance s) = currentQuestionIndex s
         /\ questions (advance s) = questions s)
      /\ (S (currentQuestionIndex s) <> List.length (questions s) ->
         goToNextQuestion s
         = ([SetShowError false;
             SetCurrentQuestionIndex (currentQuestionIndex s + 1)], None)
         /\ currentQuestionIndex (advance s) = currentQuestionIndex s + 1
         /\ quizSubmitted (advance s) = quizSubmitted s
         /\ score (advance s) = score s
         /\ questions (advance s) = questions s)).
Proof.
  intros Hq. split.
  - intros Hsel.
    assert (Hf : JS.truthy_opt (selectedAnswer q) = false)
      by (destruct Hsel as [-> | ->]; reflexivity).
    unfold advance, goToNextQuestion. rewrite Hq, Hf.
    destruct s; cbn. repeat split; reflexivity.
  - intros a Ha Hne.
    assert (Ht : JS.truthy_opt (selectedAnswer q) = true).
    { rewrite Ha. destruct a; [congruence | reflexivity]. }
    split; intros Hidx.
    + assert (Hlast : (Z.of_nat (currentQuestionIndex s)
                       =? Z.of_nat (List.length (questions s)) - 1)%Z = true)
        by (apply Z.eqb_eq; lia).
      unfold advance, goToNextQuestion. rewrite Hq, Ht, Hlast.
      destruct s; cbn. repeat split; reflexivity.
    + assert (Hlast : (Z.of_nat (currentQuestionIndex s)
                       =? Z.of_nat (List.length (questions s)) - 1)%Z = false)
        by (apply Z.eqb_neq; lia).
      unfold advance, goToNextQuestion. rewrite Hq, Ht, Hlast.
      destruct s; cbn. repeat split; reflexivity.
Qed.

(** ** Review *)

Lemma IncorrectOnly_filter (l : list QuizQuestion) :
  IncorrectOnly l (filter (fun q => negb (isCorrect q)) l).
Proof.
  induction l as [|q l IH]; simpl; [constructor|].
  destruct (isCorrect q) eqn:E; simpl.
  - apply IncorrectOnly_drop; [now apply isCorrect_true_iff | exact IH].
  - apply IncorrectOnly_keep; [now apply isCorrect_false_iff | exact IH].
Qed.

Lemma IncorrectOnly_unique (l l1 l2 : list QuizQuestion) :
  IncorrectOnly l l1 -> IncorrectOnly l l2 -> l1 = l2.
Proof.
  intros H1. revert l2.
  induction H1 as [|q l l1 Hq H1 IH|q l l1 Hq H1 IH]; intros l2 H2;
    inversion H2; subst; try congruence.
  - f_equal. now apply IH.
  - now apply IH.
Qed.

(** C7: after the checkbox is set, the displayed questions are exactly the
    incorrectly answered ones in session order, and there is no other such
    subsequence; their number is the session length minus the number of
    correct answers, so 3 when 3 of 5 are incorrect; after it is cleared,
    all questions are displayed. *)
Theorem displayedQuestions_filter (s : State) :
  let shown b := displayedQuestions (run (handle (OnlyIncorrect b) s) s) in
  IncorrectOnly (questions s) (shown true)
  /\ (forall l, IncorrectOnly (questions s) l -> l = shown true)
  /\ List.length (shown true) + correctAnswers (questions s)
     = List.length (questions s)
  /\ (List.length (questions s) = 5 -> correctAnswers (questions s) = 2 ->
      List.length (shown true) = 3)
  /\ shown false = questions s.
Proof.
  destruct s as [qs i t sub sc w f ex er ld fe]; cbn.
  unfold displayedQuestions; cbn.
  repeat split.
  - apply IncorrectOnly_filter.
  - intros l Hl. eapply IncorrectOnly_unique; [exact Hl|].
    apply IncorrectOnly_filter.
  - unfold correctAnswers. pose proof (filter_length_split isCorrect qs). lia.
  - unfold correctAnswers. pose proof (filter_length_split isCorrect qs). lia.
Qed.

(** ** Questions without an answer in the bank *)

(** C10: a bank question with an empty answer list is given the expected
    answer [undefined]; as long as it is not answered its selected answer is
    [undefined] as well, the comparison of the scorer holds, and the
    question adds one to the score that [submitQuiz] writes. *)
Theorem empty_answer_counts_as_correct
    (week : Bank.Week) (q : Bank.Question) :
  Bank.answer q = [] ->
  let qq := deriveQuestion week q in
  answer qq = None
  /\ selectedAnswer qq = None
  /\ isCorrect qq = true
  /\ (forall before after,
        correctAnswers (before ++ qq :: after)
        = S (correctAnswers (before ++ after)))
  /\ (forall s before after,
        questions s = before ++ qq :: after ->
        submitQuiz s
        = [SetScore (S (correctAnswers (before ++ after)));
           SetQuizSubmitted true]).
Proof.
  intros Hq qq.
  assert (Hans : answer qq = None) by (unfold qq; cbn; now rewrite Hq).
  assert (Hc : isCorrect qq = true)
    by (unfold isCorrect; rewrite Hans; reflexivity).
  assert (Hcount : forall before after,
             correctAnswers (before ++ qq :: after)
             = S (correctAnswers (before ++ after))).
  { intros before after. unfold correctAnswers.
    rewrite !filter_app, !length_app. simpl. rewrite Hc. simpl. lia. }
  repeat split; try assumption.
  intros s before after Hs. unfold submitQuiz. now rewrite Hs, Hcount.
Qed.

(** ** Countdown *)

Lemma warningWrites_app (b : bool) (a1 a2 : list Action) :
  warningWrites b (a1 ++ a2) = warningWrites b a1 + warningWrites b a2.
Proof. unfold warningWrites. now rewrite filter_app, length_app. Qed.

(** Everything but the interval leaves the clock and the warning alone. *)
Lemma handle_keeps_clock (e : Event) (s : State) (b : bool) :
  e <> Tick ->
  timeRemaining (run (handle e s) s) = timeRemaining s
  /\ showWarning (run (handle e s) s) = showWarning s
  /\ warningWrites b (handle e s) = 0.
Proof.
  intros He. destruct e; try congruence; unfold handle.
  - unfold expiryEffect.
    destruct ((timeRemaining s =? 0)%Z && negb (quizSubmitted s)
              && (0 <? List.length (questions s))%nat);
      by_fields s.
  - unfold handleAnswerSelect.
    destruct (nth_error (questions s) (currentQuestionIndex s));
      by_fields s.
  - unfold goToNextQuestion.
    destruct (nth_error (questions s) (currentQuestionIndex s)) as [q|].
    + destruct (negb (JS.truthy_opt (selectedAnswer q))).
      * by_fields s.
      * destruct (Z.of_nat (currentQuestionIndex s)
                  =? Z.of_nat (List.length (questions s)) - 1)%Z;
          by_fields s.
    + by_fields s.
  - unfold toggleQuestionExpansion.
    destruct (quizSubmitted s); by_fields s.
  - by_fields s.
Qed.

(** One firing of the interval, by the value of the clock. *)
Lemma tick_cases (s : State) :
  let t := timeRemaining s in
  let s' := run (tick s) s in
  warningWrites false (tick s) = 0
  /\ ((t < 30)%Z ->
        warningWrites true (tick s) = 0
        /\ showWarning s' = showWarning s /\ (timeRemaining s' < 30)%Z)
  /\ (t = 30%Z ->
        (quizSubmitted s = false ->
           warningWrites true (tick s) = 1
           /\ showWarning s' = true /\ timeRemaining s' = 29%Z)
        /\ (quizSubmitted s = true ->
           warningWrites true (tick s) = 0
           /\ showWarning s' = showWarning s /\ timeRemaining s' = 30%Z))
  /\ ((30 < t)%Z ->
        warningWrites true (tick s) = 0
        /\ showWarning s' = showWarning s /\ (30 <= timeRemaining s')%Z).
Proof.
  destruct s as [qs i t sub sc w f ex er ld fe]; cbn.
  unfold tick, tickUpdater; cbn.
  destruct (0 <? t)%Z eqn:Hpos; destruct sub; cbn;
    try (repeat split; intros; subst; try reflexivity; try discriminate; lia).
  apply Z.ltb_lt in Hpos.
  destruct (t <=? 1)%Z eqn:H1; cbn.
  - apply Z.leb_le in H1.
    repeat split; intros; subst; try reflexivity; try discriminate; lia.
  - apply Z.leb_gt in H1.
    destruct (t =? 30)%Z eqn:H30; cbn.
    + apply Z.eqb_eq in H30. subst.
      repeat split; intros; try reflexivity; try discriminate; lia.
    + apply Z.eqb_neq in H30.
      repeat split; intros; subst; try reflexivity; try discriminate; lia.
Qed.

Lemma trace_cons (e : Event) (es : list Event) (s : State) :
  trace (e :: es) s
  = (handle e s ++ fst (trace es (run (handle e s) s)),
     snd (trace es (run (handle e s) s))).
Proof. simpl. destruct (trace es (run (handle e s) s)). reflexivity. Qed.

Lemma Event_eq_Tick_dec (e : Event) : {e = Tick} + {e <> Tick}.
Proof. destruct e; (now left) || (right; discriminate). Qed.

Lemma trace_never_clears_warning (es : list Event) (s : State) :
  warningWrites false (fst (trace es s)) = 0
  /\ (showWarning s = true -> showWarning (snd (trace es s)) = true).
Proof.
  revert s. induction es as [|e es IH]; intros s; [now split|].
  rewrite trace_cons; cbn [fst snd]. rewrite warningWrites_app.
  destruct (IH (run (handle e s) s)) as [IH1 IH2].
  destruct (Event_eq_Tick_dec e) as [-> | He].
  - pose proof (tick_cases s) as (Hf & Hlt & Heq & Hgt). cbn [handle] in *.
    split; [lia|]. intros Hw. apply IH2.
    destruct (Z.lt_trichotomy (timeRemaining s) 30) as [H | [H | H]].
    + destruct (Hlt H) as (_ & -> & _). exact Hw.
    + destruct (Heq H) as [Hn Hy].
      destruct (quizSubmitted s).
      * destruct (Hy eq_refl) as (_ & -> & _). exact Hw.
      * now destruct (Hn eq_refl) as (_ & -> & _).
    + destruct (Hgt H) as (_ & -> & _). exact Hw.
  - destruct (handle_keeps_clock e s false He) as (_ & Hw' & ->).
    split; [lia|]. intros Hw. apply IH2. now rewrite Hw'.
Qed.

Lemma trace_below_threshold (es : list Event) (s : State) :
  (timeRemaining s < 30)%Z ->
  warningWrites true (fst (trace es s)) = 0
  /\ showWarning (snd (trace es s)) = showWarning s
  /\ (timeRemaining (snd (trace es s)) < 30)%Z.
Proof.
  revert s. induction es as [|e es IH]; intros s Ht; [now repeat split|].
  rewrite trace_cons; cbn [fst snd]. rewrite warningWrites_app.
  destruct (Event_eq_Tick_dec e) as [-> | He].
  - pose proof (tick_cases s) as (_ & Hlt & _). cbn [handle].
    destruct (Hlt Ht) as (H1 & H2 & H3).
    destruct (IH _ H3) as (I1 & I2 & I3).
    repeat split; [lia | congruence | exact I3].
  - destruct (handle_keeps_clock e s true He) as (H1 & H2 & H3).
    assert (H4 : (timeRemaining (run (handle e s) s) < 30)%Z) by lia.
    destruct (IH _ H4) as (I1 & I2 & I3).
    repeat split; [lia | congruence | exact I3].
Qed.

Lemma trace_crosses_once (es : list Event) (s : State) :
  (30 <= timeRemaining s)%Z -> showWarning s = false ->
  warningWrites true (fst (trace es s))
  = (if (timeRemaining (snd (trace es s)) <? 30)%Z then 1 else 0)
  /\ showWarning (snd (trace es s))
     = (timeRemaining (snd (trace es s)) <? 30)%Z.
Proof.
  revert s. induction es as [|e es IH]; intros s Ht Hw.
  - cbn. assert (H : (timeRemaining s <? 30)%Z = false)
      by (apply Z.ltb_ge; lia).
    rewrite H. now split.
  - rewrite trace_cons; cbn [fst snd]. rewrite warningWrites_app.
    destruct (Event_eq_Tick_dec e) as [-> | He].
    + pose proof (tick_cases s) as (_ & _ & Heq & Hgt). cbn [handle].
      destruct (Z.eq_dec (timeRemaining s) 30) as [H30 | H30].
      * destruct (Heq H30) as [Hn Hy].
        destruct (quizSubmitted s).
        -- destruct (Hy eq_refl) as (H1 & H2 & H3).
           destruct (IH (run (tick s) s)) as [I1 I2]; [lia | congruence |].
           split; [lia | exact I2].
        -- destruct (Hn eq_refl) as (H1 & H2 & H3).
           destruct (trace_below_threshold es (run (tick s) s))
             as (I1 & I2 & I3); [lia|].
           apply Z.ltb_lt in I3. rewrite I3. split; [lia | congruence].
      * destruct Hgt as (H1 & H2 & H3); [lia|].
        destruct (IH (run (tick s) s)) as [I1 I2]; [lia | congruence |].
        split; [lia | exact I2].
    + destruct (handle_keeps_clock e s true He) as (H1 & H2 & H3).
      destruct (IH (run (handle e s) s)) as [I1 I2]; [lia | congruence |].
      split; [lia | exact I2].
Qed.

(** C8: over any sequence of timer and user events of a session that starts
    with at least 30 seconds and the warning off, [setShowWarning(true)] is
    called exactly once if the clock has gone below 30 and not at all
    before, the warning shows exactly when the clock is below 30, no event
    ever calls [setShowWarning(false)], and a warning that is on stays on. *)
Theorem warning_latch (es : list Event) (s : State) :
  (30 <= timeRemaining s)%Z -> showWarning s = false ->
  let acts := fst (trace es s) in
  let s' := snd (trace es s) in
  warningWrites true acts = (if (timeRemaining s' <? 30)%Z then 1 else 0)
  /\ showWarning s' = (timeRemaining s' <? 30)%Z
  /\ warningWrites false acts = 0
  /\ (forall later,
        showWarning s' = true -> showWarning (snd (trace later s')) = true).
Proof.
  intros Ht Hw acts s'.
  destruct (trace_crosses_once es s Ht Hw) as [H1 H2].
  destruct (trace_never_clears_warning es s) as [H3 _].
  repeat split; try assumption.
  intros later. apply trace_never_clears_warning.
Qed.

(** ** Binary64 rounding

    The accuracy of [percentageDouble], from the specification of the
    primitive floats: a correctly rounded quotient and a correctly rounded
    product are each within [2^-53] of what they round. *)

Section Binary64.

Local Open Scope R_scope.

Lemma two_pow_pos (e : Z) : 0 < two_pow e.
Proof. apply powerRZ_lt. lra. Qed.

Lemma two_pow_add (a b : Z) : two_pow (a + b) = two_pow a * two_pow b.
Proof. apply powerRZ_add. lra. Qed.

Lemma two_pow_succ (e : Z) : two_pow (e + 1) = 2 * two_pow e.
Proof. rewrite two_pow_add. unfold two_pow at 2. simpl. lra. Qed.

Lemma two_pow_IZR (k : Z) : (0 <= k)%Z -> two_pow k = IZR (2 ^ k).
Proof.
  intros Hk. pattern k. apply natlike_ind; [| |exact Hk].
  - unfold two_pow. simpl. reflexivity.
  - intros x Hx IH. unfold Z.succ. rewrite two_pow_succ, IH.
    rewrite Z.pow_add_r, mult_IZR by lia. simpl. lra.
Qed.

Lemma two_pow_le (a b : Z) : (a <= b)%Z -> two_pow a <= two_pow b.
Proof.
  intros H. replace b with (a + (b - a))%Z by lia.
  rewrite two_pow_add.
  assert (1 <= two_pow (b - a)).
  { rewrite two_pow_IZR by lia. apply IZR_le.
    assert (0 < 2 ^ (b - a))%Z by (apply Z.pow_pos_nonneg; lia). lia. }
  pose proof (two_pow_pos a). nra.
Qed.

Lemma two_pow_lt (a b : Z) : (a < b)%Z -> two_pow a < two_pow b.
Proof.
  intros H. apply Rlt_le_trans with (two_pow (a + 1)).
  - rewrite two_pow_succ. pose proof (two_pow_pos a). lra.
  - apply two_pow_le. lia.
Qed.

Lemma digits2_pos_bounds (m : positive) :
  (2 ^ (Z.pos (digits2_pos m) - 1) <= Z.pos m < 2 ^ Z.pos (digits2_pos m))%Z.
Proof.
  induction m as [m IH | m IH |]; cbn [digits2_pos].
  - rewrite Pos2Z.inj_succ.
    replace (Z.succ (Z.pos (digits2_pos m)) - 1)%Z
      with (Z.succ (Z.pos (digits2_pos m) - 1)) by lia.
    rewrite !Z.pow_succ_r by lia. lia.
  - rewrite Pos2Z.inj_succ.
    replace (Z.succ (Z.pos (digits2_pos m)) - 1)%Z
      with (Z.succ (Z.pos (digits2_pos m) - 1)) by lia.
    rewrite !Z.pow_succ_r by lia. lia.
  - simpl. lia.
Qed.

Lemma loc_of_shr_record_of_loc (m : Z) (l : location) :
  loc_of_shr_record (shr_record_of_loc m l) = l.
Proof. destruct l as [|[| |]]; reflexivity. Qed.

Lemma shr_m_shr_record_of_loc (m : Z) (l : location) :
  shr_m (shr_record_of_loc m l) = m.
Proof. destruct l as [|[| |]]; reflexivity. Qed.

Lemma shr_1_spec (mrs : shr_record) (e : Z) (r : R) :
  (0 <= shr_m mrs)%Z ->
  inbetween (shr_m mrs) e (loc_of_shr_record mrs) r ->
  inbetween (shr_m (shr_1 mrs)) (e + 1) (loc_of_shr_record (shr_1 mrs)) r
  /\ shr_m (shr_1 mrs) = (shr_m mrs / 2)%Z.
Proof.
  destruct mrs as [m rb sb]. cbn [shr_m]. intros Hm Hin.
  pose proof (two_pow_pos e) as Hu.
  unfold inbetween, F2R in *. rewrite two_pow_succ.
  destruct m as [|[p|p|]|p]; try lia.
  - (* 0 *)
    destruct rb, sb; cbn in *; split; try reflexivity; lra.
  - (* 2p+1 *)
    assert (Hd : (Z.pos p~1 / 2 = Z.pos p)%Z)
      by (rewrite Pos2Z.inj_xI; symmetry; apply (Z.div_unique _ 2 _ 1); lia).
    rewrite Pos2Z.inj_xI, plus_IZR, mult_IZR in Hin.
    destruct rb, sb; cbn in *; (split; [|symmetry; exact Hd]); lra.
  - (* 2p *)
    assert (Hd : (Z.pos p~0 / 2 = Z.pos p)%Z)
      by (rewrite Pos2Z.inj_xO; symmetry; apply (Z.div_unique _ 2 _ 0); lia).
    rewrite Pos2Z.inj_xO, mult_IZR in Hin.
    destruct rb, sb; cbn in *; (split; [|symmetry; exact Hd]); lra.
  - (* 1 *)
    destruct rb, sb; cbn in *; split; try reflexivity; lra.
Qed.

Lemma shr_1_inv (m0 e0 : Z) (r : R) (k : Z) (mrs : shr_record) :
  (0 <= k)%Z -> shr_inv m0 e0 r k mrs -> shr_inv m0 e0 r (k + 1) (shr_1 mrs).
Proof.
  intros Hk (Hpos & Hin & Hm).
  destruct (shr_1_spec mrs (e0 + k) r Hpos Hin) as [Hin' Hm'].
  repeat split.
  - rewrite Hm'. apply Z.div_pos; lia.
  - now rewrite Z.add_assoc.
  - rewrite Hm', Hm, Z.pow_add_r, Z.pow_1_r by lia.
    apply Z.div_div; [|lia].
    assert (0 < 2 ^ k)%Z by (apply Z.pow_pos_nonneg; lia). lia.
Qed.

Lemma iter_pos_shr_inv (m0 e0 : Z) (r : R) (p : positive) :
  forall (k : Z) (mrs : shr_record),
    (0 <= k)%Z -> shr_inv m0 e0 r k mrs ->
    shr_inv m0 e0 r (k + Z.pos p) (iter_pos shr_1 p mrs).
Proof.
  induction p as [p IH | p IH |]; intros k mrs Hk Hinv; cbn [iter_pos].
  - replace (k + Z.pos p~1)%Z with (k + 1 + Z.pos p + Z.pos p)%Z by lia.
    apply IH; [lia|]. apply IH; [lia|]. now apply shr_1_inv.
  - replace (k + Z.pos p~0)%Z with (k + Z.pos p + Z.pos p)%Z by lia.
    apply IH; [lia|]. now apply IH.
  - now apply shr_1_inv.
Qed.

Lemma shr_fexp_noshift (mx ex : Z) (lx : location) :
  (fexp prec emax (Zdigits2 mx + ex) - ex <= 0)%Z ->
  shr_fexp prec emax mx ex lx = (shr_record_of_loc mx lx, ex).
Proof.
  intros Hn. unfold shr_fexp, shr.
  destruct (fexp prec emax (Zdigits2 mx + ex) - ex)%Z; try reflexivity; lia.
Qed.

Lemma shr_fexp_shift (mx ex : Z) (lx : location) (r : R) :
  (0 < mx)%Z -> inbetween mx ex lx r ->
  let n := (fexp prec emax (Zdigits2 mx + ex) - ex)%Z in
  (0 < n)%Z ->
  exists mrs,
    shr_fexp prec emax mx ex lx = (mrs, (ex + n)%Z)
    /\ shr_m mrs = (mx / 2 ^ n)%Z
    /\ inbetween (shr_m mrs) (ex + n) (loc_of_shr_record mrs) r.
Proof.
  intros Hm Hin n Hn. unfold shr_fexp, shr. fold n.
  destruct n as [|p|p] eqn:En; try lia.
  exists (iter_pos shr_1 p (shr_record_of_loc mx lx)).
  assert (Hinv : shr_inv mx ex r 0 (shr_record_of_loc mx lx)).
  { unfold shr_inv.
    rewrite shr_m_shr_record_of_loc, loc_of_shr_record_of_loc, Z.add_0_r.
    repeat split; [lia | exact Hin |]. now rewrite Z.pow_0_r, Z.div_1_r. }
  apply (iter_pos_shr_inv mx ex r p 0) in Hinv; [|lia].
  destruct Hinv as (_ & Hin' & Hm'). rewrite Z.add_0_l in Hin', Hm'.
  repeat split; assumption.
Qed.

Lemma Zdigits2_unique (m k : Z) :
  (0 < m)%Z -> (2 ^ (k - 1) <= m < 2 ^ k)%Z -> Zdigits2 m = k.
Proof.
  intros Hm [Hlo Hhi]. destruct m as [|p|p]; try lia. cbn [Zdigits2].
  pose proof (digits2_pos_bounds p) as [Dlo Dhi].
  set (d := Z.pos (digits2_pos p)) in *.
  assert (Hk : (0 < k)%Z).
  { destruct (Z.lt_ge_cases 0 k) as [H | H]; [exact H|].
    assert (2 ^ k <= 2 ^ 0)%Z by (apply Z.pow_le_mono_r; lia).
    simpl in *. lia. }
  destruct (Z.lt_trichotomy d k) as [H | [H | H]]; [exfalso | exact H | exfalso].
  - assert (2 ^ d <= 2 ^ (k - 1))%Z by (apply Z.pow_le_mono_r; lia). lia.
  - assert (2 ^ k <= 2 ^ (d - 1))%Z by (apply Z.pow_le_mono_r; lia). lia.
Qed.

Lemma round_nearest_even_spec (m e : Z) (l : location) (r : R) :
  inbetween m e l r ->
  let m' := round_nearest_even m l in
  (m <= m' <= m + 1)%Z
  /\ Rabs (F2R m' e - r) <= two_pow e / 2
  /\ (l = loc_Exact -> m' = m).
Proof.
  intros Hin m'. pose proof (two_pow_pos e) as Hu.
  unfold m', round_nearest_even, inbetween, F2R in *.
  destruct l as [|[| |]].
  - split; [lia|]. split; [|reflexivity]. subst r.
    rewrite Rminus_diag, Rabs_R0. lra.
  - destruct (Z.even m).
    + split; [lia|]. split; [|discriminate].
      subst r. apply Rabs_le. lra.
    + split; [lia|]. split; [|discriminate].
      subst r. rewrite plus_IZR. apply Rabs_le. lra.
  - split; [lia|]. split; [|discriminate]. apply Rabs_le. lra.
  - split; [lia|]. split; [|discriminate].
    rewrite plus_IZR. apply Rabs_le. lra.
Qed.

Lemma fexp_normal (x : Z) :
  (-1074 <= x - 53)%Z -> fexp prec emax x = (x - 53)%Z.
Proof. unfold fexp, emin, prec, emax. lia. Qed.

Lemma binary_round_aux_finish (sx : bool) (mx ex : Z) (lx : location) :
  binary_round_aux prec emax sx mx ex lx
  = let '(mrs', e') := shr_fexp prec emax mx ex lx in
    finish sx (round_nearest_even (shr_m mrs') (loc_of_shr_record mrs')) e'.
Proof. reflexivity. Qed.

Lemma finish_53 (sx : bool) (m2 e1 : Z) :
  (2 ^ 52 <= m2 <= 2 ^ 53)%Z -> (-1074 <= e1 <= 970)%Z ->
  exists m e,
    finish sx m2 e1 = S754_finite sx m e
    /\ F2R (Z.pos m) e = F2R m2 e1
    /\ (2 ^ 52 <= Z.pos m < 2 ^ 53)%Z /\ (e1 <= e <= e1 + 1)%Z.
Proof.
  intros Hm He. unfold finish.
  destruct (Z.eq_dec m2 (2 ^ 53)) as [-> | Hne].
  - (* the mantissa overflowed to 2^53 *)
    exists (Z.to_pos (2 ^ 52)), (e1 + 1)%Z.
    assert (Hd : Zdigits2 (2 ^ 53) = 54%Z) by reflexivity.
    unfold shr_fexp, shr. rewrite Hd, fexp_normal by lia.
    replace (54 + e1 - 53 - e1)%Z with 1%Z by lia.
    cbn [shr_record_of_loc iter_pos shr_1 shr_m].
    change (2 ^ 53)%Z with (Z.pos (Z.to_pos (2 ^ 52))~0).
    cbn [shr_1 shr_m].
    assert (Hle : (e1 + 1 <=? emax - prec)%Z = true)
      by (apply Z.leb_le; unfold emax, prec; lia).
    rewrite Hle. split; [reflexivity|]. split; [|split; [now cbn | lia]].
    unfold F2R. rewrite two_pow_succ.
    change (Z.pos (Z.to_pos (2 ^ 52))~0) with (2 * Z.pos (Z.to_pos (2 ^ 52)))%Z.
    rewrite mult_IZR. lra.
  - assert (Hd : Zdigits2 m2 = 53%Z) by (apply Zdigits2_unique; lia).
    rewrite shr_fexp_noshift by (rewrite Hd, fexp_normal; lia).
    cbn [shr_record_of_loc shr_m].
    destruct m2 as [|p|p]; try lia.
    exists p, e1.
    assert (Hle : (e1 <=? emax - prec)%Z = true)
      by (apply Z.leb_le; unfold emax, prec; lia).
    rewrite Hle. split; [reflexivity|]. split; [reflexivity|]. lia.
Qed.

Lemma finish_exact (sx : bool) (p : positive) (ex : Z) :
  (Zdigits2 (Z.pos p) <= 53)%Z -> (-1074 <= ex <= 970)%Z ->
  finish sx (Z.pos p) ex = S754_finite sx p ex.
Proof.
  intros Hd He. unfold finish.
  rewrite shr_fexp_noshift.
  - cbn [shr_record_of_loc shr_m].
    assert (Hle : (ex <=? emax - prec)%Z = true)
      by (apply Z.leb_le; unfold emax, prec; lia).
    now rewrite Hle.
  - unfold fexp, emin, prec, emax. lia.
Qed.

Lemma half_ulp_relative (m1 e1 : Z) (r : R) :
  (2 ^ 52 <= m1)%Z -> F2R m1 e1 <= r ->
  two_pow e1 / 2 <= r * two_pow (-53).
Proof.
  intros Hm Hr. unfold F2R in Hr.
  assert (H52 : IZR (2 ^ 52) <= IZR m1) by now apply IZR_le.
  rewrite <- two_pow_IZR in H52 by lia.
  pose proof (two_pow_pos e1) as Hu.
  assert (Hs : two_pow 52 * two_pow (-53) = 1 / 2).
  { rewrite <- two_pow_add. change (52 + -53)%Z with (-1)%Z.
    unfold two_pow. simpl. lra. }
  pose proof (two_pow_pos (-53)) as Hv.
  assert (two_pow 52 * two_pow e1 <= r) by nra.
  assert (two_pow 52 * two_pow e1 * two_pow (-53) <= r * two_pow (-53))
    by (apply Rmult_le_compat_r; lra).
  nra.
Qed.

Lemma inbetween_lower (m e : Z) (l : location) (r : R) :
  inbetween m e l r -> F2R m e <= r.
Proof.
  pose proof (two_pow_pos e). unfold inbetween.
  destruct l as [|[| |]]; lra.
Qed.

Lemma binary_round_aux_spec (sx : bool) (mx ex : Z) (lx : location) (r : R) :
  (0 < mx)%Z -> inbetween mx ex lx r ->
  (lx = loc_Exact \/ 53 <= Zdigits2 mx)%Z ->
  (-1074 <= Zdigits2 mx + ex - 53)%Z -> (Zdigits2 mx + ex - 53 <= 969)%Z ->
  (ex <= 970)%Z ->
  exists m e,
    binary_round_aux prec emax sx mx ex lx = S754_finite sx m e
    /\ Rabs (F2R (Z.pos m) e - r) <= r * two_pow (-53)
    /\ (lx = loc_Exact -> (Zdigits2 mx <= 53)%Z ->
        F2R (Z.pos m) e = r /\ Z.pos m = mx /\ e = ex)
    /\ ((53 <= Zdigits2 mx)%Z ->
        (2 ^ 52 <= Z.pos m < 2 ^ 53)%Z
        /\ (Zdigits2 mx + ex - 53 <= e <= Zdigits2 mx + ex - 52)%Z).
Proof.
  intros Hm Hin Hcase Hlo Hhi Hex.
  set (d := Zdigits2 mx) in *.
  assert (Hr0 : 0 <= r).
  { apply Rle_trans with (F2R mx ex); [|now apply (inbetween_lower _ _ lx)].
    unfold F2R. pose proof (two_pow_pos ex).
    assert (0 <= IZR mx) by (apply IZR_le; lia). nra. }
  assert (Hv : 0 < two_pow (-53)) by apply two_pow_pos.
  assert (Hdig : (2 ^ (d - 1) <= mx < 2 ^ d)%Z).
  { destruct mx as [|p|p]; try lia. apply digits2_pos_bounds. }
  rewrite binary_round_aux_finish.
  destruct (Z.le_gt_cases d 53) as [Hd | Hd].
  - (* no shift *)
    rewrite shr_fexp_noshift by (fold d; rewrite fexp_normal; lia).
    rewrite shr_m_shr_record_of_loc, loc_of_shr_record_of_loc.
    assert (Hemin : (-1074 <= ex)%Z) by lia.
    destruct Hcase as [-> | H53].
    + (* exact *)
      cbn [round_nearest_even]. destruct mx as [|p|p]; try lia.
      exists p, ex. rewrite finish_exact by (fold d; lia).
      cbn [inbetween] in Hin. subst r.
      split; [reflexivity|]. split; [|split].
      * rewrite Rminus_diag, Rabs_R0. nra.
      * intros _ _. repeat split.
      * intros H53. fold d in H53. assert (d = 53%Z) as Hd53 by lia.
        rewrite Hd53 in Hdig. split; [exact Hdig | lia].
    + (* 53 digits, rounded *)
      assert (Hd53 : d = 53%Z) by lia.
      assert (Hmx : (2 ^ 52 <= mx < 2 ^ 53)%Z)
        by (rewrite Hd53 in Hdig; exact Hdig).
      destruct (round_nearest_even_spec mx ex lx r Hin) as (Hm2 & Herr & Hex2).
      destruct (finish_53 sx (round_nearest_even mx lx) ex)
        as (m & e & Hf & Hval & Hmb & Heb); [lia | lia |].
      exists m, e. split; [exact Hf|]. rewrite Hval. split; [|split].
      * eapply Rle_trans; [exact Herr|].
        apply (half_ulp_relative mx); [lia|].
        now apply (inbetween_lower _ _ lx).
      * intros Hl _. subst lx. cbn [round_nearest_even] in Hf, Hval |- *.
        unfold finish in Hf.
        rewrite shr_fexp_noshift in Hf by (fold d; rewrite fexp_normal; lia).
        cbn [shr_record_of_loc shr_m] in Hf.
        destruct mx as [|p|p]; try lia.
        assert (Hle : (ex <=? emax - prec)%Z = true)
          by (apply Z.leb_le; unfold emax, prec; lia).
        rewrite Hle in Hf. injection Hf as <- <-.
        split; [exact (eq_sym Hin) | split; reflexivity].
      * intros _. split; [exact Hmb | lia].
  - (* shift by d - 53 *)
    destruct (shr_fexp_shift mx ex lx r Hm Hin) as (mrs & Hs & Hm1 & Hin1).
    { fold d. rewrite fexp_normal by lia. lia. }
    fold d in Hs, Hm1, Hin1. rewrite fexp_normal in Hs, Hm1, Hin1 by lia.
    replace (d + ex - 53 - ex)%Z with (d - 53)%Z in Hs, Hm1, Hin1 by lia.
    rewrite Hs.
    set (m1 := shr_m mrs) in *. set (e1 := (ex + (d - 53))%Z) in *.
    assert (Hm1b : (2 ^ 52 <= m1 < 2 ^ 53)%Z).
    { rewrite Hm1.
      assert (Hp : (0 < 2 ^ (d - 53))%Z) by (apply Z.pow_pos_nonneg; lia).
      assert (E1 : (2 ^ (d - 1) = 2 ^ 52 * 2 ^ (d - 53))%Z)
        by (rewrite <- Z.pow_add_r by lia; f_equal; lia).
      assert (E2 : (2 ^ d = 2 ^ 53 * 2 ^ (d - 53))%Z)
        by (rewrite <- Z.pow_add_r by lia; f_equal; lia).
      split.
      - apply Z.div_le_lower_bound; lia.
      - apply Z.div_lt_upper_bound; lia. }
    destruct (round_nearest_even_spec m1 e1 _ r Hin1) as (Hm2 & Herr & _).
    destruct (finish_53 sx (round_nearest_even m1 (loc_of_shr_record mrs)) e1)
      as (m & e & Hf & Hval & Hmb & Heb); [lia | unfold e1; lia |].
    exists m, e. split; [exact Hf|]. rewrite Hval. split; [|split].
    + eapply Rle_trans; [exact Herr|].
      apply (half_ulp_relative m1); [lia|].
      now apply (inbetween_lower _ _ (loc_of_shr_record mrs)).
    + intros _ Hd'. lia.
    + intros _. split; [exact Hmb | unfold e1 in Heb; lia].
Qed.

Lemma pos_iter_xO (p d : positive) :
  Z.pos (Pos.iter xO p d) = (Z.pos p * 2 ^ Z.pos d)%Z.
Proof.
  induction d as [|d IH] using Pos.peano_ind.
  - cbn [Pos.iter]. rewrite Pos2Z.inj_xO, Z.pow_1_r. lia.
  - rewrite Pos.iter_succ, Pos2Z.inj_xO, IH, Pos2Z.inj_succ, Z.pow_succ_r by lia.
    lia.
Qed.

Lemma shl_align_spec (mx : positive) (ex ex' : Z) :
  (ex' <= ex)%Z ->
  exists mz,
    shl_align mx ex ex' = (mz, ex')
    /\ Z.pos mz = (Z.pos mx * 2 ^ (ex - ex'))%Z.
Proof.
  intros Hle. unfold shl_align.
  destruct (ex' - ex)%Z as [|d|d] eqn:E; try lia.
  - exists mx. assert (ex' = ex) as -> by lia.
    rewrite Z.sub_diag, Z.pow_0_r. split; [reflexivity | lia].
  - exists (Pos.iter xO mx d). split; [reflexivity|].
    rewrite pos_iter_xO. f_equal. f_equal. lia.
Qed.

Lemma F2R_shift (m e k : Z) :
  (0 <= k)%Z -> F2R (m * 2 ^ k) (e - k) = F2R m e.
Proof.
  intros Hk. unfold F2R. rewrite mult_IZR, <- two_pow_IZR by lia.
  rewrite Rmult_assoc, <- two_pow_add. f_equal. f_equal. lia.
Qed.

(** A positive integer below 2^53 converts exactly. *)
Lemma of_uint63_exact (z : Z) :
  (0 < z < 2 ^ 53)%Z ->
  exists m e,
    Prim2SF (of_uint63 (of_Z z)) = S754_finite false m e
    /\ F2R (Z.pos m) e = IZR z
    /\ (2 ^ 52 <= Z.pos m < 2 ^ 53)%Z /\ (-52 <= e <= 0)%Z.
Proof.
  intros Hz. rewrite of_uint63_spec, of_Z_spec.
  rewrite Z.mod_small by (change wB with (2 ^ 63)%Z; lia).
  destruct z as [|p|p]; try lia.
  cbn [binary_normalize]. unfold binary_round.
  pose proof (digits2_pos_bounds p) as Hdig.
  set (d := Z.pos (digits2_pos p)) in *.
  assert (Hd : (1 <= d <= 53)%Z).
  { split; [unfold d; lia|].
    destruct (Z.le_gt_cases d 53) as [H | H]; [exact H|].
    assert (2 ^ 53 <= 2 ^ (d - 1))%Z by (apply Z.pow_le_mono_r; lia). lia. }
  rewrite fexp_normal by lia.
  destruct (shl_align_spec p 0 (d + 0 - 53)) as (mz & Hs & Hmz); [lia|].
  rewrite Hs.
  replace (0 - (d + 0 - 53))%Z with (53 - d)%Z in Hmz by lia.
  assert (Hmzb : (2 ^ 52 <= Z.pos mz < 2 ^ 53)%Z).
  { rewrite Hmz.
    assert (E1 : (2 ^ 52 = 2 ^ (d - 1) * 2 ^ (53 - d))%Z)
      by (rewrite <- Z.pow_add_r by lia; f_equal; lia).
    assert (E2 : (2 ^ 53 = 2 ^ d * 2 ^ (53 - d))%Z)
      by (rewrite <- Z.pow_add_r by lia; f_equal; lia).
    assert (0 < 2 ^ (53 - d))%Z by (apply Z.pow_pos_nonneg; lia).
    rewrite E1, E2. split; [apply Z.mul_le_mono_nonneg_r | apply Z.mul_lt_mono_pos_r]; lia. }
  assert (Hdz : Zdigits2 (Z.pos mz) = 53%Z) by (apply Zdigits2_unique; lia).
  assert (Hin : inbetween (Z.pos mz) (d + 0 - 53) loc_Exact (IZR (Z.pos p))).
  { cbn [inbetween]. rewrite Hmz.
    replace (d + 0 - 53)%Z with (0 - (53 - d))%Z by lia.
    rewrite F2R_shift by lia. unfold F2R, two_pow. simpl. lra. }
  destruct (binary_round_aux_spec false (Z.pos mz) (d + 0 - 53) loc_Exact
              (IZR (Z.pos p))) as (m & e & Hf & _ & Hex & _);
    [lia | exact Hin | now left | rewrite Hdz; lia | rewrite Hdz; lia | lia |].
  destruct Hex as (Hv & Hm & He); [reflexivity | rewrite Hdz; lia |].
  exists m, e. split; [exact Hf|]. split; [exact Hv|].
  rewrite Hm, He. split; [exact Hmzb | lia].
Qed.

Lemma Zdigits2_range (m a b : Z) :
  (0 < m)%Z -> (2 ^ (a - 1) <= m < 2 ^ b)%Z -> (1 <= a)%Z ->
  (a <= Zdigits2 m <= b)%Z.
Proof.
  intros Hm [Hlo Hhi] Ha. destruct m as [|p|p]; try lia. cbn [Zdigits2].
  pose proof (digits2_pos_bounds p) as [Dlo Dhi].
  set (d := Z.pos (digits2_pos p)) in *.
  assert (Hd : (1 <= d)%Z) by (unfold d; lia).
  split.
  - destruct (Z.le_gt_cases a d) as [H | H]; [exact H|].
    assert (2 ^ d <= 2 ^ (a - 1))%Z by (apply Z.pow_le_mono_r; lia). lia.
  - destruct (Z.le_gt_cases d b) as [H | H]; [exact H|].
    assert (0 <= b)%Z.
    { destruct (Z.le_gt_cases 0 b) as [H0 | H0]; [exact H0|].
      rewrite Z.pow_neg_r in Hhi by lia. lia. }
    assert (2 ^ b <= 2 ^ (d - 1))%Z by (apply Z.pow_le_mono_r; lia). lia.
Qed.

Lemma new_location_spec (q m2 rem e : Z) :
  (0 < m2)%Z -> (0 <= rem < m2)%Z ->
  inbetween q e (new_location m2 rem)
    ((IZR q + IZR rem / IZR m2) * two_pow e).
Proof.
  intros Hm2 Hrem.
  pose proof (two_pow_pos e) as Hu.
  assert (HM : 0 < IZR m2) by (apply IZR_lt; lia).
  set (t := IZR rem / IZR m2).
  assert (Ht : t * IZR m2 = IZR rem) by (unfold t; field; lra).
  assert (Ht0 : 0 <= t).
  { assert (0 <= IZR rem) by (apply IZR_le; lia). nra. }
  assert (Hlt : forall a b : Z, (a < b)%Z -> IZR a < IZR b) by apply IZR_lt.
  unfold new_location.
  destruct (Z.even m2) eqn:Hev.
  - unfold new_location_even.
    destruct (rem =? 0)%Z eqn:E0.
    + apply Z.eqb_eq in E0. cbn [inbetween]. unfold F2R.
      assert (t = 0) by (rewrite E0 in Ht; nra). nra.
    + apply Z.eqb_neq in E0.
      assert (0 < t).
      { assert (0 < IZR rem) by (apply IZR_lt; lia). nra. }
      destruct (2 * rem ?= m2)%Z eqn:Ec; cbn [inbetween]; unfold F2R.
      * apply Z.compare_eq in Ec.
        assert (2 * IZR rem = IZR m2) by (rewrite <- Ec, mult_IZR; lra).
        assert (t = 1 / 2) by nra. nra.
      * rewrite Z.compare_lt_iff in Ec. apply Hlt in Ec.
        rewrite mult_IZR in Ec.
        assert (t < 1 / 2) by nra. nra.
      * rewrite Z.compare_gt_iff in Ec. apply Hlt in Ec.
        rewrite mult_IZR in Ec.
        assert (Hr1 : IZR rem < IZR m2) by (apply IZR_lt; lia).
        assert (1 / 2 < t < 1) by nra. nra.
  - unfold new_location_odd.
    assert (Hodd : exists k, m2 = (2 * k + 1)%Z).
    { apply Z.odd_spec. rewrite <- Z.negb_even, Hev. reflexivity. }
    destruct Hodd as [k Hk].
    destruct (rem =? 0)%Z eqn:E0.
    + apply Z.eqb_eq in E0. cbn [inbetween]. unfold F2R.
      assert (t = 0) by (rewrite E0 in Ht; nra). nra.
    + apply Z.eqb_neq in E0.
      assert (0 < t).
      { assert (0 < IZR rem) by (apply IZR_lt; lia). nra. }
      destruct (2 * rem + 1 ?= m2)%Z eqn:Ec.
      * apply Z.compare_eq in Ec.
        assert (Hc : (2 * rem < m2)%Z) by lia. apply Hlt in Hc.
        rewrite mult_IZR in Hc. cbn [inbetween]. unfold F2R.
        assert (t < 1 / 2) by nra. nra.
      * rewrite Z.compare_lt_iff in Ec.
        assert (Hc : (2 * rem < m2)%Z) by lia. apply Hlt in Hc.
        rewrite mult_IZR in Hc. cbn [inbetween]. unfold F2R.
        assert (t < 1 / 2) by nra. nra.
      * rewrite Z.compare_gt_iff in Ec.
        assert (Hc : (m2 < 2 * rem)%Z) by lia. apply Hlt in Hc.
        rewrite mult_IZR in Hc. cbn [inbetween]. unfold F2R.
        assert (Hr1 : IZR rem < IZR m2) by (apply IZR_lt; lia).
        assert (1 / 2 < t < 1) by nra. nra.
Qed.

Lemma two_pow_sub (a b : Z) : two_pow (a - b) = two_pow a / two_pow b.
Proof.
  pose proof (two_pow_pos b).
  replace a with ((a - b) + b)%Z at 2 by lia.
  rewrite two_pow_add. field. lra.
Qed.

Lemma SFdiv_core_53 (m1 m2 : positive) (e1 e2 : Z) :
  (2 ^ 52 <= Z.pos m1 < 2 ^ 53)%Z -> (2 ^ 52 <= Z.pos m2 < 2 ^ 53)%Z ->
  (-500 <= e1 - e2 <= 500)%Z ->
  SFdiv_core_binary prec emax (Z.pos m1) e1 (Z.pos m2) e2
  = ((Z.pos m1 * 2 ^ 53 / Z.pos m2)%Z, (e1 - e2 - 53)%Z,
     new_location (Z.pos m2) ((Z.pos m1 * 2 ^ 53) mod Z.pos m2)).
Proof.
  intros H1 H2 He. unfold SFdiv_core_binary.
  rewrite (Zdigits2_unique (Z.pos m1) 53), (Zdigits2_unique (Z.pos m2) 53)
    by lia.
  rewrite fexp_normal by lia.
  replace (Z.min (53 + e1 - (53 + e2) - 53) (e1 - e2))%Z
    with (e1 - e2 - 53)%Z by lia.
  replace (e1 - e2 - (e1 - e2 - 53))%Z with 53%Z by lia.
  cbv iota.
  rewrite Z.shiftl_mul_pow2 by lia.
  unfold Z.div, Z.modulo.
  destruct (Z.div_eucl (Z.pos m1 * 2 ^ 53) (Z.pos m2)) as [q r].
  reflexivity.
Qed.

Lemma SFdiv_53 (m1 m2 : positive) (e1 e2 : Z) :
  (2 ^ 52 <= Z.pos m1 < 2 ^ 53)%Z -> (2 ^ 52 <= Z.pos m2 < 2 ^ 53)%Z ->
  (-500 <= e1 - e2 <= 500)%Z ->
  let r := F2R (Z.pos m1) e1 / F2R (Z.pos m2) e2 in
  exists m e,
    SFdiv prec emax (S754_finite false m1 e1) (S754_finite false m2 e2)
    = S754_finite false m e
    /\ Rabs (F2R (Z.pos m) e - r) <= r * two_pow (-53)
    /\ (2 ^ 52 <= Z.pos m < 2 ^ 53)%Z
    /\ (e1 - e2 - 53 <= e <= e1 - e2 - 51)%Z.
Proof.
  intros H1 H2 He r. cbn [SFdiv xorb].
  rewrite SFdiv_core_53 by assumption.
  set (q := (Z.pos m1 * 2 ^ 53 / Z.pos m2)%Z).
  set (rem := ((Z.pos m1 * 2 ^ 53) mod Z.pos m2)%Z).
  set (e' := (e1 - e2 - 53)%Z).
  assert (Hdm : (Z.pos m1 * 2 ^ 53 = Z.pos m2 * q + rem)%Z)
    by (apply Z.div_mod; lia).
  assert (Hrem : (0 <= rem < Z.pos m2)%Z) by (apply Z.mod_pos_bound; lia).
  assert (Hq : (2 ^ 52 <= q < 2 ^ 54)%Z).
  { split.
    - apply Z.div_le_lower_bound; [lia|].
      change (2 ^ 53)%Z with (2 * 2 ^ 52)%Z. nia.
    - apply Z.div_lt_upper_bound; [lia|].
      change (2 ^ 54)%Z with (2 * 2 ^ 53)%Z. nia. }
  assert (Hdq : (53 <= Zdigits2 q <= 54)%Z)
    by (apply Zdigits2_range; [lia | exact Hq | lia]).
  assert (Hr : r = (IZR q + IZR rem / IZR (Z.pos m2)) * two_pow e').
  { unfold r, F2R, e'.
    assert (HM : 0 < IZR (Z.pos m2)) by (apply IZR_lt; lia).
    pose proof (two_pow_pos e1). pose proof (two_pow_pos e2).
    replace (e1 - e2 - 53)%Z with (e1 - (e2 + 53))%Z by lia.
    rewrite two_pow_sub, two_pow_add.
    pose proof (two_pow_pos 53) as H53.
    assert (Hz : IZR (Z.pos m1) * two_pow 53
                 = IZR (Z.pos m2) * IZR q + IZR rem).
    { rewrite two_pow_IZR by lia.
      rewrite <- mult_IZR, Hdm, plus_IZR, mult_IZR. reflexivity. }
    replace (IZR q + IZR rem / IZR (Z.pos m2))
      with (IZR (Z.pos m1) * two_pow 53 / IZR (Z.pos m2))
      by (rewrite Hz; field; lra).
    field. repeat split; lra. }
  destruct (binary_round_aux_spec false q e' (new_location (Z.pos m2) rem) r)
    as (m & e & Hf & Herr & _ & Hnorm).
  - lia.
  - rewrite Hr. apply new_location_spec; lia.
  - right. lia.
  - unfold e'. lia.
  - unfold e'. lia.
  - unfold e'. lia.
  - destruct Hnorm as [Hm Hee]; [lia|].
    exists m, e. split; [exact Hf|]. split; [exact Herr|].
    split; [exact Hm | unfold e' in Hee; lia].
Qed.

Lemma SFmul_53 (m1 m2 : positive) (e1 e2 : Z) :
  (2 ^ 52 <= Z.pos m1 < 2 ^ 53)%Z -> (2 ^ 52 <= Z.pos m2 < 2 ^ 53)%Z ->
  (-500 <= e1 + e2 <= 500)%Z ->
  let r := F2R (Z.pos m1) e1 * F2R (Z.pos m2) e2 in
  exists m e,
    SFmul prec emax (S754_finite false m1 e1) (S754_finite false m2 e2)
    = S754_finite false m e
    /\ Rabs (F2R (Z.pos m) e - r) <= r * two_pow (-53).
Proof.
  intros H1 H2 He r. cbn [SFmul xorb].
  assert (Hp : (2 ^ 104 <= Z.pos (m1 * m2) < 2 ^ 106)%Z).
  { rewrite Pos2Z.inj_mul.
    change (2 ^ 104)%Z with (2 ^ 52 * 2 ^ 52)%Z.
    change (2 ^ 106)%Z with (2 ^ 53 * 2 ^ 53)%Z. nia. }
  assert (Hd : (105 <= Zdigits2 (Z.pos (m1 * m2)) <= 106)%Z)
    by (apply Zdigits2_range; [lia | exact Hp | lia]).
  destruct (binary_round_aux_spec false (Z.pos (m1 * m2)) (e1 + e2) loc_Exact r)
    as (m & e & Hf & Herr & _).
  - lia.
  - cbn [inbetween]. unfold r, F2R.
    rewrite Pos2Z.inj_mul, mult_IZR, two_pow_add. ring.
  - now left.
  - lia.
  - lia.
  - lia.
  - exists m, e. split; [exact Hf | exact Herr].
Qed.

Lemma dyadic_finite (x : float) (m : positive) (e : Z) :
  Prim2SF x = S754_finite false m e ->
  exists num den,
    dyadic x = Some (num, den)
    /\ (0 < den)%Z /\ IZR num = F2R (Z.pos m) e * IZR den.
Proof.
  intros Hx. unfold dyadic. rewrite Hx.
  destruct (0 <=? e)%Z eqn:He.
  - apply Z.leb_le in He. exists (Z.pos m * 2 ^ e)%Z, 1%Z.
    split; [reflexivity|]. split; [lia|].
    unfold F2R. rewrite mult_IZR, two_pow_IZR by lia. lra.
  - apply Z.leb_gt in He. exists (Z.pos m), (2 ^ (- e))%Z.
    split; [reflexivity|]. split; [apply Z.pow_pos_nonneg; lia|].
    unfold F2R. rewrite <- two_pow_IZR by lia.
    rewrite Rmult_assoc, <- two_pow_add.
    replace (e + - e)%Z with 0%Z by lia. unfold two_pow. simpl. lra.
Qed.

Lemma hundred_SF :
  Prim2SF 100%float = S754_finite false 7036874417766400 (-46).
Proof. reflexivity. Qed.

Lemma Rabs_le_bounds (a b : R) : Rabs a <= b -> - b <= a <= b.
Proof. unfold Rabs. destruct (Rcase_abs a); lra. Qed.

Lemma ieee_accurate_always (score len : nat) :
  (0 < len)%nat -> (score <= len)%nat -> (Z.of_nat len < 2 ^ 40)%Z ->
  ieee_accurate score len = true.
Proof.
  intros Hlen Hle Hbig.
  destruct (of_uint63_exact (Z.of_nat len)) as (mn & en & Hn & Hnv & Hnm & Hne);
    [lia|].
  destruct score as [|s'].
  - (* no correct answer *)
    unfold ieee_accurate, dyadic, percentageDouble.
    rewrite FloatAxioms.mul_spec, FloatAxioms.div_spec. fold (float_of_nat len).
    unfold float_of_nat at 2. rewrite Hn.
    change (Prim2SF (float_of_nat 0)) with (S754_zero false).
    reflexivity.
  - set (score := S s') in *.
    destruct (of_uint63_exact (Z.of_nat score))
      as (ms & es & Hs & Hsv & Hsm & Hse); [unfold score; lia|].
    destruct (SFdiv_53 ms mn es en Hsm Hnm) as (mq & eq & Hq & Hqerr & Hqm & Hqe);
      [lia|].
    destruct (SFmul_53 mq 7036874417766400 eq (-46) Hqm) as (mx & ex & Hx & Hxerr);
      [lia | lia |].
    assert (HX : Prim2SF (percentageDouble score len) = S754_finite false mx ex).
    { unfold percentageDouble, float_of_nat.
      rewrite FloatAxioms.mul_spec, FloatAxioms.div_spec, Hs, Hn, hundred_SF.
      unfold SF64mul, SF64div. rewrite Hq. exact Hx. }
    destruct (dyadic_finite _ _ _ HX) as (num & den & Hd & Hden & Hnum).
    unfold ieee_accurate. rewrite Hd.
    apply andb_true_intro. split; [now apply Z.ltb_lt|].
    apply Z.leb_le, le_IZR.
    rewrite !mult_IZR, abs_IZR, minus_IZR, !mult_IZR, Hnum.
    rewrite <- two_pow_IZR by lia.
    (* the reals involved *)
    set (X := F2R (Z.pos mx) ex) in *.
    set (Q := F2R (Z.pos mq) eq) in *.
    set (Sc := IZR (Z.of_nat score)) in *.
    set (N := IZR (Z.of_nat len)) in *.
    set (D := IZR den).
    assert (HD : 0 < D) by (apply IZR_lt; lia).
    assert (HN : 0 < N) by (apply IZR_lt; lia).
    assert (HS : 0 < Sc) by (apply IZR_lt; unfold score; lia).
    assert (HC : F2R 7036874417766400 (-46) = 100).
    { unfold F2R, two_pow. simpl. lra. }
    rewrite HC, Hsv, Hnv in *. fold Sc N in Hqerr.
    assert (He : two_pow (-53) * two_pow 51 = 1 / 4).
    { rewrite <- two_pow_add. unfold two_pow. simpl. lra. }
    assert (He' : 0 < two_pow (-53) < 1 / 4).
    { pose proof (two_pow_pos (-53)). split; [lra|].
      assert (1 < two_pow 51) by (rewrite two_pow_IZR by lia; apply IZR_lt; lia).
      nra. }
    set (eps := two_pow (-53)) in *.
    set (T := two_pow 51) in *.
    assert (HT : 0 < T) by apply two_pow_pos.
    set (q0 := Sc / N) in *.
    assert (Hq0 : 0 < q0) by (unfold q0; apply Rdiv_lt_0_compat; lra).
    assert (Hq0N : q0 * N = Sc) by (unfold q0; field; lra).
    apply Rabs_le_bounds in Hqerr. apply Rabs_le_bounds in Hxerr.
    assert (HQ : 0 < Q) by nra.
    assert (Hmain : Rabs (X * N - 100 * Sc) <= 100 * Sc * (4 * eps)).
    { apply Rabs_le.
      assert (Hx1 : - (100 * q0 * (4 * eps)) <= X - 100 * q0 <= 100 * q0 * (4 * eps)).
      { assert (Q * eps <= q0 * (1 + eps) * eps) by nra.
        assert (q0 * eps * eps <= q0 * eps) by nra.
        split; nra. }
      rewrite <- Hq0N.
      replace (X * N - 100 * (q0 * N)) with ((X - 100 * q0) * N) by ring.
      replace (100 * (q0 * N) * (4 * eps)) with (100 * q0 * (4 * eps) * N) by ring.
      split; nra. }
    replace (X * D * N - 100 * Sc * D) with ((X * N - 100 * Sc) * D) by ring.
    rewrite Rabs_mult, (Rabs_right D) by lra.
    assert (Rabs (X * N - 100 * Sc) * T <= 100 * Sc).
    { apply Rmult_le_compat_r with (r := T) in Hmain; [|lra].
      replace (100 * Sc * (4 * eps) * T) with (100 * Sc * (4 * (eps * T))) in Hmain
        by ring.
      rewrite He in Hmain. lra. }
    nra.
Qed.

End Binary64.

(** ** Percentage and colour *)

Lemma getScoreColor_tier (n : Z) :
  (0 <= n <= 1000)%Z ->
  getScoreColor (numberOfTenths n) = tierClass (tierOfTenths n).
Proof.
  intros Hn.
  assert (Ht : tierTable = true) by (vm_compute; reflexivity).
  unfold tierTable in Ht. rewrite forallb_forall in Ht.
  apply String.eqb_eq, Ht, in_map_iff.
  exists (Z.to_nat n). split; [lia|]. apply in_seq. lia.
Qed.

(** Rounding to tenths, the larger on a tie, of a fraction close to
    [100 * s / n] gives a multiple of a tenth nearest to [100 * s / n]. *)
Lemma nearest_tenth (num den n s : Z) :
  (0 < den)%Z -> (0 < n < 2 ^ 40)%Z -> (0 <= s <= n)%Z ->
  (Z.abs (num * n - 100 * s * den) * 2 ^ 51 <= 100 * s * den)%Z ->
  (2 * Z.abs ((20 * num + den) / (2 * den) * n - 1000 * s) <= n)%Z.
Proof.
  intros Hden Hn Hs Hacc.
  set (N := ((20 * num + den) / (2 * den))%Z).
  assert (Hlo : (2 * den * N <= 20 * num + den)%Z)
    by (apply Z.mul_div_le; lia).
  assert (Hhi : (20 * num + den < 2 * den * N + 2 * den)%Z).
  { pose proof (Z.mul_succ_div_gt (20 * num + den) (2 * den)) as H.
    fold N in H. lia. }
  set (E := (num * n - 100 * s * den)%Z) in *.
  assert (HE : (20 * Z.abs E < den)%Z).
  { assert (H1 : (100 * s * den <= 100 * n * den)%Z) by nia.
    assert (H2 : (2000 * n * den < 2 ^ 51 * den)%Z).
    { apply Z.mul_lt_mono_pos_r; [lia|].
      change (2 ^ 51)%Z with (2048 * 2 ^ 40)%Z. lia. }
    assert (H3 : (20 * Z.abs E * 2 ^ 51 < den * 2 ^ 51)%Z) by lia.
    apply Z.mul_lt_mono_pos_r in H3; lia. }
  set (K := (N * n - 1000 * s)%Z).
  assert (Hup : (2 * den * K <= 20 * E + den * n)%Z).
  { assert ((2 * den * N) * n <= (20 * num + den) * n)%Z
      by (apply Z.mul_le_mono_nonneg_r; lia).
    unfold K, E. lia. }
  assert (Hdn : (20 * E + den * n < 2 * den * K + 2 * den * n)%Z).
  { assert ((20 * num + den) * n < (2 * den * N + 2 * den) * n)%Z
      by (apply Z.mul_lt_mono_pos_r; lia).
    unfold K, E. lia. }
  assert (H1 : (den * (2 * K) < den * (n + 1))%Z) by lia.
  assert (H2 : (den * (- (n + 1)) < den * (2 * K))%Z) by lia.
  apply Z.mul_lt_mono_pos_l in H1; [|lia].
  apply Z.mul_lt_mono_pos_l in H2; [|lia].
  lia.
Qed.

Lemma tierClass_inj (a b : Tier) : tierClass a = tierClass b -> a = b.
Proof. destruct a, b; intros H; try reflexivity; discriminate H. Qed.

(** C5: after [submitQuiz] on a session of [len] questions, [score] is the
    number of questions whose selected answer equals the expected one; the
    percentage printed is a multiple of one tenth nearest to
    [100 * score / len]; and the colour is the high one iff that percentage
    is at least 80, the mid one iff it is at least 60 and below 80, the low
    one otherwise.  The session is not empty, and like every array it has
    fewer than 2^32 elements. *)
Theorem scorer_percentage_tier (s : State) :
  let len := List.length (questions s) in
  let correct := List.length
                   (filter (fun q => JS.strict_eq (selectedAnswer q) (answer q))
                      (questions s)) in
  let s1 := run (submitQuiz s) s in
  0 < len -> (Z.of_nat len < 2 ^ 32)%Z ->
  score s1 = correct
  /\ exists n : Z,
       percentage s1 = Some n
       /\ (2 * Z.abs (n * Z.of_nat len - 1000 * Z.of_nat correct)
           <= Z.of_nat len)%Z
       /\ scoreColor s1 = tierClass (tierOfTenths n)
       /\ (scoreColor s1 = tierClass High <-> (800 <= n)%Z)
       /\ (scoreColor s1 = tierClass Mid <-> (600 <= n < 800)%Z)
       /\ (scoreColor s1 = tierClass Low <-> (n < 600)%Z).
Proof.
  intros len correct s1 Hlen Hbig.
  assert (Hscore : score s1 = correct) by (destruct s; reflexivity).
  assert (Hqs : questions s1 = questions s) by (destruct s; reflexivity).
  split; [exact Hscore|].
  assert (Hle : correct <= len) by apply filter_length_le.
  assert (Hacc : ieee_accurate correct len = true)
    by (apply ieee_accurate_always; [exact Hlen | exact Hle | lia]).
  unfold ieee_accurate in Hacc.
  destruct (dyadic (percentageDouble correct len)) as [[num den]|] eqn:Hd;
    [|discriminate].
  apply andb_prop in Hacc as [Hden Hacc].
  apply Z.ltb_lt in Hden. apply Z.leb_le in Hacc.
  set (n := ((20 * num + den) / (2 * den))%Z).
  assert (Hp : percentage s1 = Some n).
  { unfold percentage, toFixed1. rewrite Hscore, Hqs. fold len.
    now rewrite Hd. }
  assert (Hnear : (2 * Z.abs (n * Z.of_nat len - 1000 * Z.of_nat correct)
                   <= Z.of_nat len)%Z)
    by (apply nearest_tenth; [exact Hden | lia | lia | exact Hacc]).
  assert (Hrange : (0 <= n <= 1000)%Z) by nia.
  assert (Hcol : scoreColor s1 = tierClass (tierOfTenths n))
    by (unfold scoreColor; rewrite Hp; now apply getScoreColor_tier).
  exists n.
  split; [exact Hp|]. split; [exact Hnear|]. split; [exact Hcol|].
  rewrite Hcol. unfold tierOfTenths.
  destruct (800 <=? n)%Z eqn:E1;
    [apply Z.leb_le in E1 | apply Z.leb_gt in E1];
    destruct (600 <=? n)%Z eqn:E2;
    [apply Z.leb_le in E2 | apply Z.leb_gt in E2
    |apply Z.leb_le in E2 | apply Z.leb_gt in E2];
    (split; [|split]); split; intros H;
    try (apply tierClass_inj in H; discriminate H);
    try reflexivity; lia.
Qed.

(** ** Initialisation *)

Lemma parseInt_two_digits (a b : nat) :
  a < 10 -> b < 10 ->
  JS.parseInt (String (digitChar a) (String (digitChar b) EmptyString))
  = Some (Z.of_nat (10 * a + b)).
Proof.
  intros Ha Hb.
  do 10 (destruct a as [|a];
         [do 10 (destruct b as [|b]; [reflexivity|]); lia|]).
  lia.
Qed.

Lemma initialTimeRemaining_hhmmss (h1 h2 m1 m2 s1 s2 : nat) :
  h1 < 10 -> h2 < 10 -> m1 < 10 -> m2 < 10 -> s1 < 10 -> s2 < 10 ->
  let total := (Z.of_nat (10 * h1 + h2) * 3600
                + Z.of_nat (10 * m1 + m2) * 60
                + Z.of_nat (10 * s1 + s2))%Z in
  initialTimeRemaining (Some (hhmmss h1 h2 m1 m2 s1 s2))
  = if (0 <? total)%Z then total else 1800%Z.
Proof.
  intros H1 H2 H3 H4 H5 H6 total.
  unfold initialTimeRemaining, timeSeconds.
  change (JS.truthy (hhmmss h1 h2 m1 m2 s1 s2)) with true. cbv iota.
  change (JS.substring 0 2 (hhmmss h1 h2 m1 m2 s1 s2))
    with (String (digitChar h1) (String (digitChar h2) EmptyString)).
  change (JS.substring 2 4 (hhmmss h1 h2 m1 m2 s1 s2))
    with (String (digitChar m1) (String (digitChar m2) EmptyString)).
  change (JS.substring 4 6 (hhmmss h1 h2 m1 m2 s1 s2))
    with (String (digitChar s1) (String (digitChar s2) EmptyString)).
  rewrite !parseInt_two_digits by assumption.
  cbn [JS.mul JS.add JS.gt]. fold total.
  destruct (0 <? total)%Z; reflexivity.
Qed.

Lemma allQuestions_no_weeks (data : Bank.QuizContent) :
  allQuestions [] data = [].
Proof.
  unfold allQuestions. induction (Bank.weeks data) as [|w ws IH];
    [reflexivity | exact IH].
Qed.

Lemma slice0_length {A : Type} (l : list A) (n : Z) :
  (0 <= n)%Z ->
  Z.of_nat (List.length (JS.slice0 l (Some n)))
  = Z.min n (Z.of_nat (List.length l)).
Proof.
  intros Hn. unfold JS.slice0.
  assert (H : (n <? 0)%Z = false) by (apply Z.ltb_ge; lia).
  rewrite H, length_firstn. lia.
Qed.

(** ** The shuffle *)

Lemma pow2_mod3 (k : nat) : exists q, 2 ^ k = 3 * q + 1 \/ 2 ^ k = 3 * q + 2.
Proof.
  induction k as [|k [q [H | H]]].
  - exists 0. now left.
  - exists (2 * q). right. rewrite Nat.pow_succ_r'. lia.
  - exists (2 * q + 1). left. rewrite Nat.pow_succ_r'. lia.
Qed.

Lemma fact_multiple_of_3 (n : nat) : 3 <= n -> exists m, fact n = 3 * m.
Proof.
  induction n as [|n IH]; intros Hn; [lia|].
  destruct (Nat.eq_dec n 2) as [-> | Hne].
  - exists 2. reflexivity.
  - destruct IH as [m Hm]; [lia|].
    exists (S n * m). change (fact (S n)) with (S n * fact n). rewrite Hm. lia.
Qed.

Lemma sources_length (k : nat) : List.length (sources k) = 2 ^ k.
Proof.
  induction k as [|k IH]; [reflexivity|].
  cbn [sources]. rewrite length_app, !length_map, IH, Nat.pow_succ_r'. lia.
Qed.

Lemma list_sum_cons_eq (a : nat) (l : list nat) :
  list_sum (a :: l) = a + list_sum l.
Proof. reflexivity. Qed.

Lemma indicator_sum {A : Type} (dec : forall x y : A, {x = y} + {x <> y})
    (x : A) (vals : list A) :
  list_sum (map (fun v => if dec x v then 1 else 0) vals)
  = count_occ dec vals x.
Proof.
  induction vals as [|v vals IH]; [reflexivity|].
  cbn [map count_occ]. rewrite list_sum_cons_eq, IH.
  destruct (dec x v) as [E | E], (dec v x) as [E' | E'];
    congruence || reflexivity.
Qed.

(** Counting a list value by value: when every element is one of the
    distinct [vals], the counts add up to the length. *)
Lemma count_occ_partition {A : Type}
    (dec : forall x y : A, {x = y} + {x <> y}) (vals l : list A) :
  NoDup vals -> (forall x, In x l -> In x vals) ->
  list_sum (map (count_occ dec l) vals) = List.length l.
Proof.
  intros Hnd. induction l as [|x l IH]; intros Hin.
  - clear Hnd Hin. induction vals as [|v vals IHv]; [reflexivity|].
    cbn [map]. rewrite list_sum_cons_eq, IHv. reflexivity.
  - assert (Hsplit : forall vs,
               list_sum (map (count_occ dec (x :: l)) vs)
               = list_sum (map (fun v => if dec x v then 1 else 0) vs)
                 + list_sum (map (count_occ dec l) vs)).
    { induction vs as [|v vs IHv]; [reflexivity|].
      cbn [map]. rewrite !list_sum_cons_eq, IHv. cbn [count_occ].
      destruct (dec x v); lia. }
    rewrite Hsplit, indicator_sum, IH by (intros y Hy; apply Hin; now right).
    assert (Hone : count_occ dec vals x = 1)
      by (apply NoDup_count_occ'; [exact Hnd | apply Hin; now left]).
    rewrite Hone. reflexivity.
Qed.

Lemma NoDup_three {A : Type} (a b c : A) :
  NoDup [a; b; c] -> a <> b /\ a <> c /\ b <> c.
Proof.
  intros H. inversion H as [|? ? H1 H2]; subst.
  inversion H2 as [|? ? H3 _]; subst. simpl in *. intuition congruence.
Qed.

Lemma sixOrderings_NoDup (a b c : QuizQuestion) :
  NoDup [a; b; c] -> NoDup (sixOrderings a b c).
Proof.
  intros H. apply NoDup_three in H as (Hab & Hac & Hbc).
  unfold sixOrderings. repeat constructor; simpl; intuition congruence.
Qed.

Lemma permutation_of_three (a b c : QuizQuestion) (p : list QuizQuestion) :
  NoDup [a; b; c] -> Permutation p [a; b; c] -> In p (sixOrderings a b c).
Proof.
  intros Hnd Hp.
  pose proof (Permutation_length Hp) as Hlen.
  assert (Ha : In a p) by (apply (Permutation_in _ (Permutation_sym Hp)); simpl; auto).
  assert (Hb : In b p) by (apply (Permutation_in _ (Permutation_sym Hp)); simpl; auto).
  assert (Hc : In c p) by (apply (Permutation_in _ (Permutation_sym Hp)); simpl; auto).
  apply NoDup_three in Hnd as (Hab & Hac & Hbc).
  destruct p as [|x [|y [|z [|w p]]]]; try discriminate Hlen.
  simpl in Ha, Hb, Hc.
  destruct Ha as [Ha | [Ha | [Ha | []]]], Hb as [Hb | [Hb | [Hb | []]]],
      Hc as [Hc | [Hc | [Hc | []]]]; subst;
    try congruence; simpl; tauto.
Qed.

Section EngineProperties.

Variable sort : list bool -> list QuizQuestion -> list QuizQuestion.
Variable Number : string -> JS.number.

(** The engine's sort returns the elements it was given. *)
Hypothesis sort_permutes :
  forall rnd l, Permutation (sort rnd l) l.

Lemma fetch_sets_time (loc : Location) (fetch : string -> Fetched)
    (rnd : list bool) (code : string) (s : State) :
  courseCodeOf (pathname loc) = inr code ->
  timeRemaining (run (fetchQuizContent sort Number loc fetch rnd) s)
  = initialTimeRemaining (timeParam loc).
Proof.
  intros Hc. unfold fetchQuizContent, fetchBody. rewrite Hc.
  destruct (fetch code) as [m | [|] st [m | data]]; try (destruct s; reflexivity).
  destruct (List.length _ =? 0)%nat; destruct s; reflexivity.
Qed.

(** C6: once the course code is read from the path, [timeRemaining] is set
    to [H * 3600 + M * 60 + S] for a parameter of six digits [HHMMSS] when
    that sum is positive, and to 1800 when the sum is zero or the parameter
    is absent. *)
Theorem initial_time_budget (loc : Location) (fetch : string -> Fetched)
    (rnd : list bool) (code : string) (s : State)
    (h1 h2 m1 m2 s1 s2 : nat) :
  courseCodeOf (pathname loc) = inr code ->
  h1 < 10 -> h2 < 10 -> m1 < 10 -> m2 < 10 -> s1 < 10 -> s2 < 10 ->
  let total := (Z.of_nat (10 * h1 + h2) * 3600
                + Z.of_nat (10 * m1 + m2) * 60
                + Z.of_nat (10 * s1 + s2))%Z in
  let s' := run (fetchQuizContent sort Number loc fetch rnd) s in
  (timeParam loc = Some (hhmmss h1 h2 m1 m2 s1 s2) ->
     ((0 < total)%Z -> timeRemaining s' = total)
     /\ (total = 0%Z -> timeRemaining s' = 1800%Z))
  /\ (timeParam loc = None -> timeRemaining s' = 1800%Z).
Proof.
  intros Hc H1 H2 H3 H4 H5 H6 total s'.
  unfold s'. rewrite (fetch_sets_time _ _ _ _ _ Hc).
  split.
  - intros ->. rewrite initialTimeRemaining_hhmmss by assumption. fold total.
    split; intros Ht.
    + apply Z.ltb_lt in Ht. now rewrite Ht.
    + now rewrite Ht.
  - intros ->. reflexivity.
Qed.

(** C9: with no [weeks] parameter the requested week list is empty, no
    question of any bank is a candidate, and initialisation ends with the
    error for an empty selection, the questions left as they were. *)
Theorem absent_weeks_empty_selection (loc : Location)
    (fetch : string -> Fetched) (rnd : list bool) (code statusText : string)
    (data : Bank.QuizContent) (s : State) :
  weeksParam loc = None ->
  courseCodeOf (pathname loc) = inr code ->
  fetch code = Responds true statusText (Json data) ->
  weeks Number (weeksParam loc) = []
  /\ allQuestions (weeks Number (weeksParam loc)) data = []
  /\ fetchBody sort Number loc fetch rnd
     = ([SetTimeRemaining (initialTimeRemaining (timeParam loc))],
        Some NoQuestionsAvailable)
  /\ fetchError (run (fetchQuizContent sort Number loc fetch rnd) s)
     = Some "No questions available for the selected weeks."
  /\ questions (run (fetchQuizContent sort Number loc fetch rnd) s) = questions s.
Proof.
  intros Hw Hc Hf.
  assert (Hweeks : weeks Number (weeksParam loc) = []) by now rewrite Hw.
  assert (Hall : allQuestions (weeks Number (weeksParam loc)) data = [])
    by (rewrite Hweeks; apply allQuestions_no_weeks).
  assert (Hbody : fetchBody sort Number loc fetch rnd
                  = ([SetTimeRemaining (initialTimeRemaining (timeParam loc))],
                     Some NoQuestionsAvailable))
    by (unfold fetchBody; now rewrite Hc, Hf, Hall).
  repeat split; try assumption;
    unfold fetchQuizContent; rewrite Hbody; destruct s; reflexivity.
Qed.

(** C2, as the code has it: for a bank that was fetched and a count [n >= 0],
    no candidate means the error for an empty selection and no session;
    otherwise the session holds the first [min n candidateCount] questions
    of a permutation of the candidates, without an error, and it is empty
    exactly when [n] is 0. *)
Theorem session_question_count (loc : Location) (fetch : string -> Fetched)
    (rnd : list bool) (code statusText : string) (data : Bank.QuizContent)
    (n : Z) :
  courseCodeOf (pathname loc) = inr code ->
  fetch code = Responds true statusText (Json data) ->
  numQuestions (numQuestionsParam loc) = Some n -> (0 <= n)%Z ->
  let candidates := allQuestions (weeks Number (weeksParam loc)) data in
  let s' := run (fetchQuizContent sort Number loc fetch rnd) initialState in
  (candidates = [] ->
     fetchError s' = Some "No questions available for the selected weeks."
     /\ questions s' = [])
  /\ (candidates <> [] ->
     fetchError s' = None
     /\ Z.of_nat (List.length (questions s'))
        = Z.min n (Z.of_nat (List.length candidates))
     /\ (List.length (questions s') = 0 <-> n = 0%Z)
     /\ exists shuffled,
          Permutation shuffled candidates
          /\ questions s' = firstn (Z.to_nat n) shuffled).
Proof.
  intros Hc Hf Hn Hpos candidates s'.
  unfold s', fetchQuizContent, fetchBody. rewrite Hc, Hf, Hn.
  fold candidates. split; intros Hcand.
  - rewrite Hcand. split; reflexivity.
  - assert (Hlen : (List.length candidates =? 0)%nat = false)
      by (apply Nat.eqb_neq; destruct candidates; [congruence | discriminate]).
    rewrite Hlen. cbn [run fold_left app apply_action initialState
                       fetchError questions].
    pose proof (sort_permutes rnd candidates) as Hperm.
    assert (Hsame : List.length (shuffledQuestions sort rnd candidates)
                    = List.length candidates)
      by (apply Permutation_length, Hperm).
    assert (Hcount :
              Z.of_nat (List.length
                          (JS.slice0 (shuffledQuestions sort rnd candidates) (Some n)))
              = Z.min n (Z.of_nat (List.length candidates)))
      by (rewrite slice0_length, Hsame; [reflexivity | exact Hpos]).
    split; [reflexivity|]. split; [exact Hcount|]. split.
    + assert (0 < List.length candidates)
        by (destruct candidates; [congruence | simpl; lia]).
      lia.
    + exists (shuffledQuestions sort rnd candidates). split; [exact Hperm|].
      unfold JS.slice0.
      assert (H : (n <? 0)%Z = false) by (apply Z.ltb_ge; lia).
      rewrite H.
      destruct (Z.le_ge_cases n
                  (Z.of_nat (List.length (shuffledQuestions sort rnd candidates))))
        as [Hle | Hge].
      * now rewrite Z.min_l.
      * rewrite Z.min_r by exact Hge. rewrite Nat2Z.id.
        rewrite !firstn_all2; [reflexivity | lia | lia].
Qed.

(** C1 fails on the code: whatever algorithm the engine sorts with and
    however many draws are counted, no ordering of three or more candidates
    is produced by exactly one source in [n!], that is with probability
    [1 / n!], because the number of sources is a power of two. *)
Theorem shuffle_not_uniform (k : nat) (candidates p : list QuizQuestion) :
  3 <= List.length candidates ->
  orderingCount sort k candidates p * fact (List.length candidates) <> 2 ^ k.
Proof.
  intros Hlen Heq.
  destruct (fact_multiple_of_3 _ Hlen) as [m Hm].
  destruct (pow2_mod3 k) as [q Hq].
  rewrite Hm in Heq.
  assert (H : 3 * (orderingCount sort k candidates p * m) = 2 ^ k) by lia.
  lia.
Qed.

(** On three distinct candidates two orderings differ in probability,
    whatever the engine's algorithm and the number of draws. *)
Lemma shuffle_biased_on_three (k : nat) (a b c : QuizQuestion) :
  NoDup [a; b; c] ->
  exists p q,
    Permutation p [a; b; c] /\ Permutation q [a; b; c]
    /\ orderingCount sort k [a; b; c] p <> orderingCount sort k [a; b; c] q.
Proof.
  intros Hnd.
  set (cnt := orderingCount sort k [a; b; c]).
  assert (Hsum : list_sum (map cnt (sixOrderings a b c)) = 2 ^ k).
  { unfold cnt, orderingCount.
    rewrite count_occ_partition.
    - now rewrite length_map, sources_length.
    - now apply sixOrderings_NoDup.
    - intros x Hx. apply in_map_iff in Hx as (rnd & <- & _).
      apply permutation_of_three; [exact Hnd | apply sort_permutes]. }
  assert (Hperm : forall p, In p (sixOrderings a b c) ->
                            Permutation p [a; b; c]).
  { intros p Hp. simpl in Hp.
    destruct Hp as [<- | [<- | [<- | [<- | [<- | [<- | []]]]]]];
      eauto using Permutation_refl, perm_swap, perm_skip, perm_trans. }
  assert (Hhere : forall p, In p (sixOrderings a b c) ->
                            cnt p <> cnt [a; b; c] ->
                            exists p q, Permutation p [a; b; c]
                                        /\ Permutation q [a; b; c]
                                        /\ cnt p <> cnt q).
  { intros p Hp Hne. exists p, [a; b; c].
    split; [now apply Hperm|]. split; [apply Permutation_refl | exact Hne]. }
  destruct (Nat.eq_dec (cnt [a; c; b]) (cnt [a; b; c])) as [E1 | N];
    [|apply (Hhere [a; c; b]); [simpl; tauto | exact N]].
  destruct (Nat.eq_dec (cnt [b; a; c]) (cnt [a; b; c])) as [E2 | N];
    [|apply (Hhere [b; a; c]); [simpl; tauto | exact N]].
  destruct (Nat.eq_dec (cnt [b; c; a]) (cnt [a; b; c])) as [E3 | N];
    [|apply (Hhere [b; c; a]); [simpl; tauto | exact N]].
  destruct (Nat.eq_dec (cnt [c; a; b]) (cnt [a; b; c])) as [E4 | N];
    [|apply (Hhere [c; a; b]); [simpl; tauto | exact N]].
  destruct (Nat.eq_dec (cnt [c; b; a]) (cnt [a; b; c])) as [E5 | N];
    [|apply (Hhere [c; b; a]); [simpl; tauto | exact N]].
  exfalso. cbn [sixOrderings map list_sum fold_right] in Hsum.
  destruct (pow2_mod3 k) as [q Hq]. lia.
Qed.

End EngineProperties.

(** ** The insertion sort as an engine *)

Lemma insertLeft_permutes {A : Type} (rnd : list bool) (x : A) (l : list A) :
  Permutation (fst (insertLeft rnd x l)) (x :: l).
Proof.
  revert rnd. induction l as [|t rest IH]; intros rnd; simpl.
  - apply Permutation_refl.
  - destruct rnd as [|[|] rnd']; simpl; try apply Permutation_refl.
    specialize (IH rnd'). destruct (insertLeft rnd' x rest) as [r rnd''].
    simpl in *. rewrite IH. apply perm_swap.
Qed.

Lemma insertionSortGo_permutes {A : Type} (rnd : list bool)
    (sortedRev todo : list A) :
  Permutation (insertionSortGo rnd sortedRev todo) (sortedRev ++ todo).
Proof.
  revert rnd sortedRev. induction todo as [|x todo IH]; intros rnd sortedRev.
  - simpl. rewrite app_nil_r. symmetry. apply Permutation_rev.
  - simpl. pose proof (insertLeft_permutes rnd x sortedRev) as Hins.
    destruct (insertLeft rnd x sortedRev) as [sortedRev' rnd'].
    simpl in Hins. rewrite IH, Hins.
    apply Permutation_middle.
Qed.

Lemma insertionSort_permutes (rnd : list bool) (l : list QuizQuestion) :
  Permutation (insertionSort rnd l) l.
Proof. apply (insertionSortGo_permutes rnd [] l). Qed.

(** Under the insertion sort, of the eight sources of three draws two leave
    three candidates in place and one reverses them. *)
Lemma insertionSort_distribution :
  map (orderingCount (@insertionSort QuizQuestion) 3 threeCandidates)
    [threeCandidates; rev threeCandidates]
  = [2; 1].
Proof. vm_compute. reflexivity. Qed.

(** ** The properties at sample sessions *)

Lemma shuffle_not_uniform_witness :
  orderingCount (@insertionSort QuizQuestion) 3 threeCandidates threeCandidates
    * fact 3 <> 2 ^ 3.
Proof.
  apply (shuffle_not_uniform (@insertionSort QuizQuestion) 3 threeCandidates
           threeCandidates).
  vm_compute. apply le_n.
Defined.

(** The scenario of the specification: weeks 1 and 2, four questions asked
    of five, thirty minutes. *)
Lemma session_question_count_witness :
  let s' :=
    run (fetchQuizContent (@insertionSort QuizQuestion) numberOfDigits
           sampleLocation sampleFetch sampleSource) initialState in
  fetchError s' = None /\ List.length (questions s') = 4.
Proof.
  destruct (session_question_count (@insertionSort QuizQuestion)
              numberOfDigits insertionSort_permutes sampleLocation sampleFetch
              sampleSource "CS101" "OK" sampleBank 4
              eq_refl eq_refl eq_refl ltac:(discriminate)) as [_ H].
  destruct H as (He & Hl & _); [discriminate|].
  split; [exact He|]. apply Nat2Z.inj. rewrite Hl. reflexivity.
Defined.

(** C2 as stated fails: with [numQ=0] and five candidates the session has no
    question and no error is raised. *)
Lemma empty_session_without_error :
  let s' :=
    run (fetchQuizContent (@insertionSort QuizQuestion) numberOfDigits
           zeroCountLocation sampleFetch sampleSource) initialState in
  List.length (allQuestions (weeks numberOfDigits (Some "1-2")) sampleBank) = 5
  /\ questions s' = []
  /\ fetchError s' = None.
Proof. vm_compute. repeat split; reflexivity. Qed.


Lemma goToNextQuestion_gate_witness :
  goToNextQuestion blankOptionSession = ([SetShowError true], None)
  /\ currentQuestionIndex (advance blankOptionSession) = 0.
Proof.
  destruct (goToNextQuestion_gate blankOptionSession
              (mkQuizQuestion "q1" [""; "x"] (Some "x") None None "1"
                 (Some false)) eq_refl) as [H _].
  destruct (H (or_introl eq_refl)) as (H1 & H2 & _).
  split; [exact H1 | exact H2].
Defined.

(** C4 as stated fails: once the empty option of the first question is
    selected, [selectedAnswer] is set, yet the "next" button raises the
    error flag and the index stays at 0. *)
Lemma empty_selection_blocks_advance :
  let s := run (fst (handleAnswerSelect "" blankOptionSession))
             blankOptionSession in
  option_map selectedAnswer (nth_error (questions s) (currentQuestionIndex s))
  = Some (Some "")
  /\ goToNextQuestion s = ([SetShowError true], None)
  /\ currentQuestionIndex (advance s) = 0
  /\ List.length (questions s) = 2.
Proof. vm_compute. repeat split; reflexivity. Qed.

(** 23 correct answers of 80 are 28.75 percent; the binary64 product lies
    just below, and 28.7 is printed. *)
Lemma scorer_percentage_tier_witness :
  let s1 := run (submitQuiz tieSession) tieSession in
  score s1 = 23
  /\ percentage s1 = Some 287%Z
  /\ scoreColor s1 = tierClass Low.
Proof.
  destruct (scorer_percentage_tier tieSession) as [Hs [n (Hp & _ & Hc & _)]].
  - vm_compute. repeat constructor.
  - reflexivity.
  - split; [exact Hs|].
    assert (Hn : Some n = Some 287%Z) by (rewrite <- Hp; vm_compute; reflexivity).
    injection Hn as ->. split; [exact Hp | exact Hc].
Defined.

Lemma initial_time_budget_witness :
  timeRemaining
    (run (fetchQuizContent (@insertionSort QuizQuestion) numberOfDigits
            sampleLocation sampleFetch sampleSource) initialState)
  = 1800%Z.
Proof.
  destruct (initial_time_budget (@insertionSort QuizQuestion) numberOfDigits
              sampleLocation sampleFetch sampleSource "CS101" initialState
              0 0 3 0 0 0 eq_refl
              ltac:(lia) ltac:(lia) ltac:(lia) ltac:(lia) ltac:(lia)
              ltac:(lia)) as [H _].
  destruct (H eq_refl) as [Hpos _]. apply Hpos. reflexivity.
Defined.

Lemma warning_latch_witness :
  warningWrites true (fst (trace countdownEvents countdownSession)) = 1
  /\ showWarning (snd (trace countdownEvents countdownSession)) = true
  /\ timeRemaining (snd (trace countdownEvents countdownSession)) = 27%Z.
Proof.
  destruct (warning_latch countdownEvents countdownSession) as (H1 & H2 & _).
  - discriminate.
  - reflexivity.
  - split; [exact H1|]. split; [exact H2 | reflexivity].
Defined.

Lemma absent_weeks_empty_selection_witness :
  fetchError
    (run (fetchQuizContent (@insertionSort QuizQuestion) numberOfDigits
            noWeeksLocation sampleFetch sampleSource) initialState)
  = Some "No questions available for the selected weeks.".
Proof.
  destruct (absent_weeks_empty_selection (@insertionSort QuizQuestion)
              numberOfDigits noWeeksLocation sampleFetch sampleSource
              "CS101" "OK" sampleBank initialState eq_refl eq_refl eq_refl)
    as (_ & _ & _ & H & _).
  exact H.
Defined.

Lemma empty_answer_counts_as_correct_witness :
  let qq := deriveQuestion (Bank.mkWeek "1" [answerlessQuestion])
              answerlessQuestion in
  answer qq = None /\ correctAnswers [qq] = 1.
Proof.
  destruct (empty_answer_counts_as_correct
              (Bank.mkWeek "1" [answerlessQuestion]) answerlessQuestion
              eq_refl) as (H1 & _ & _ & H2 & _).
  split; [exact H1 | exact (H2 [] [])].
Defined.

(** * Further properties *)

(** ** The clock and the path *)

Section Strings.

Local Open Scope string_scope.

Lemma append_assoc (a b c : string) : ((a ++ b) ++ c = a ++ (b ++ c))%string.
Proof. induction a as [|x a IH]; simpl; [reflexivity | now rewrite IH]. Qed.

Lemma append_nil_r (a : string) : (a ++ "")%string = a.
Proof. induction a as [|x a IH]; simpl; [reflexivity | now rewrite IH]. Qed.

Lemma prefix_append (a b : string) : String.prefix a (a ++ b)%string = true.
Proof.
  induction a as [|x a IH]; simpl; [now destruct b|].
  destruct (ascii_dec x x); [exact IH | congruence].
Qed.

Lemma split_go_skip_all (sep : string) (s1 cur : string) :
  JS.split_go sep (String.length s1) cur s1 = [cur].
Proof. induction s1 as [|c s1 IH]; simpl; [reflexivity | exact IH]. Qed.

Lemma split_go_skip_eq (sep : string) (s1 s2 cur : string) :
  JS.split_go sep (String.length s1) cur (s1 ++ s2)%string
  = JS.split_go sep 0 cur s2.
Proof.
  induction s1 as [|c s1 IH]; simpl; [reflexivity | exact IH].
Qed.

(** Up to the first occurrence of the separator. *)
Lemma split_go_first (c0 : ascii) (sep' a rest cur : string) :
  let sep := String c0 sep' in
  noPrefixIn sep a (sep ++ rest)%string = true ->
  JS.split_go sep 0 cur (a ++ sep ++ rest)%string
  = (cur ++ a) :: JS.split_go sep 0 EmptyString rest.
Proof.
  intros sep. revert cur. induction a as [|c a IH]; intros cur Hno.
  - rewrite append_nil_r. cbn [append].
    unfold sep at 2. cbn [append JS.split_go].
    change (String c0 (sep' ++ rest)) with (sep ++ rest).
    rewrite prefix_append.
    change (String.length sep - 1) with (String.length sep' - 0).
    rewrite Nat.sub_0_r. now rewrite split_go_skip_eq.
  - cbn [noPrefixIn] in Hno. apply andb_prop in Hno as [Hc Ha].
    apply negb_true_iff in Hc.
    cbn [append JS.split_go]. cbn [append] in Hc. rewrite Hc.
    rewrite IH by exact Ha. now rewrite append_assoc.
Qed.

(** Without an occurrence the string is one piece. *)
Lemma split_go_none (sep a cur : string) :
  noPrefixIn sep a EmptyString = true ->
  JS.split_go sep 0 cur a = [cur ++ a].
Proof.
  revert cur. induction a as [|c a IH]; intros cur Hno.
  - now rewrite append_nil_r.
  - cbn [noPrefixIn] in Hno. apply andb_prop in Hno as [Hc Ha].
    apply negb_true_iff in Hc. rewrite append_nil_r in Hc.
    cbn [JS.split_go]. rewrite Hc, IH by exact Ha. now rewrite append_assoc.
Qed.

(** ** Decimal strings *)

Lemma isDigit_cases (c : ascii) :
  isDigit c = true ->
  In c ["0"; "1"; "2"; "3"; "4"; "5"; "6"; "7"; "8"; "9"]%char.
Proof.
  destruct c as [[|] [|] [|] [|] [|] [|] [|] [|]]; intros H;
    try discriminate H; simpl; tauto.
Qed.

Lemma string_of_uint_digits (d : Decimal.uint) :
  allDigits (NilEmpty.string_of_uint d) = true.
Proof. induction d; simpl; try reflexivity; exact IHd. Qed.

Lemma parse_digits_uint_acc (d : Decimal.uint) (a : Z) :
  JS.parse_digits 10 (Some a) (NilEmpty.string_of_uint d)
  = Some (uintValue d a).
Proof.
  revert a. induction d; intros a; cbn [NilEmpty.string_of_uint uintValue];
    try reflexivity;
    cbn [JS.parse_digits]; (etransitivity; [|apply IHd]); reflexivity.
Qed.

Lemma parse_digits_uint (d : Decimal.uint) :
  d <> Decimal.Nil ->
  JS.parse_digits 10 None (NilEmpty.string_of_uint d)
  = Some (uintValue d 0).
Proof.
  intros Hd.
  destruct d; try congruence;
    cbn [NilEmpty.string_of_uint uintValue JS.parse_digits];
    (etransitivity; [|apply parse_digits_uint_acc]); reflexivity.
Qed.

Lemma uintValue_of_uint_acc (d : Decimal.uint) (acc : positive) :
  Z.pos (Pos.of_uint_acc d acc) = uintValue d (Z.pos acc).
Proof.
  revert acc. induction d; intros acc; cbn [Pos.of_uint_acc uintValue];
    try reflexivity; rewrite IHd; f_equal; lia.
Qed.

Lemma uintValue_of_uint (d : Decimal.uint) :
  Z.of_N (Pos.of_uint d) = uintValue d 0.
Proof.
  induction d; cbn [Pos.of_uint uintValue]; try reflexivity;
    try (exact IHd);
    cbn [Z.of_N]; rewrite uintValue_of_uint_acc; reflexivity.
Qed.

Lemma toStringZ_digits (z : Z) :
  (0 <= z)%Z ->
  toStringZ z = NilEmpty.string_of_uint (digitsOf z)
  /\ digitsOf z <> Decimal.Nil
  /\ uintValue (digitsOf z) 0 = z.
Proof.
  intros Hz. destruct z as [|p|p]; try lia.
  - repeat split. discriminate.
  - unfold toStringZ, digitsOf. cbn [Z.to_int NilZero.string_of_int].
    pose proof (Unsigned.to_uint_nonnil p) as Hnn.
    split; [|split].
    + unfold NilZero.string_of_uint. destruct (Pos.to_uint p); congruence.
    + exact Hnn.
    + rewrite <- uintValue_of_uint, Unsigned.of_to. reflexivity.
Qed.

Lemma option_map_mul_1 (o : option Z) : option_map (Z.mul 1) o = o.
Proof. destruct o as [z|]; [|reflexivity]. simpl. now destruct z. Qed.

Lemma parseInt_allDigits (s : string) :
  allDigits s = true -> s <> EmptyString ->
  JS.parseInt s = JS.parse_digits 10 None s.
Proof.
  intros Hd Hne. rewrite <- option_map_mul_1.
  destruct s as [|c r]; [congruence|].
  cbn [allDigits] in Hd. apply andb_prop in Hd as [Hc Hr].
  apply isDigit_cases in Hc. simpl in Hc.
  destruct Hc as [<-|[<-|[<-|[<-|[<-|[<-|[<-|[<-|[<-|[<-|[]]]]]]]]]]];
    try reflexivity.
  destruct r as [|c2 r2]; [reflexivity|].
  cbn [allDigits] in Hr. apply andb_prop in Hr as [Hc2 _].
  apply isDigit_cases in Hc2. simpl in Hc2.
  destruct Hc2 as [<-|[<-|[<-|[<-|[<-|[<-|[<-|[<-|[<-|[<-|[]]]]]]]]]]];
    reflexivity.
Qed.

(** [parseInt] reads back what [String] prints of a number that is not
    negative. *)
Lemma parseInt_toStringZ (z : Z) :
  (0 <= z)%Z -> JS.parseInt (toStringZ z) = Some z.
Proof.
  intros Hz. destruct (toStringZ_digits z Hz) as (Hs & Hnn & Hv).
  rewrite Hs, parseInt_allDigits.
  - rewrite parse_digits_uint by exact Hnn. now rewrite Hv.
  - apply string_of_uint_digits.
  - destruct (digitsOf z); try congruence; discriminate.
Qed.

Lemma pad2_digits (s : string) :
  allDigits s = true -> s <> EmptyString ->
  allDigits (padStart 2 "0" s) = true
  /\ padStart 2 "0" s <> EmptyString
  /\ JS.parse_digits 10 None (padStart 2 "0" s) = JS.parse_digits 10 None s.
Proof.
  intros Hd Hne. destruct s as [|c [|c2 r]]; [congruence| |].
  - cbn [allDigits] in Hd. apply andb_prop in Hd as [Hc _].
    apply isDigit_cases in Hc. simpl in Hc.
    destruct Hc as [<-|[<-|[<-|[<-|[<-|[<-|[<-|[<-|[<-|[<-|[]]]]]]]]]]];
      (split; [reflexivity | split; [discriminate | reflexivity]]).
  - unfold padStart. cbn [String.length Nat.leb].
    split; [exact Hd | split; [discriminate | reflexivity]].
Qed.

Lemma digits_have_no_colon (a tail : string) :
  allDigits a = true -> noPrefixIn ":" a tail = true.
Proof.
  induction a as [|c a IH]; intros Hd; [reflexivity|].
  cbn [allDigits] in Hd. apply andb_prop in Hd as [Hc Ha].
  cbn [noPrefixIn]. rewrite (IH Ha), andb_true_r.
  apply isDigit_cases in Hc. simpl in Hc.
  destruct Hc as [<-|[<-|[<-|[<-|[<-|[<-|[<-|[<-|[<-|[<-|[]]]]]]]]]]];
    reflexivity.
Qed.

(** A field of the clock: the padded print of a number that is not
    negative reads back as that number and holds no colon. *)
Lemma clock_field (z : Z) :
  (0 <= z)%Z ->
  let f := padStart 2 "0" (toStringZ z) in
  allDigits f = true /\ JS.parseInt f = Some z.
Proof.
  intros Hz f. destruct (toStringZ_digits z Hz) as (Hs & Hnn & Hv).
  assert (Hd : allDigits (toStringZ z) = true)
    by (rewrite Hs; apply string_of_uint_digits).
  assert (Hne : toStringZ z <> EmptyString)
    by (rewrite Hs; destruct (digitsOf z); try congruence; discriminate).
  destruct (pad2_digits _ Hd Hne) as (Hpd & Hpne & Hpv).
  split; [exact Hpd|]. unfold f.
  rewrite parseInt_allDigits by assumption.
  rewrite Hpv, <- parseInt_allDigits by assumption.
  now apply parseInt_toStringZ.
Qed.

Lemma length_append (a b : string) :
  String.length (a ++ b) = (String.length a + String.length b)%nat.
Proof. induction a as [|c a IH]; simpl; [reflexivity | now rewrite IH]. Qed.

Lemma two_digit_field (a b : nat) :
  (a < 10)%nat -> (b < 10)%nat ->
  padStart 2 "0" (toStringZ (Z.of_nat (10 * a + b)))
  = String (digitChar a) (String (digitChar b) EmptyString).
Proof.
  intros Ha Hb.
  do 10 (destruct a as [|a];
         [do 10 (destruct b as [|b]; [reflexivity|]); lia|]).
  lia.
Qed.

Lemma formatTime_fields (t : Z) :
  (0 <= t)%Z ->
  JS.split ":" (formatTime t)
  = [padStart 2 "0" (toStringZ (t / 3600));
     padStart 2 "0" (toStringZ (t mod 3600 / 60));
     padStart 2 "0" (toStringZ (t mod 60))].
Proof.
  intros Ht. unfold formatTime, JS.split.
  rewrite !Z.rem_mod_nonneg by lia.
  assert (H1 : (0 <= t / 3600)%Z) by (apply Z.div_pos; lia).
  assert (H2 : (0 <= t mod 3600 / 60)%Z)
    by (apply Z.div_pos; [apply Z.mod_pos_bound|]; lia).
  assert (H3 : (0 <= t mod 60)%Z) by (apply Z.mod_pos_bound; lia).
  destruct (clock_field _ H1) as [D1 _].
  destruct (clock_field _ H2) as [D2 _].
  destruct (clock_field _ H3) as [D3 _].
  rewrite (split_go_first ":" EmptyString) by now apply digits_have_no_colon.
  rewrite (split_go_first ":" EmptyString) by now apply digits_have_no_colon.
  rewrite split_go_none by now apply digits_have_no_colon.
  reflexivity.
Qed.

(** X1: The clock reads back: for a time that is not negative the three fields
    between the colons parse to the hours, minutes and seconds, which add up
    to the time; below a hundred hours the clock has eight characters. *)
Theorem formatTime_roundtrip (t : Z) :
  (0 <= t)%Z ->
  exists hh mm ss,
    JS.split ":" (formatTime t) = [hh; mm; ss]
    /\ JS.parseInt hh = Some (t / 3600)%Z
    /\ JS.parseInt mm = Some (t mod 3600 / 60)%Z
    /\ JS.parseInt ss = Some (t mod 60)%Z
    /\ JS.add
         (JS.add (JS.mul (JS.parseInt hh) (Some 3600%Z))
            (JS.mul (JS.parseInt mm) (Some 60%Z)))
         (JS.parseInt ss)
       = Some t
    /\ ((t < 360000)%Z -> String.length (formatTime t) = 8%nat).
Proof.
  intros Ht.
  assert (H1 : (0 <= t / 3600)%Z) by (apply Z.div_pos; lia).
  assert (H2 : (0 <= t mod 3600 / 60)%Z)
    by (apply Z.div_pos; [apply Z.mod_pos_bound|]; lia).
  assert (H3 : (0 <= t mod 60)%Z) by (apply Z.mod_pos_bound; lia).
  destruct (clock_field _ H1) as [_ P1].
  destruct (clock_field _ H2) as [_ P2].
  destruct (clock_field _ H3) as [_ P3].
  eexists _, _, _. split; [apply formatTime_fields; exact Ht|].
  split; [exact P1|]. split; [exact P2|]. split; [exact P3|]. split.
  - rewrite P1, P2, P3. cbn [JS.mul JS.add]. f_equal.
    pose proof (Z.div_mod t 3600 ltac:(lia)) as E1.
    pose proof (Z.div_mod (t mod 3600) 60 ltac:(lia)) as E2.
    assert (E3 : ((t mod 3600) mod 60 = t mod 60)%Z)
      by (apply Z.mod_mod_divide; exists 60%Z; lia).
    lia.
  - intros Hlt. unfold formatTime. rewrite !Z.rem_mod_nonneg by lia.
    assert (B1 : (t / 3600 < 100)%Z) by (apply Z.div_lt_upper_bound; lia).
    assert (B2 : (t mod 3600 / 60 < 60)%Z).
    { apply Z.div_lt_upper_bound; [lia|].
      pose proof (Z.mod_pos_bound t 3600 ltac:(lia)). lia. }
    assert (B3 : (t mod 60 < 60)%Z) by (apply Z.mod_pos_bound; lia).
    assert (Hfield : forall z, (0 <= z < 100)%Z ->
                       String.length (padStart 2 "0" (toStringZ z)) = 2%nat).
    { intros z Hz.
      replace z with (Z.of_nat (10 * (Z.to_nat z / 10) + Z.to_nat z mod 10)).
      - rewrite two_digit_field; [reflexivity | |].
        + apply Nat.Div0.div_lt_upper_bound. lia.
        + apply Nat.mod_upper_bound. lia.
      - rewrite <- Nat.div_mod_eq. lia. }
    rewrite !length_append, !Hfield by lia. reflexivity.
Qed.


(** A piece is never missing, and what was read before goes in front of the
    first one. *)
Lemma split_go_cur (sep s : string) :
  forall (k : nat),
  exists p more,
    JS.split_go sep k "" s = p :: more
    /\ forall cur, JS.split_go sep k cur s = (cur ++ p) :: more.
Proof.
  induction s as [|c s IH]; intros k.
  - exists "", []. split; [reflexivity|]. intros cur. cbn.
    now rewrite append_nil_r.
  - destruct k as [|k]; cbn [JS.split_go].
    + destruct (String.prefix sep (String c s)).
      * eexists "", _. split; [reflexivity|]. intros cur.
        now rewrite append_nil_r.
      * destruct (IH 0) as (p & more & _ & Hcur).
        exists (String c p), more. split.
        -- rewrite Hcur. reflexivity.
        -- intros cur. rewrite Hcur, append_assoc. reflexivity.
    + destruct (IH k) as (p & more & H0 & Hcur).
      exists p, more. split; [exact H0 | exact Hcur].
Qed.

(** Where no occurrence of the separator starts, the characters are read
    into the piece. *)
Lemma split_go_read (sep a s cur : string) :
  noPrefixIn sep a s = true ->
  JS.split_go sep 0 cur (a ++ s) = JS.split_go sep 0 (cur ++ a) s.
Proof.
  revert cur. induction a as [|c a IH]; intros cur Hno.
  - now rewrite append_nil_r.
  - cbn [noPrefixIn] in Hno. apply andb_prop in Hno as [Hc Ha].
    apply negb_true_iff in Hc.
    cbn [append JS.split_go]. cbn [append] in Hc. rewrite Hc.
    rewrite IH by exact Ha. now rewrite append_assoc.
Qed.

(** For a separator of one character only the characters of [a] count. *)
Lemma noPrefixIn_char (c : ascii) (a x y : string) :
  noPrefixIn (String c "") a x = noPrefixIn (String c "") a y.
Proof.
  assert (E : forall s, String.prefix "" s = true) by (now destruct s).
  induction a as [|d a IH]; [reflexivity|].
  cbn [noPrefixIn append String.prefix]. rewrite IH.
  destruct (ascii_dec c d); [now rewrite !E | reflexivity].
Qed.

(** X3: The course code is read from the path after its first [/quiz/]: a path
    without [/quiz/] is refused as malformed; otherwise the code is what
    stands between the first [/quiz/] and the next [/quiz/], the next
    question mark or the end of the path, whichever comes first, and an
    empty code is refused as missing.  [base] is the path before the first
    [/quiz/], [code] holds no question mark and no [/quiz/] starts in it,
    and [tail] is empty or starts with one of the two. *)
Theorem courseCodeOf_reads_path :
  (forall p,
      noPrefixIn "/quiz/" p "" = true ->
      courseCodeOf p = inl InvalidUrlFormat)
  /\ (forall base code tail,
      noPrefixIn "/quiz/" base ("/quiz/" ++ code ++ tail) = true ->
      noPrefixIn "/quiz/" code tail = true ->
      noPrefixIn "?" code "" = true ->
      tail = ""
      \/ (exists rest, tail = "?" ++ rest)
      \/ (exists rest, tail = "/quiz/" ++ rest) ->
      courseCodeOf (base ++ "/quiz/" ++ code ++ tail)
      = if JS.truthy code then inr code else inl CourseCodeNotFound).
Proof.
  split.
  - intros p Hp. unfold courseCodeOf, JS.split.
    now rewrite split_go_none by exact Hp.
  - intros base code tail Hb Hcode Hq Ht.
    unfold courseCodeOf, JS.split.
    rewrite (split_go_first "/" "quiz/") by exact Hb.
    rewrite (split_go_read "/quiz/" code tail "") by exact Hcode.
    cbn [append].
    destruct (split_go_cur "/quiz/" tail 0) as (p & more & Hp & Hcur).
    rewrite Hcur.
    cbn [List.length Nat.ltb Nat.leb nth].
    assert (Hs : hd "" (JS.split_go "?" 0 "" (code ++ p)) = code).
    { destruct Ht as [-> | [(rest & ->) | (rest & ->)]].
      - cbn in Hp. injection Hp as <- _.
        rewrite append_nil_r. now rewrite split_go_none by exact Hq.
      - cbn [append JS.split_go String.prefix] in Hp.
        destruct (ascii_dec "/" "?") as [E | _]; [discriminate E|].
        destruct (split_go_cur "/quiz/" rest 0) as (p' & more' & _ & Hcur').
        rewrite Hcur' in Hp. injection Hp as <- _.
        cbn [append].
        change (String "?" p') with ("?" ++ p').
        rewrite (split_go_first "?" ""); [reflexivity|].
        now rewrite (noPrefixIn_char "?" code _ "").
      - change (JS.split_go "/quiz/" 0 "" ("/quiz/" ++ rest))
          with (JS.split_go "/quiz/" 0 "" ("" ++ "/quiz/" ++ rest)) in Hp.
        rewrite (split_go_first "/" "quiz/" "" rest "") in Hp by reflexivity.
        injection Hp as <- _.
        rewrite append_nil_r. now rewrite split_go_none by exact Hq. }
    rewrite Hs. now destruct code.
Qed.

Lemma substring_past_end (n m : nat) (t : string) :
  (String.length t <= n)%nat -> String.substring n m t = EmptyString.
Proof.
  revert n. induction t as [|c t IH]; intros n Hn.
  - destruct n, m; reflexivity.
  - destruct n as [|n]; [simpl in Hn; lia|].
    simpl. apply IH. simpl in Hn. lia.
Qed.

Lemma initialTimeRemaining_NaN (t : string) :
  JS.parseInt (JS.substring 0 2 t) = None
  \/ JS.parseInt (JS.substring 2 4 t) = None
  \/ JS.parseInt (JS.substring 4 6 t) = None ->
  initialTimeRemaining (Some t) = 1800%Z.
Proof.
  intros H. unfold initialTimeRemaining, timeSeconds.
  destruct (JS.truthy t); [|reflexivity].
  destruct H as [-> | [-> | ->]];
    repeat match goal with
           | |- context [JS.parseInt ?x] => destruct (JS.parseInt x)
           end; reflexivity.
Qed.

(** X25: The time parameter is read as three fields of two characters.  When
    one of them does not start with a number the sum is [NaN] and the
    session gets the default of half an hour: so it is for every parameter
    of fewer than five characters, [0130] for one.  What follows the sixth
    character is not read. *)
Theorem time_parameter_edges :
  (forall t,
      JS.parseInt (JS.substring 0 2 t) = None
      \/ JS.parseInt (JS.substring 2 4 t) = None
      \/ JS.parseInt (JS.substring 4 6 t) = None ->
      initialTimeRemaining (Some t) = 1800%Z)
  /\ (forall t,
      (String.length t <= 4)%nat -> initialTimeRemaining (Some t) = 1800%Z)
  /\ (forall h1 h2 m1 m2 s1 s2 rest,
      initialTimeRemaining (Some (hhmmss h1 h2 m1 m2 s1 s2 ++ rest))
      = initialTimeRemaining (Some (hhmmss h1 h2 m1 m2 s1 s2))).
Proof.
  split; [exact initialTimeRemaining_NaN|]. split.
  - intros t Ht. apply initialTimeRemaining_NaN. right. right.
    unfold JS.substring. now rewrite substring_past_end.
  - intros h1 h2 m1 m2 s1 s2 rest.
    assert (E : forall s, String.substring 0 0 s = EmptyString)
      by (now destruct s).
    unfold initialTimeRemaining, timeSeconds, JS.substring, hhmmss.
    cbn [append JS.truthy Nat.sub String.substring]. now rewrite !E.
Qed.

End Strings.

(** ** The session on the screen *)

Lemma update_length {A : Type} (i : nat) (v : A) (l : list A) :
  List.length (update i v l) = List.length l.
Proof.
  revert i. induction l as [|h t IH]; intros i; [now destruct i|].
  destruct i; simpl; [reflexivity | now rewrite IH].
Qed.

Lemma update_nth_error {A : Type} (i j : nat) (v : A) (l : list A) :
  i < List.length l ->
  nth_error (update i v l) j
  = if (j =? i)%nat then Some v else nth_error l j.
Proof.
  revert i j. induction l as [|h t IH]; intros i j Hi; [simpl in Hi; lia|].
  destruct i, j; simpl; try reflexivity.
  apply IH. simpl in Hi. lia.
Qed.

Lemma update_map {A B : Type} (f : A -> B) (i : nat) (v w : A) (l : list A) :
  nth_error l i = Some w -> f v = f w -> map f (update i v l) = map f l.
Proof.
  revert i. induction l as [|h t IH]; intros i Hn Hf; [now destruct i|].
  destruct i; simpl in *.
  - injection Hn as ->. now rewrite Hf.
  - now rewrite IH.
Qed.

Lemma update_Forall {A : Type} (P : A -> Prop) (i : nat) (v : A) (l : list A) :
  Forall P l -> P v -> Forall P (update i v l).
Proof.
  intros Hl Hv. revert i. induction Hl as [|h t Hh Ht IH]; intros i;
    [destruct i; constructor|].
  destruct i; simpl; constructor; auto.
Qed.

Lemma existsb_eqb_In (a : string) (l : list string) :
  existsb (String.eqb a) l = true -> In a l.
Proof.
  intros H. apply existsb_exists in H as (x & Hx & He).
  apply String.eqb_eq in He. now subst.
Qed.

(** What is rendered for a session on the screen. *)
Lemma render_session (s : State) :
  isLoading s = false -> fetchError s = None ->
  render s
  = if (List.length (questions s) =? 0)%nat then inr NoQuestions
    else if quizSubmitted s
    then inr (Results (displayedQuestions s) (score s)
                (List.length (questions s)) (correctAnswers (questions s))
                (percentage s) (scoreColor s) (expandedQuestionIndex s))
    else
      match nth_error (questions s) (currentQuestionIndex s) with
      | None => inl TypeError
      | Some currentQuestion =>
          inr (Answering currentQuestion (currentQuestionIndex s + 1)
                 (List.length (questions s)) (formatTime (timeRemaining s))
                 (timeRemaining s <=? 30)%Z (showWarning s) (showError s)
                 (if (Z.of_nat (currentQuestionIndex s)
                      =? Z.of_nat (List.length (questions s)) - 1)%Z
                  then "Submit" else "Next"))
      end.
Proof. intros Hl He. unfold render. now rewrite Hl, He. Qed.

(** The state after a firing of the interval. *)
Lemma intervalCallback_state (p : Page) :
  let s := state p in
  run (intervalCallback p) s
  = if (0 <? timeRemaining s)%Z && negb (quizSubmitted s)
    then
      if (timeRemaining s <=? 1)%Z
      then mkState (questions s) (currentQuestionIndex s) 0%Z true
             (correctAnswers (seen p)) (showWarning s) (showOnlyIncorrect s)
             (expandedQuestionIndex s) (showError s) (isLoading s)
             (fetchError s)
      else mkState (questions s) (currentQuestionIndex s)
             (timeRemaining s - 1)%Z false (score s)
             (if (timeRemaining s =? 30)%Z then true else showWarning s)
             (showOnlyIncorrect s) (expandedQuestionIndex s) (showError s)
             (isLoading s) (fetchError s)
    else s.
Proof.
  destruct p as [[qs i t sub sc w f ex er ld fe] sn].
  unfold intervalCallback, tick, tickUpdater, seen. cbn.
  destruct (0 <? t)%Z; destruct sub; cbn; try reflexivity.
  destruct (t <=? 1)%Z; [reflexivity|].
  destruct (t =? 30)%Z; reflexivity.
Qed.

(** The interval reading the questions of the state is [tick]. *)
Lemma intervalCallback_tick (s : State) :
  intervalCallback (mkPage s None) = tick s.
Proof.
  unfold intervalCallback, tick, tickUpdater, submitQuiz, seen.
  destruct s; reflexivity.
Qed.

Lemma handlePage_handle (e : Event) (p : Page) :
  e <> Tick -> handlePage e p = handle e (state p).
Proof. destruct e; [congruence | reflexivity ..]. Qed.

Ltac session_goal :=
  cbn in *; repeat split; auto; try congruence;
  try (unfold correctAnswers; apply filter_length_le).

(** An event on offer keeps the session on the screen, the number of
    questions and what is fixed in them. *)
Lemma state_step (e : Event) (p : Page) :
  PageInv p -> enabled e (state p) = true ->
  SessionInv (run (handlePage e p) (state p))
  /\ map fixedPart (questions (run (handlePage e p) (state p)))
     = map fixedPart (questions (state p)).
Proof.
  intros [(Hl & He & Hi & Hs & Hsel) Hseen] Hen.
  unfold enabled in Hen. rewrite (render_session _ Hl He) in Hen.
  unfold SessionInv.
  destruct e; cbn [handlePage handle].
  - (* Tick *)
    pose proof (intervalCallback_state p) as Hc. cbn zeta in Hc. rewrite Hc.
    destruct ((0 <? timeRemaining (state p))%Z
              && negb (quizSubmitted (state p)));
      [destruct (timeRemaining (state p) <=? 1)%Z|]; session_goal.
    pose proof (filter_length_le isCorrect (seen p)). unfold correctAnswers.
    lia.
  - (* Expiry *)
    unfold expiryEffect.
    destruct ((timeRemaining (state p) =? 0)%Z
              && negb (quizSubmitted (state p))
              && (0 <? List.length (questions (state p)))%nat);
      destruct (state p); session_goal.
  - (* AnswerSelect *)
    destruct (List.length (questions (state p)) =? 0)%nat eqn:E0;
      [discriminate|].
    destruct (quizSubmitted (state p)) eqn:Esub; [discriminate|].
    unfold handleAnswerSelect.
    destruct (nth_error (questions (state p))
                (currentQuestionIndex (state p))) as [q|] eqn:Eq;
      [|discriminate].
    apply existsb_eqb_In in Hen.
    assert (Hlt : currentQuestionIndex (state p)
                  < List.length (questions (state p)))
      by (apply nth_error_Some; congruence).
    destruct (state p) as [qs i t sub sc w f ex er ld fe]; cbn in *.
    split; [split; [exact Hl|]; split; [exact He|]; split; [|split]|].
    + intros _. now rewrite update_length.
    + now rewrite update_length.
    + apply update_Forall; [exact Hsel|].
      intros b Hb. cbn in Hb. injection Hb as <-. exact Hen.
    + now apply (update_map fixedPart i _ q).
  - (* NextQuestion *)
    destruct (List.length (questions (state p)) =? 0)%nat eqn:E0;
      [discriminate|].
    destruct (quizSubmitted (state p)) eqn:Esub; [discriminate|].
    unfold goToNextQuestion.
    destruct (nth_error (questions (state p))
                (currentQuestionIndex (state p))) as [q|] eqn:Eq;
      [|discriminate].
    assert (Hlt : currentQuestionIndex (state p)
                  < List.length (questions (state p)))
      by (apply nth_error_Some; congruence).
    destruct (negb (JS.truthy_opt (selectedAnswer q))).
    + destruct (state p); session_goal.
    + destruct (Z.of_nat (currentQuestionIndex (state p))
                =? Z.of_nat (List.length (questions (state p))) - 1)%Z
        eqn:Elast.
      * destruct (state p); session_goal.
      * apply Z.eqb_neq in Elast.
        destruct (state p) as [qs i t sub sc w f ex er ld fe]; session_goal.
        intros _. lia.
  - (* ToggleExpansion *)
    unfold toggleQuestionExpansion.
    destruct (quizSubmitted (state p)) eqn:Esub; destruct (state p);
      session_goal.
  - (* OnlyIncorrect *)
    destruct (state p); session_goal.
Qed.

Lemma PageInv_step (e : Event) (p : Page) :
  PageInv p -> enabled e (state p) = true ->
  PageInv (afterEvent e p)
  /\ map fixedPart (questions (state (afterEvent e p)))
     = map fixedPart (questions (state p)).
Proof.
  intros Hinv Hen. destruct (state_step e p Hinv Hen) as [Hs Hfix].
  destruct Hinv as [_ Hseen].
  split; [|exact Hfix]. split; [exact Hs|].
  assert (Hlen : List.length (questions (run (handlePage e p) (state p)))
                 = List.length (questions (state p)))
    by (rewrite <- (length_map fixedPart), Hfix; apply length_map).
  unfold afterEvent, seen in *. cbn [state stale].
  destruct ((timeRemaining (run (handlePage e p) (state p))
             =? timeRemaining (state p))%Z
            && Bool.eqb (quizSubmitted (run (handlePage e p) (state p)))
                 (quizSubmitted (state p)));
    [destruct (stale p)|]; lia.
Qed.

Lemma PageInv_play (es : list Event) (p : Page) :
  PageInv p ->
  PageInv (play es p)
  /\ map fixedPart (questions (state (play es p)))
     = map fixedPart (questions (state p)).
Proof.
  revert p. induction es as [|e es IH]; intros p Hinv; [now split|].
  cbn [play]. destruct (enabled e (state p)) eqn:Hen; [|now apply IH].
  destruct (PageInv_step e p Hinv Hen) as [Hinv' Hfix].
  destruct (IH _ Hinv') as [H1 H3].
  split; [exact H1 | now rewrite H3].
Qed.

Lemma SessionInv_renders (s : State) :
  SessionInv s -> exists screen, render s = inr screen.
Proof.
  intros (Hl & He & Hi & _). rewrite (render_session s Hl He).
  destruct (List.length (questions s) =? 0)%nat eqn:E0; [eauto|].
  destruct (quizSubmitted s); [eauto|].
  apply Nat.eqb_neq in E0.
  assert (Hne : questions s <> [])
    by (destruct (questions s); [easy | discriminate]).
  specialize (Hi Hne). apply nth_error_Some in Hi.
  destruct (nth_error (questions s) (currentQuestionIndex s));
    [eauto | congruence].
Qed.

(** X4: Whatever is pressed and however often the interval fires, a session on
    the screen stays one: the render never throws, the index stays on a
    question, the score is no more than the number of questions, the
    selected answers are options of their questions, and the questions keep
    their number, texts, options and expected answers. *)
Theorem session_stays_on_screen (es : list Event) (p : Page) :
  PageInv p ->
  PageInv (play es p)
  /\ (exists screen, render (state (play es p)) = inr screen)
  /\ map fixedPart (questions (state (play es p)))
     = map fixedPart (questions (state p)).
Proof.
  intros Hinv. destruct (PageInv_play es p Hinv) as [H1 H2].
  split; [exact H1|]. split; [|exact H2].
  apply SessionInv_renders. now destruct H1.
Qed.

(** ** After submission, and the clock *)

Lemma enabled_submitted (e : Event) (s : State) :
  quizSubmitted s = true -> enabled e s = true ->
  match e with
  | AnswerSelect _ | NextQuestion => False
  | _ => True
  end.
Proof.
  intros Hsub Hen. unfold enabled, render in Hen. rewrite Hsub in Hen.
  destruct e; try exact I;
    destruct (isLoading s); try discriminate;
    destruct (JS.truthy_opt (fetchError s)); try discriminate;
    destruct (List.length (questions s) =? 0)%nat; discriminate.
Qed.

(** An event on offer after the submission changes the review only. *)
Lemma submitted_step (e : Event) (p : Page) :
  quizSubmitted (state p) = true -> enabled e (state p) = true ->
  let s' := state (afterEvent e p) in
  quizSubmitted s' = true /\ score s' = score (state p)
  /\ questions s' = questions (state p)
  /\ timeRemaining s' = timeRemaining (state p)
  /\ currentQuestionIndex s' = currentQuestionIndex (state p)
  /\ showWarning s' = showWarning (state p).
Proof.
  intros Hsub Hen. pose proof (enabled_submitted e _ Hsub Hen) as Hk.
  unfold afterEvent. cbn [state].
  destruct e; try contradiction; cbn [handlePage handle].
  - pose proof (intervalCallback_state p) as Hc. cbn zeta in Hc.
    rewrite Hc, Hsub, andb_false_r. now repeat split.
  - unfold expiryEffect. rewrite Hsub, andb_false_r. now cbn.
  - unfold toggleQuestionExpansion. rewrite Hsub.
    destruct (state p); cbn in *; repeat split; auto.
  - destruct (state p); cbn in *; repeat split; auto.
Qed.

Lemma submitted_play (es : list Event) (p : Page) :
  quizSubmitted (state p) = true ->
  let s' := state (play es p) in
  quizSubmitted s' = true /\ score s' = score (state p)
  /\ questions s' = questions (state p)
  /\ timeRemaining s' = timeRemaining (state p)
  /\ currentQuestionIndex s' = currentQuestionIndex (state p)
  /\ showWarning s' = showWarning (state p).
Proof.
  revert p. induction es as [|e es IH]; intros p Hsub; [now repeat split|].
  cbn [play]. destruct (enabled e (state p)) eqn:Hen; [|now apply IH].
  destruct (submitted_step e p Hsub Hen) as (H1 & H2 & H3 & H4 & H5 & H6).
  destruct (IH _ H1) as (K1 & K2 & K3 & K4 & K5 & K6).
  cbn zeta. repeat split; congruence.
Qed.

(** An event on offer keeps the score that of the questions. *)
Lemma ScoreInv_step (e : Event) (p : Page) :
  ScoreInv p -> enabled e (state p) = true -> ScoreInv (afterEvent e p).
Proof.
  intros [Hs Hk] Hen. unfold ScoreInv.
  destruct (quizSubmitted (state p)) eqn:Hsub.
  - destruct (submitted_step e p Hsub Hen) as (H1 & H2 & H3 & _).
    cbn zeta in H1, H2, H3. rewrite H1, H2, H3.
    split; [intros _; now apply Hs | right; now left].
  - clear Hs Hen. unfold afterEvent. cbn [state stale].
    destruct e; cbn [handlePage handle].
    + (* Tick *)
      pose proof (intervalCallback_state p) as Hc. cbn zeta in Hc.
      rewrite Hc, Hsub. cbn [negb]. rewrite andb_true_r.
      destruct (Z.ltb_spec 0 (timeRemaining (state p))) as [Hpos | Hnon].
      * destruct (Z.leb_spec (timeRemaining (state p)) 1) as [H1 | H1];
          cbn [quizSubmitted score questions timeRemaining].
        -- split; [intros _ | right; now left].
           unfold seen.
           destruct Hk as [-> | [Hk | [Hk | Hk]]];
             [reflexivity | discriminate | lia | lia].
        -- split; [discriminate|]. left.
           assert (E : (timeRemaining (state p) - 1
                        =? timeRemaining (state p))%Z = false)
             by (apply Z.eqb_neq; lia).
           now rewrite E.
      * rewrite Hsub, Z.eqb_refl. cbn.
        split; [discriminate|].
        destruct Hk as [Hk | [Hk | [Hk | Hk]]]; auto.
    + (* Expiry *)
      unfold expiryEffect. rewrite Hsub. cbn [negb]. rewrite andb_true_r.
      destruct ((timeRemaining (state p) =? 0)%Z
                && (0 <? List.length (questions (state p)))%nat);
        destruct (state p) as [qs i t sub sc w f ex er ld fe]; cbn in *.
      * split; [reflexivity | right; now left].
      * subst sub. rewrite Z.eqb_refl. cbn. split; [discriminate | exact Hk].
    + (* AnswerSelect *)
      unfold handleAnswerSelect.
      destruct (nth_error (questions (state p))
                  (currentQuestionIndex (state p)));
        destruct (state p) as [qs i t sub sc w f ex er ld fe]; cbn in *;
        subst sub; rewrite Z.eqb_refl; cbn;
        (split; [discriminate | exact Hk]).
    + (* NextQuestion *)
      unfold goToNextQuestion.
      destruct (nth_error (questions (state p))
                  (currentQuestionIndex (state p))) as [q|];
        [destruct (negb (JS.truthy_opt (selectedAnswer q)));
         [|destruct (Z.of_nat (currentQuestionIndex (state p))
                     =? Z.of_nat (List.length (questions (state p))) - 1)%Z]|];
        destruct (state p) as [qs i t sub sc w f ex er ld fe]; cbn in *;
        subst sub; rewrite ?Z.eqb_refl; cbn;
        first [split; [discriminate | exact Hk]
              | split; [reflexivity | right; now left]].
    + (* ToggleExpansion *)
      unfold toggleQuestionExpansion. rewrite Hsub.
      cbn. rewrite Hsub, Z.eqb_refl. cbn. split; [discriminate | exact Hk].
    + (* OnlyIncorrect *)
      destruct (state p) as [qs i t sub sc w f ex er ld fe]; cbn in *;
        subst sub; rewrite Z.eqb_refl; cbn.
      split; [discriminate | exact Hk].
Qed.

Lemma ScoreInv_play (es : list Event) (p : Page) :
  ScoreInv p -> ScoreInv (play es p).
Proof.
  revert p. induction es as [|e es IH]; intros p H; [exact H|].
  cbn [play]. apply IH. destruct (enabled e (state p)) eqn:Hen; [|exact H].
  now apply ScoreInv_step.
Qed.

(** X5: From any moment at which the quiz is running and either at least
    two seconds are left or the interval reads the questions of the state,
    as it does once it has fired after they arrived, the score counts
    every answer given up to the submission, whether the last button or the
    timer submits, an answer selected in the last second included: the
    interval reads an array of an earlier render, but the questions in it
    are the objects the answers are written into.  The two counts of
    correct answers on the result screen agree. *)
Theorem score_agrees_with_recount (es : list Event) (p : Page) :
  quizSubmitted (state p) = false ->
  (2 <= timeRemaining (state p))%Z \/ stale p = None ->
  let s' := state (play es p) in
  (quizSubmitted s' = true -> score s' = correctAnswers (questions s'))
  /\ forall displayed correct total recount shown colour expanded,
       render s'
       = inr (Results displayed correct total recount shown colour expanded)
       -> correct = recount.
Proof.
  intros Hsub Hk s'.
  assert (H : ScoreInv p)
    by (split; [congruence | destruct Hk; [right; right; now left
                                          | now left]]).
  destruct (ScoreInv_play es p H) as [Hs _]. fold s' in Hs.
  split; [exact Hs|].
  intros displayed correct total recount shown colour expanded Hr.
  unfold render in Hr.
  destruct (isLoading s'); [discriminate|].
  destruct (JS.truthy_opt (fetchError s')); [discriminate|].
  destruct (List.length (questions s') =? 0)%nat; [discriminate|].
  destruct (quizSubmitted s') eqn:Hsub'.
  - injection Hr as _ <- _ <- _ _ _. now apply Hs.
  - destruct (nth_error (questions s') (currentQuestionIndex s'));
      discriminate.
Qed.

(** X6: Once the quiz is submitted, nothing the user does and no firing of the
    timer changes the score, the answers, the clock, the position or the
    warning: the submission stays, and only the filter and the open card of
    the review move. *)
Theorem submission_is_final (es : list Event) (p : Page) :
  quizSubmitted (state p) = true ->
  let s' := state (play es p) in
  quizSubmitted s' = true
  /\ score s' = score (state p)
  /\ questions s' = questions (state p)
  /\ timeRemaining s' = timeRemaining (state p)
  /\ currentQuestionIndex s' = currentQuestionIndex (state p)
  /\ showWarning s' = showWarning (state p).
Proof. exact (submitted_play es p). Qed.

Lemma ticksOf_cons (e : Event) (es : list Event) :
  ticksOf (e :: es)
  = (match e with Tick => 1 | _ => 0 end) + ticksOf es.
Proof. unfold ticksOf. destruct e; reflexivity. Qed.

(** One event of a running quiz with time left. *)
Lemma running_step (e : Event) (p : Page) :
  quizSubmitted (state p) = false -> (0 < timeRemaining (state p))%Z ->
  let s' := state (afterEvent e p) in
  let d := match e with Tick => 1%Z | _ => 0%Z end in
  (quizSubmitted s' = false ->
     timeRemaining s' = (timeRemaining (state p) - d)%Z
     /\ (0 < timeRemaining s')%Z)
  /\ (0 <= timeRemaining s' <= timeRemaining (state p))%Z
  /\ (showWarning (state p) = false -> (timeRemaining (state p) < 30)%Z ->
      showWarning s' = false).
Proof.
  intros Hsub Hpos. unfold afterEvent. cbn [state].
  destruct (Event_eq_Tick_dec e) as [-> | Hne].
  - cbn [handlePage].
    pose proof (intervalCallback_state p) as Hc. cbn zeta in Hc.
    rewrite Hc, Hsub.
    assert (H0 : (0 <? timeRemaining (state p))%Z = true)
      by now apply Z.ltb_lt.
    rewrite H0. cbn [negb andb].
    destruct (timeRemaining (state p) <=? 1)%Z eqn:H1.
    + apply Z.leb_le in H1. cbn.
      split; [discriminate|]. split; [lia | auto].
    + apply Z.leb_gt in H1. cbn.
      split; [intros _; lia|]. split; [lia|]. intros Hw H30.
      destruct (Z.eqb_spec (timeRemaining (state p)) 30); [lia | exact Hw].
  - rewrite (handlePage_handle e p Hne).
    destruct (handle_keeps_clock e (state p) true Hne) as (Ht & Hw & _).
    cbn zeta. rewrite Ht, Hw.
    destruct e; try congruence; (split; [intros _; lia|]; split; [lia | auto]).
Qed.

Lemma play_clock (es : list Event) (p : Page) :
  quizSubmitted (state p) = false -> (0 < timeRemaining (state p))%Z ->
  let s' := state (play es p) in
  (quizSubmitted s' = false ->
     timeRemaining s'
     = (timeRemaining (state p) - Z.of_nat (ticksOf es))%Z
     /\ (0 < timeRemaining s')%Z)
  /\ (0 <= timeRemaining s' <= timeRemaining (state p))%Z.
Proof.
  revert p. induction es as [|e es IH]; intros p Hsub Hpos.
  - cbn. split; [intros _|]; lia.
  - cbn [play]. rewrite ticksOf_cons. cbn zeta.
    destruct (enabled e (state p)) eqn:Hen.
    + destruct (running_step e p Hsub Hpos) as (Hrun & Hbound & _).
      destruct (quizSubmitted (state (afterEvent e p))) eqn:Hsub'.
      * destruct (submitted_play es _ Hsub') as (K1 & _ & _ & K4 & _).
        rewrite K1, K4. split; [discriminate | exact Hbound].
      * destruct (Hrun eq_refl) as [Ht Hpos'].
        destruct (IH _ Hsub' Hpos') as [Hgo Hb].
        split; [|lia]. intros Hfin. destruct (Hgo Hfin) as [G1 G2].
        split; [|exact G2]. rewrite G1, Ht. destruct e; lia.
    + assert (Hd : match e with Tick => 1 | _ => 0 end = 0)
        by (destruct e; try reflexivity; discriminate Hen).
      rewrite Hd. now apply IH.
Qed.

(** X7: While the quiz runs, the clock shows the time there was less one second
    for every firing of the interval, whatever else happened in between; it
    never goes up and never below zero. *)
Theorem clock_counts_ticks (es : list Event) (p : Page) :
  quizSubmitted (state p) = false -> (0 < timeRemaining (state p))%Z ->
  let s' := state (play es p) in
  (quizSubmitted s' = false ->
     timeRemaining s'
     = (timeRemaining (state p) - Z.of_nat (ticksOf es))%Z
     /\ (0 < timeRemaining s')%Z)
  /\ (0 <= timeRemaining s' <= timeRemaining (state p))%Z.
Proof. exact (play_clock es p). Qed.

(** X8: When the interval has fired as often as there were seconds left, the
    quiz is submitted, answered or not.  If it was running with at least
    two seconds left, or with an interval that reads the questions of the
    state, the score is then the number of questions answered correctly by
    that time; and a session on the screen shows its result screen. *)
Theorem timer_forces_submission (es : list Event) (p : Page) :
  (0 < timeRemaining (state p) <= Z.of_nat (ticksOf es))%Z ->
  let s' := state (play es p) in
  quizSubmitted s' = true
  /\ (quizSubmitted (state p) = false ->
      (2 <= timeRemaining (state p))%Z \/ stale p = None ->
      score s' = correctAnswers (questions s'))
  /\ (PageInv p -> questions (state p) <> [] ->
      render s'
      = inr (Results (displayedQuestions s') (score s')
               (List.length (questions s')) (correctAnswers (questions s'))
               (percentage s') (scoreColor s') (expandedQuestionIndex s'))).
Proof.
  intros [Hpos Hticks] s'.
  assert (Hsub : quizSubmitted s' = true).
  { destruct (quizSubmitted (state p)) eqn:Hs; [now apply submitted_play|].
    destruct (play_clock es p Hs Hpos) as [Hrun _]. fold s' in Hrun.
    destruct (quizSubmitted s'); [reflexivity|].
    destruct (Hrun eq_refl). lia. }
  split; [exact Hsub|]. split.
  - intros Hrun Hk.
    assert (H : ScoreInv p)
      by (split; [congruence | destruct Hk; [right; right; now left
                                            | now left]]).
    destruct (ScoreInv_play es p H) as [Hs _]. now apply Hs.
  - intros Hinv Hne.
    destruct (PageInv_play es p Hinv) as [[(Hl & He & _) _] Hfix].
    fold s' in Hl, He, Hfix.
    rewrite (render_session s' Hl He), Hsub.
    assert (Hlen : List.length (questions s')
                   = List.length (questions (state p)))
      by (rewrite <- (length_map fixedPart), Hfix; apply length_map).
    rewrite Hlen at 1.
    destruct (questions (state p)); [congruence | reflexivity].
Qed.

(** X9: A warning that is off with less than thirty seconds on the clock stays
    off: a session whose time budget is below thirty seconds is never
    warned, while its clock is red from the first moment. *)
Theorem short_budget_never_warns (es : list Event) (p : Page) :
  (0 < timeRemaining (state p) < 30)%Z -> showWarning (state p) = false ->
  quizSubmitted (state p) = false ->
  let s' := state (play es p) in
  showWarning s' = false
  /\ forall q position total clock clockRed warning error button,
       render s'
       = inr (Answering q position total clock clockRed warning error button)
       -> clockRed = true /\ warning = false.
Proof.
  intros Ht Hw Hsub s'.
  assert (H : showWarning s' = false /\ (timeRemaining s' < 30)%Z).
  { unfold s'. clear s'. revert p Ht Hw Hsub.
    induction es as [|e es IH]; intros p Ht Hw Hsub; cbn [play];
      [split; [exact Hw | lia]|].
    destruct (enabled e (state p)) eqn:Hen; [|now apply IH].
    destruct (running_step e p Hsub ltac:(lia)) as (Hrun & Hb & Hkeep).
    specialize (Hkeep Hw ltac:(lia)).
    destruct (quizSubmitted (state (afterEvent e p))) eqn:Hsub'.
    - destruct (submitted_play es _ Hsub') as (_ & _ & _ & K4 & _ & K6).
      cbn zeta in K4, K6. rewrite K4, K6. split; [exact Hkeep | lia].
    - destruct (Hrun eq_refl) as [_ Hpos']. apply IH; [lia | exact Hkeep
                                                       | exact Hsub']. }
  destruct H as [H1 H2]. split; [exact H1|].
  intros q position total clock clockRed warning error button Hr.
  unfold render in Hr.
  destruct (isLoading s'); [discriminate|].
  destruct (JS.truthy_opt (fetchError s')); [discriminate|].
  destruct (List.length (questions s') =? 0)%nat; [discriminate|].
  destruct (quizSubmitted s'); [discriminate|].
  destruct (nth_error (questions s') (currentQuestionIndex s'));
    [|discriminate].
  injection Hr as _ _ _ _ <- <- _ _. split; [apply Z.leb_le; lia | exact H1].
Qed.

(** ** Selecting answers *)

Lemma update_update {A : Type} (i : nat) (v w : A) (l : list A) :
  update i w (update i v l) = update i w l.
Proof.
  revert i. induction l as [|h t IH]; intros i; [now destruct i|].
  destruct i; simpl; [reflexivity | now rewrite IH].
Qed.

Lemma update_app_middle {A : Type} (pre post : list A) (x v : A) :
  update (List.length pre) v (pre ++ x :: post) = pre ++ v :: post.
Proof. induction pre as [|h t IH]; simpl; [reflexivity | now rewrite IH]. Qed.

Lemma nth_error_middle {A : Type} (pre post : list A) (x : A) :
  nth_error (pre ++ x :: post) (List.length pre) = Some x.
Proof. induction pre as [|h t IH]; simpl; [reflexivity | exact IH]. Qed.

(** The state after an answer is selected for a question that is there. *)
Lemma handleAnswerSelect_state (a : string) (s : State) (q : QuizQuestion) :
  nth_error (questions s) (currentQuestionIndex s) = Some q ->
  snd (handleAnswerSelect a s) = None
  /\ run (fst (handleAnswerSelect a s)) s
     = mkState
         (update (currentQuestionIndex s) (withSelectedAnswer a q)
            (questions s))
         (currentQuestionIndex s) (timeRemaining s) (quizSubmitted s) (score s)
         (showWarning s) (showOnlyIncorrect s) (expandedQuestionIndex s)
         false (isLoading s) (fetchError s).
Proof.
  intros Hq. unfold handleAnswerSelect. rewrite Hq.
  destruct s; split; reflexivity.
Qed.

(** X10: Selecting an answer replaces the one selected before: after a second
    choice the session is what the second choice alone would have made it.
    The choice touches the current question only, and there only the
    selected answer; it withdraws the request to answer, and it never
    throws while the index is on a question. *)
Theorem answer_last_write_wins (a b : string) (s : State) (q : QuizQuestion) :
  nth_error (questions s) (currentQuestionIndex s) = Some q ->
  let s1 := run (fst (handleAnswerSelect a s)) s in
  run (fst (handleAnswerSelect b s1)) s1 = run (fst (handleAnswerSelect b s)) s
  /\ snd (handleAnswerSelect a s) = None
  /\ nth_error (questions s1) (currentQuestionIndex s1)
     = Some (withSelectedAnswer a q)
  /\ (forall j, j <> currentQuestionIndex s ->
        nth_error (questions s1) j = nth_error (questions s) j)
  /\ fixedPart (withSelectedAnswer a q) = fixedPart q
  /\ showError s1 = false.
Proof.
  intros Hq s1.
  assert (Hlt : currentQuestionIndex s < List.length (questions s))
    by (apply nth_error_Some; congruence).
  destruct (handleAnswerSelect_state a s q Hq) as [Hn Hs1].
  destruct (handleAnswerSelect_state b s q Hq) as [_ Hs2].
  assert (Hq1 : nth_error (questions s1) (currentQuestionIndex s1)
                = Some (withSelectedAnswer a q)).
  { unfold s1. rewrite Hs1. cbn [questions currentQuestionIndex].
    rewrite update_nth_error by exact Hlt. now rewrite Nat.eqb_refl. }
  split.
  - destruct (handleAnswerSelect_state b s1 _ Hq1) as [_ ->].
    rewrite Hs2. unfold s1. rewrite Hs1.
    cbn [questions currentQuestionIndex timeRemaining quizSubmitted score
         showWarning showOnlyIncorrect expandedQuestionIndex isLoading
         fetchError].
    now rewrite update_update.
  - split; [exact Hn|]. split; [exact Hq1|]. split; [|split].
    + intros j Hj. unfold s1. rewrite Hs1. cbn [questions].
      rewrite update_nth_error by exact Hlt.
      destruct (j =? currentQuestionIndex s)%nat eqn:E; [|reflexivity].
      apply Nat.eqb_eq in E. contradiction.
    + reflexivity.
    + unfold s1. now rewrite Hs1.
Qed.

Lemma correctAnswers_app (l1 l2 : list QuizQuestion) :
  correctAnswers (l1 ++ l2) = correctAnswers l1 + correctAnswers l2.
Proof. unfold correctAnswers. now rewrite filter_app, length_app. Qed.

Lemma In_existsb_eqb (a : string) (l : list string) :
  In a l -> existsb (String.eqb a) l = true.
Proof.
  intros H. apply existsb_exists. exists a. split; [exact H|].
  apply String.eqb_refl.
Qed.

Lemma truthy_nonempty (a : string) : a <> EmptyString -> JS.truthy a = true.
Proof. destruct a; [congruence | reflexivity]. Qed.

(** The state after an answer is selected on a page. *)
Lemma afterEvent_answer (a : string) (p : Page) (q : QuizQuestion) :
  nth_error (questions (state p)) (currentQuestionIndex (state p)) = Some q ->
  afterEvent (AnswerSelect a) p
  = mkPage
      (mkState
         (update (currentQuestionIndex (state p)) (withSelectedAnswer a q)
            (questions (state p)))
         (currentQuestionIndex (state p)) (timeRemaining (state p))
         (quizSubmitted (state p)) (score (state p)) (showWarning (state p))
         (showOnlyIncorrect (state p)) (expandedQuestionIndex (state p))
         false (isLoading (state p)) (fetchError (state p)))
      (stale p).
Proof.
  intros Hq. unfold afterEvent. cbn [handlePage handle].
  destruct (handleAnswerSelect_state a (state p) q Hq) as [_ ->].
  cbn [timeRemaining quizSubmitted]. now rewrite Z.eqb_refl, eqb_reflx.
Qed.

(** ** Answering every question *)

Lemma afterEvent_next (p : Page) (q : QuizQuestion) :
  nth_error (questions (state p)) (currentQuestionIndex (state p)) = Some q ->
  JS.truthy_opt (selectedAnswer q) = true ->
  quizSubmitted (state p) = false ->
  state (afterEvent NextQuestion p)
  = if (Z.of_nat (currentQuestionIndex (state p))
        =? Z.of_nat (List.length (questions (state p))) - 1)%Z
    then mkState (questions (state p)) (currentQuestionIndex (state p))
           (timeRemaining (state p)) true
           (correctAnswers (questions (state p))) (showWarning (state p))
           (showOnlyIncorrect (state p)) (expandedQuestionIndex (state p))
           false (isLoading (state p)) (fetchError (state p))
    else mkState (questions (state p)) (currentQuestionIndex (state p) + 1)
           (timeRemaining (state p)) false (score (state p))
           (showWarning (state p)) (showOnlyIncorrect (state p))
           (expandedQuestionIndex (state p)) false (isLoading (state p))
           (fetchError (state p)).
Proof.
  intros Hq Ht Hsub. unfold afterEvent. cbn [state handlePage handle].
  unfold goToNextQuestion. rewrite Hq, Ht. cbn [negb].
  destruct (Z.of_nat (currentQuestionIndex (state p))
            =? Z.of_nat (List.length (questions (state p))) - 1)%Z;
    destruct (state p); cbn in *; now subst.
Qed.

(** The steps of [walk] from the question at the end of [pre]. *)
Lemma walk_from (answers : list string) (post : list QuizQuestion) :
  Forall2 (fun a q => a <> EmptyString /\ In a (options q)) answers post ->
  forall (pre : list QuizQuestion) (p : Page),
    post <> [] ->
    questions (state p) = pre ++ post ->
    currentQuestionIndex (state p) = List.length pre ->
    isLoading (state p) = false -> fetchError (state p) = None ->
    quizSubmitted (state p) = false ->
    let s' := state (play (walk answers) p) in
    quizSubmitted s' = true
    /\ questions s' = pre ++ selectAll answers post
    /\ score s' = correctAnswers (pre ++ selectAll answers post)
    /\ timeRemaining s' = timeRemaining (state p).
Proof.
  induction 1 as [|a q answers post [Ha Hin] Hrest IH];
    intros pre p Hne Hqs Hidx Hld Hfe Hsub; [congruence|].
  cbn [walk flat_map app play].
  assert (Hq : nth_error (questions (state p))
                 (currentQuestionIndex (state p)) = Some q)
    by (rewrite Hqs, Hidx; apply nth_error_middle).
  (* the option button *)
  assert (Hen1 : enabled (AnswerSelect a) (state p) = true).
  { unfold enabled. rewrite (render_session _ Hld Hfe), Hsub, Hq.
    assert (E : (List.length (questions (state p)) =? 0)%nat = false)
      by (apply Nat.eqb_neq; rewrite Hqs, length_app; simpl; lia).
    rewrite E. now apply In_existsb_eqb. }
  rewrite Hen1, (afterEvent_answer a p q Hq).
  set (q' := withSelectedAnswer a q).
  rewrite Hqs, Hidx, update_app_middle, Hld, Hfe, Hsub.
  match goal with |- context [play _ (if enabled _ (state ?pg) then _ else _)]
    => set (p1 := pg) end.
  assert (Hq1 : nth_error (questions (state p1))
                  (currentQuestionIndex (state p1)) = Some q')
    by (cbn; apply nth_error_middle).
  (* the button below *)
  assert (Hen2 : enabled NextQuestion (state p1) = true).
  { unfold enabled. rewrite (render_session (state p1) eq_refl eq_refl).
    cbn [p1 state questions quizSubmitted currentQuestionIndex].
    assert (E : (List.length (pre ++ q' :: post) =? 0)%nat = false)
      by (apply Nat.eqb_neq; rewrite length_app; simpl; lia).
    now rewrite E, nth_error_middle. }
  rewrite Hen2.
  assert (Ht : JS.truthy_opt (selectedAnswer q') = true)
    by (cbn; now apply truthy_nonempty).
  pose proof (afterEvent_next p1 q' Hq1 Ht eq_refl) as Hnext.
  cbn [p1 state questions currentQuestionIndex timeRemaining score
       showWarning showOnlyIncorrect expandedQuestionIndex isLoading
       fetchError] in Hnext.
  destruct post as [|q2 post].
  - (* the last question *)
    inversion Hrest; subst. cbn [walk flat_map play].
    assert (Hlast : (Z.of_nat (List.length pre)
                     =? Z.of_nat (List.length (pre ++ [q'])) - 1)%Z = true)
      by (apply Z.eqb_eq; rewrite length_app; simpl; lia).
    rewrite Hlast in Hnext. cbn zeta. rewrite Hnext. cbn.
    repeat split; reflexivity.
  - assert (Hlast : (Z.of_nat (List.length pre)
                     =? Z.of_nat (List.length (pre ++ q' :: q2 :: post)) - 1)%Z
                    = false)
      by (apply Z.eqb_neq; rewrite length_app; simpl; lia).
    rewrite Hlast in Hnext.
    destruct (IH (pre ++ [q']) (afterEvent NextQuestion p1))
      as (K1 & K2 & K3 & K4).
    + discriminate.
    + rewrite Hnext. cbn. now rewrite <- app_assoc.
    + rewrite Hnext. cbn. rewrite length_app. reflexivity.
    + now rewrite Hnext.
    + now rewrite Hnext.
    + now rewrite Hnext.
    + rewrite Hnext in K4. cbn [timeRemaining] in K4.
      rewrite <- app_assoc in K2, K3. cbn [app] in K2, K3.
      cbn zeta. cbn [selectAll]. fold q'.
      split; [exact K1|]. split; [exact K2|]. split; [exact K3 | exact K4].
Qed.

Lemma correctAnswers_selectAll (answers : list string)
    (qs : list QuizQuestion) :
  List.length answers = List.length qs ->
  correctAnswers (selectAll answers qs)
  = List.length
      (filter (fun aq => JS.strict_eq (Some (fst aq)) (answer (snd aq)))
         (combine answers qs)).
Proof.
  revert qs. induction answers as [|a answers IH]; intros [|q qs] Hl;
    try discriminate Hl; [reflexivity|].
  injection Hl as Hl. specialize (IH qs Hl).
  unfold correctAnswers in *. cbn [selectAll combine filter fst snd].
  unfold isCorrect at 1. cbn [selectedAnswer answer withSelectedAnswer].
  destruct (JS.strict_eq (Some a) (answer q)); cbn [List.length];
    now rewrite IH.
Qed.

(** X11: Selecting an option for every question, each followed by the button
    below, takes a fresh session through all its questions, every press on
    offer, and submits it at the last: the questions carry the answers
    given, and the score is the number of answers that equal the expected
    one of their question. *)
Theorem answering_every_question_submits (answers : list string) (p : Page) :
  isLoading (state p) = false -> fetchError (state p) = None ->
  quizSubmitted (state p) = false ->
  currentQuestionIndex (state p) = 0 -> questions (state p) <> [] ->
  Forall2 (fun a q => a <> EmptyString /\ In a (options q)) answers
    (questions (state p)) ->
  let s' := state (play (walk answers) p) in
  quizSubmitted s' = true
  /\ questions s' = selectAll answers (questions (state p))
  /\ score s'
     = List.length
         (filter (fun aq => JS.strict_eq (Some (fst aq)) (answer (snd aq)))
            (combine answers (questions (state p))))
  /\ timeRemaining s' = timeRemaining (state p).
Proof.
  intros Hld Hfe Hsub Hidx Hne Hall s'.
  destruct (walk_from answers (questions (state p)) Hall [] p Hne eq_refl Hidx
              Hld Hfe Hsub) as (K1 & K2 & K3 & K4).
  cbn [app] in K2, K3.
  split; [exact K1|]. split; [exact K2|]. split; [|exact K4].
  unfold s'. rewrite K3. apply correctAnswers_selectAll.
  now apply Forall2_length in Hall.
Qed.

(** ** Answers stay *)

(** An event leaves the questions alone or selects an answer for the
    current one. *)
Lemma step_questions (e : Event) (p : Page) :
  questions (run (handlePage e p) (state p)) = questions (state p)
  \/ exists a q,
       nth_error (questions (state p)) (currentQuestionIndex (state p))
       = Some q
       /\ questions (run (handlePage e p) (state p))
          = update (currentQuestionIndex (state p)) (withSelectedAnswer a q)
              (questions (state p)).
Proof.
  destruct e; cbn [handlePage handle].
  - left. pose proof (intervalCallback_state p) as Hc. cbn zeta in Hc.
    rewrite Hc.
    destruct ((0 <? timeRemaining (state p))%Z
              && negb (quizSubmitted (state p)));
      [destruct (timeRemaining (state p) <=? 1)%Z|]; reflexivity.
  - left. unfold expiryEffect.
    destruct ((timeRemaining (state p) =? 0)%Z
              && negb (quizSubmitted (state p))
              && (0 <? List.length (questions (state p)))%nat);
      destruct (state p); reflexivity.
  - unfold handleAnswerSelect.
    destruct (nth_error (questions (state p))
                (currentQuestionIndex (state p))) as [q|] eqn:Hq.
    + right. exists a, q. split; [reflexivity|].
      destruct (state p); reflexivity.
    + left. destruct (state p); reflexivity.
  - left. unfold goToNextQuestion.
    destruct (nth_error (questions (state p))
                (currentQuestionIndex (state p))) as [q|].
    + destruct (negb (JS.truthy_opt (selectedAnswer q)));
        [|destruct (Z.of_nat (currentQuestionIndex (state p))
                    =? Z.of_nat (List.length (questions (state p))) - 1)%Z];
        destruct (state p); reflexivity.
    + destruct (state p); reflexivity.
  - left. unfold toggleQuestionExpansion.
    destruct (quizSubmitted (state p)); destruct (state p); reflexivity.
  - left. destruct (state p); reflexivity.
Qed.

Lemma answeredAt_step (e : Event) (p : Page) (i : nat) :
  answeredAt (state p) i -> answeredAt (state (afterEvent e p)) i.
Proof.
  intros (q & a & Hq & Ha). unfold answeredAt, afterEvent. cbn [state].
  destruct (step_questions e p) as [-> | (b & q0 & Hq0 & ->)];
    [now exists q, a|].
  assert (Hlt : currentQuestionIndex (state p)
                < List.length (questions (state p)))
    by (apply nth_error_Some; congruence).
  rewrite update_nth_error by exact Hlt.
  destruct (i =? currentQuestionIndex (state p))%nat.
  - exists (withSelectedAnswer b q0), b. split; reflexivity.
  - now exists q, a.
Qed.

(** X12: An answer can be replaced but not withdrawn: a question that has an
    answer selected has one after whatever follows. *)
Theorem answers_are_never_cleared (es : list Event) (p : Page) (i : nat) :
  answeredAt (state p) i -> answeredAt (state (play es p)) i.
Proof.
  revert p. induction es as [|e es IH]; intros p H; [exact H|].
  cbn [play]. apply IH. destruct (enabled e (state p)); [|exact H].
  now apply answeredAt_step.
Qed.

(** ** The cards of the review *)

Lemma filter_length_lt {A : Type} (f : A -> bool) (l : list A) (x : A) :
  In x l -> f x = false -> List.length (filter f l) < List.length l.
Proof.
  induction l as [|h t IH]; intros Hin Hf; [contradiction|].
  cbn [filter]. destruct Hin as [-> | Hin].
  - rewrite Hf. pose proof (filter_length_le f t). simpl. lia.
  - specialize (IH Hin Hf). destruct (f h); simpl; lia.
Qed.

(** An element of a filtered list comes from the position that has as many
    kept elements before it. *)
Lemma nth_error_filter {A : Type} (f : A -> bool) (l : list A) (i : nat)
    (x : A) :
  nth_error (filter f l) i = Some x ->
  exists k, nth_error l k = Some x /\ f x = true
            /\ i = List.length (filter f (firstn k l)).
Proof.
  revert i. induction l as [|h t IH]; intros i Hx;
    [destruct i; discriminate|].
  cbn [filter] in Hx. destruct (f h) eqn:Hh.
  - destruct i as [|i].
    + injection Hx as <-. exists 0. now repeat split.
    + destruct (IH i Hx) as (k & Hk & Hf & Hi).
      exists (S k). split; [exact Hk|]. split; [exact Hf|].
      cbn [firstn filter]. rewrite Hh. simpl. now rewrite <- Hi.
  - destruct (IH i Hx) as (k & Hk & Hf & Hi).
    exists (S k). split; [exact Hk|]. split; [exact Hf|].
    cbn [firstn filter]. now rewrite Hh.
Qed.

Lemma filter_shifts {A : Type} (f : A -> bool) (l : list A) (i j : nat)
    (x y : A) :
  j <= i -> nth_error l j = Some y -> f y = false ->
  nth_error (filter f l) i = Some x ->
  f x = true /\ exists k, i < k /\ nth_error l k = Some x.
Proof.
  intros Hji Hy Hfy Hx.
  destruct (nth_error_filter f l i x Hx) as (k & Hk & Hfx & Hi).
  split; [exact Hfx|]. exists k. split; [|exact Hk].
  assert (Hkl : k < List.length l) by (apply nth_error_Some; congruence).
  pose proof (filter_length_le f (firstn k l)) as Hle.
  rewrite length_firstn in Hle.
  destruct (Nat.lt_ge_cases i k) as [|Hge]; [assumption|exfalso].
  assert (Hik : i = k) by lia. subst k.
  destruct (Nat.eq_dec j i) as [-> | Hne].
  - congruence.
  - assert (Hin : In y (firstn i l)).
    { apply (nth_error_In _ j). rewrite nth_error_firstn.
      destruct (Nat.ltb_spec j i); [exact Hy | lia]. }
    pose proof (filter_length_lt f _ y Hin Hfy) as Hlt.
    rewrite length_firstn in Hlt. lia.
Qed.

(** X13: The open card is kept by its position among the displayed cards, not by
    its question.  With a correctly answered question at or before the open
    position, turning the filter on leaves the position as it is, and the
    card shown open is then no card at all or a wrongly answered question
    from further down the session. *)
Theorem filter_moves_open_card (s : State) (i j : nat) (qj : QuizQuestion) :
  showOnlyIncorrect s = false ->
  expandedQuestionIndex s = Some i ->
  j <= i -> nth_error (questions s) j = Some qj -> isCorrect qj = true ->
  let s' := run (handle (OnlyIncorrect true) s) s in
  openCard s = nth_error (questions s) i
  /\ expandedQuestionIndex s' = Some i
  /\ match openCard s' with
     | None => True
     | Some q' =>
         isCorrect q' = false
         /\ exists k, i < k /\ nth_error (questions s) k = Some q'
     end.
Proof.
  intros Hoff Hex Hji Hj Hc s'.
  split; [unfold openCard, displayedQuestions; now rewrite Hex, Hoff|].
  assert (Hex' : expandedQuestionIndex s' = Some i)
    by (destruct s; exact Hex).
  split; [exact Hex'|].
  unfold openCard. rewrite Hex'.
  assert (Hd : displayedQuestions s'
               = filter (fun q => negb (isCorrect q)) (questions s))
    by (destruct s; reflexivity).
  rewrite Hd.
  destruct (nth_error (filter (fun q => negb (isCorrect q)) (questions s)) i)
    as [q'|] eqn:Hq'; [|exact I].
  destruct (filter_shifts (fun q => negb (isCorrect q)) (questions s) i j q' qj
              Hji Hj) as [Hf Hk]; [now rewrite Hc | exact Hq' |].
  apply negb_true_iff in Hf. now split.
Qed.

(** X14: A click on a card of the result screen opens it and closes the one that
    was open, a click on the open card closes it, so that at most one card
    is open; two clicks on a card give back the review as it was unless
    another card was open; before the submission a click does nothing. *)
Theorem toggleQuestionExpansion_one_card (i : nat) (s : State) :
  let s' := run (toggleQuestionExpansion i s) s in
  (quizSubmitted s = false -> s' = s)
  /\ (quizSubmitted s = true ->
      displayedQuestions s' = displayedQuestions s
      /\ (expandedQuestionIndex s = Some i -> openCard s' = None)
      /\ (expandedQuestionIndex s <> Some i ->
          openCard s' = nth_error (displayedQuestions s) i)
      /\ (expandedQuestionIndex s = Some i \/ expandedQuestionIndex s = None ->
          run (toggleQuestionExpansion i s') s' = s)).
Proof.
  intros s'. split; intros Hsub.
  - unfold s', toggleQuestionExpansion. now rewrite Hsub.
  - unfold s', toggleQuestionExpansion, openCard, displayedQuestions.
    rewrite Hsub.
    destruct s as [qs c t sub sc w f ex er ld fe]; cbn in *. subst sub.
    destruct ex as [k|]; cbn.
    + destruct (k =? i)%nat eqn:E; cbn.
      * apply Nat.eqb_eq in E. subst k.
        repeat split; try reflexivity; congruence.
      * apply Nat.eqb_neq in E. rewrite Nat.eqb_refl.
        repeat split; try reflexivity; intros H;
          try (destruct H as [H | H]); congruence.
    + rewrite Nat.eqb_refl. repeat split; try reflexivity; discriminate.
Qed.

(** ** Loading *)

Lemma initialTimeRemaining_pos (timeParam : option string) :
  (0 < initialTimeRemaining timeParam)%Z.
Proof.
  unfold initialTimeRemaining.
  destruct (timeSeconds timeParam) as [z|]; cbn; [|lia].
  destruct (0 <? z)%Z eqn:E; [now apply Z.ltb_lt | lia].
Qed.

Lemma reported_nonempty (e : FetchError) :
  exists m, reported e = SetFetchError (Some m) /\ m <> EmptyString
            /\ (message e <> EmptyString -> m = message e).
Proof.
  unfold reported. destruct (message e) as [|c r] eqn:Hm; cbn.
  - eexists. split; [reflexivity|]. split; [discriminate | congruence].
  - eexists. split; [reflexivity|]. split; [discriminate | reflexivity].
Qed.

Section Loading.

Variable sort : list bool -> list QuizQuestion -> list QuizQuestion.
Variable Number : string -> JS.number.

Lemma fetchQuizContent_phases (loc : Location) (fetch : string -> Fetched)
    (rnd : list bool) :
  fetchQuizContent sort Number loc fetch rnd
  = beforeAwait loc ++ afterAwait sort Number loc fetch rnd.
Proof.
  unfold fetchQuizContent, fetchBody, beforeAwait, afterAwait, reported.
  destruct (courseCodeOf (pathname loc)) as [e | code]; [reflexivity|].
  destruct (fetch code) as [m | [|] st [m | data]]; try reflexivity.
  destruct (List.length _ =? 0)%nat; reflexivity.
Qed.

(** The three courses of [fetchQuizContent]: an error of the URL, an error
    after the clock is set, a session. *)
Lemma fetchQuizContent_cases (loc : Location) (fetch : string -> Fetched)
    (rnd : list bool) :
  let setTime := SetTimeRemaining (initialTimeRemaining (timeParam loc)) in
  (exists e,
      courseCodeOf (pathname loc) = inl e
      /\ fetchBody sort Number loc fetch rnd = ([], Some e))
  \/ (exists code e,
      courseCodeOf (pathname loc) = inr code
      /\ fetchBody sort Number loc fetch rnd = ([setTime], Some e))
  \/ (exists code st data,
      courseCodeOf (pathname loc) = inr code
      /\ fetch code = Responds true st (Json data)
      /\ allQuestions (weeks Number (weeksParam loc)) data <> []
      /\ fetchBody sort Number loc fetch rnd
         = ([setTime;
             SetQuestions
               (JS.slice0
                  (shuffledQuestions sort rnd
                     (allQuestions (weeks Number (weeksParam loc)) data))
                  (numQuestions (numQuestionsParam loc)))], None)).
Proof.
  intros setTime. unfold fetchBody.
  destruct (courseCodeOf (pathname loc)) as [e | code]; [left; eauto|].
  right.
  destruct (fetch code) as [m | [|] st [m | data]] eqn:Hf;
    try (left; eauto; fail).
  destruct (List.length _ =? 0)%nat eqn:Hl; [left; eauto|].
  right. exists code, st, data.
  split; [reflexivity|]. split; [exact Hf|]. split; [|reflexivity].
  intros H. rewrite H in Hl. discriminate.
Qed.

(** The state [fetchQuizContent] leaves. *)
Lemma fetchQuizContent_state (loc : Location) (fetch : string -> Fetched)
    (rnd : list bool) (s : State) :
  let s' := run (fetchQuizContent sort Number loc fetch rnd) s in
  let acts := fst (fetchBody sort Number loc fetch rnd) in
  s' = mkState
         (questions (run acts s)) (currentQuestionIndex s)
         (timeRemaining (run acts s)) (quizSubmitted s) (score s)
         (showWarning s) (showOnlyIncorrect s) (expandedQuestionIndex s)
         (showError s) false
         (match snd (fetchBody sort Number loc fetch rnd) with
          | Some e => Some (if JS.truthy (message e) then message e
                            else "An unknown error occurred.")
          | None => None
          end).
Proof.
  cbn zeta.
  destruct (fetchQuizContent_cases loc fetch rnd)
    as [(e & _ & Hb) | [(code & e & _ & Hb)
                        | (code & st & data & _ & _ & _ & Hb)]];
    unfold fetchQuizContent; rewrite Hb; destruct s; reflexivity.
Qed.

(** X15: When [fetchQuizContent] fails, whatever the failure, the page shows the
    error screen with a message that is not empty: the message of the error
    when it has one, a fixed text otherwise.  The questions stay those of
    before, and the loading sign is off. *)
Theorem fetch_failure_screen (loc : Location) (fetch : string -> Fetched)
    (rnd : list bool) (e : FetchError) (s : State) :
  snd (fetchBody sort Number loc fetch rnd) = Some e ->
  let s' := run (fetchQuizContent sort Number loc fetch rnd) s in
  isLoading s' = false
  /\ questions s' = questions s
  /\ exists m,
       fetchError s' = Some m /\ m <> EmptyString
       /\ render s' = inr (FetchFailure m)
       /\ (message e <> EmptyString -> m = message e)
       /\ (message e = EmptyString -> m = "An unknown error occurred.").
Proof.
  intros He s'.
  pose proof (fetchQuizContent_state loc fetch rnd s) as Hs. cbn zeta in Hs.
  fold s' in Hs. rewrite He in Hs.
  assert (Hq : questions s' = questions s).
  { rewrite Hs. cbn [questions].
    destruct (fetchQuizContent_cases loc fetch rnd)
      as [(e' & _ & Hb) | [(code & e' & _ & Hb)
                          | (code & st & data & _ & _ & _ & Hb)]];
      rewrite Hb in *; try discriminate He; destruct s; reflexivity. }
  split; [now rewrite Hs|]. split; [exact Hq|].
  exists (if JS.truthy (message e) then message e
          else "An unknown error occurred.").
  split; [now rewrite Hs|].
  assert (Hne : (if JS.truthy (message e) then message e
                 else "An unknown error occurred.") <> EmptyString)
    by (destruct (message e); cbn; discriminate).
  split; [exact Hne|]. split.
  - unfold render. rewrite Hs.
    cbn [isLoading fetchError JS.truthy_opt].
    destruct (if JS.truthy (message e) then message e
              else "An unknown error occurred."); [congruence | reflexivity].
  - split; intros Hm; destruct (message e); cbn; congruence.
Qed.

(** X16: [fetchQuizContent] writes the loading sign, the error, the clock and
    the questions, and nothing else: run again on a session, for a new path, it
    leaves the position, the submission, the score, the warning and the
    review as they were.  A session submitted before stays submitted, and
    the result screen shows the old score over the new questions. *)
Theorem fetch_keeps_progress (loc : Location) (fetch : string -> Fetched)
    (rnd : list bool) (s : State) :
  let s' := run (fetchQuizContent sort Number loc fetch rnd) s in
  currentQuestionIndex s' = currentQuestionIndex s
  /\ quizSubmitted s' = quizSubmitted s
  /\ score s' = score s
  /\ showWarning s' = showWarning s
  /\ showOnlyIncorrect s' = showOnlyIncorrect s
  /\ expandedQuestionIndex s' = expandedQuestionIndex s
  /\ showError s' = showError s
  /\ (quizSubmitted s = true -> fetchError s' = None -> questions s' <> [] ->
      render s'
      = inr (Results (displayedQuestions s') (score s)
               (List.length (questions s')) (correctAnswers (questions s'))
               (percentage s') (scoreColor s') (expandedQuestionIndex s))).
Proof.
  intros s'.
  pose proof (fetchQuizContent_state loc fetch rnd s) as Hs. cbn zeta in Hs.
  fold s' in Hs.
  assert (H1 : currentQuestionIndex s' = currentQuestionIndex s)
    by now rewrite Hs.
  assert (H2 : quizSubmitted s' = quizSubmitted s) by now rewrite Hs.
  assert (H3 : score s' = score s) by now rewrite Hs.
  assert (H6 : expandedQuestionIndex s' = expandedQuestionIndex s)
    by now rewrite Hs.
  assert (Hl : isLoading s' = false) by now rewrite Hs.
  repeat (split; [now rewrite Hs|]).
  intros Hsub Hfe Hne.
  rewrite (render_session s' Hl Hfe), H2, Hsub, H3, H6.
  destruct (questions s'); [congruence | reflexivity].
Qed.

End Loading.

(** ** The questions of a fresh session *)

Lemma allQuestions_In (ws : list JS.number) (data : Bank.QuizContent)
    (q : QuizQuestion) :
  In q (allQuestions ws data) <->
  exists week bq,
    In week (Bank.weeks data) /\ In bq (Bank.questions week)
    /\ q = deriveQuestion week bq
    /\ match JS.parseInt (Bank.name week) with
       | Some z => In (JS.Int z) ws
       | None => In JS.NaN ws
       end.
Proof.
  assert (Hinc : forall week,
             JS.includes ws (JS.of_parseInt (JS.parseInt (Bank.name week)))
             = true
             <-> match JS.parseInt (Bank.name week) with
                 | Some z => In (JS.Int z) ws
                 | None => In JS.NaN ws
                 end).
  { intros week. unfold JS.includes. rewrite existsb_exists.
    destruct (JS.parseInt (Bank.name week)) as [z|]; cbn; split.
    - intros (y & Hy & He). destruct y as [|y|]; try discriminate.
      apply Z.eqb_eq in He. now subst.
    - intros H. exists (JS.Int z). split; [exact H|]. cbn. apply Z.eqb_refl.
    - intros (y & Hy & He). destruct y; try discriminate. exact Hy.
    - intros H. now exists JS.NaN. }
  unfold allQuestions. rewrite in_flat_map. split.
  - intros (week & Hw & Hq). apply filter_In in Hw as [Hw Hsel].
    apply in_map_iff in Hq as (bq & <- & Hbq).
    exists week, bq. repeat split; try assumption. now apply Hinc.
  - intros (week & bq & Hw & Hbq & -> & Hsel).
    exists week. split.
    + apply filter_In. split; [exact Hw | now apply Hinc].
    + apply in_map. exact Hbq.
Qed.

(** X17: The week filter: a session can hold a question exactly when its week is
    in the bank and the number its name starts with is among the requested
    ones.  A name that starts with no number passes exactly when a piece of
    the weeks parameter was not a number either, since [includes] finds
    [NaN].  Only membership counts: the order of the requested weeks and
    repetitions among them change nothing. *)
Theorem week_filter_selects (ws ws' : list JS.number)
    (data : Bank.QuizContent) :
  (forall q,
      In q (allQuestions ws data) <->
      exists week bq,
        In week (Bank.weeks data) /\ In bq (Bank.questions week)
        /\ q = deriveQuestion week bq
        /\ match JS.parseInt (Bank.name week) with
           | Some z => In (JS.Int z) ws
           | None => In JS.NaN ws
           end)
  /\ ((forall x, In x ws <-> In x ws') ->
      allQuestions ws data = allQuestions ws' data).
Proof.
  split; [intros q; apply allQuestions_In|].
  intros Hsame. unfold allQuestions. f_equal. apply filter_ext. intros week.
  unfold JS.includes. apply eq_true_iff_eq. rewrite !existsb_exists.
  split; intros (y & Hy & He); exists y; (split; [now apply Hsame | exact He]).
Qed.

(** X18: Of the answers the bank lists for a question only the first is
    expected: the question counts as correct when that one is selected, and
    as incorrect for every other choice, listed or not. *)
Theorem only_first_answer_scores (week : Bank.Week) (bq : Bank.Question)
    (first : string) (others : list string) (a : string) :
  Bank.answer bq = first :: others ->
  isCorrect (withSelectedAnswer a (deriveQuestion week bq)) = String.eqb a first
  /\ (In a others -> a <> first ->
      isCorrect (withSelectedAnswer a (deriveQuestion week bq)) = false).
Proof.
  intros Hans.
  assert (H : isCorrect (withSelectedAnswer a (deriveQuestion week bq))
              = String.eqb a first)
    by (unfold isCorrect; cbn; now rewrite Hans).
  split; [exact H|]. intros _ Hne. rewrite H. now apply String.eqb_neq.
Qed.

Lemma slice0_firstn {A : Type} (l : list A) (e : option Z) :
  exists k, JS.slice0 l e = firstn k l
            /\ k = match e with
                   | None => 0
                   | Some z =>
                       if (z <? 0)%Z
                       then List.length l - Z.to_nat (- z)
                       else Nat.min (Z.to_nat z) (List.length l)
                   end.
Proof.
  eexists. split; [|reflexivity]. unfold JS.slice0. f_equal.
  destruct e as [z|]; [|cbn; lia].
  destruct (z <? 0)%Z eqn:E;
    [apply Z.ltb_lt in E | apply Z.ltb_ge in E]; lia.
Qed.

Lemma In_firstn {A : Type} (k : nat) (l : list A) (x : A) :
  In x (firstn k l) -> In x l.
Proof.
  intros H. rewrite <- (firstn_skipn k l). apply in_or_app. now left.
Qed.

Section FreshSession.

Variable sort : list bool -> list QuizQuestion -> list QuizQuestion.
Variable Number : string -> JS.number.

Hypothesis sort_permutes :
  forall rnd l, Permutation (sort rnd l) l.

(** The session of a successful [fetchQuizContent]. *)
Lemma fetched_session (loc : Location) (fetch : string -> Fetched)
    (rnd : list bool) (code st : string) (data : Bank.QuizContent)
    (s : State) :
  courseCodeOf (pathname loc) = inr code ->
  fetch code = Responds true st (Json data) ->
  allQuestions (weeks Number (weeksParam loc)) data <> [] ->
  run (fetchQuizContent sort Number loc fetch rnd) s
  = mkState
      (JS.slice0
         (shuffledQuestions sort rnd
            (allQuestions (weeks Number (weeksParam loc)) data))
         (numQuestions (numQuestionsParam loc)))
      (currentQuestionIndex s) (initialTimeRemaining (timeParam loc))
      (quizSubmitted s) (score s) (showWarning s) (showOnlyIncorrect s)
      (expandedQuestionIndex s) (showError s) false None.
Proof.
  intros Hc Hf Hne.
  unfold fetchQuizContent, fetchBody. rewrite Hc, Hf.
  destruct (List.length _ =? 0)%nat eqn:Hl.
  - apply Nat.eqb_eq in Hl.
    destruct (allQuestions (weeks Number (weeksParam loc)) data);
      [congruence | discriminate].
  - destruct s; reflexivity.
Qed.

(** X19: A [numQ] that is not a number gives a session without questions and
    without an error, shown as the screen for no questions; a negative
    [numQ] leaves out that many of the shuffled candidates from the end. *)
Theorem session_count_unusual_numQ (loc : Location)
    (fetch : string -> Fetched) (rnd : list bool) (code st : string)
    (data : Bank.QuizContent) (s : State) :
  courseCodeOf (pathname loc) = inr code ->
  fetch code = Responds true st (Json data) ->
  let candidates := allQuestions (weeks Number (weeksParam loc)) data in
  let s' := run (fetchQuizContent sort Number loc fetch rnd) s in
  candidates <> [] ->
  (numQuestions (numQuestionsParam loc) = None ->
     questions s' = [] /\ fetchError s' = None
     /\ render s' = inr NoQuestions)
  /\ (forall n, numQuestions (numQuestionsParam loc) = Some n -> (n < 0)%Z ->
        List.length (questions s')
        = List.length candidates - Z.to_nat (- n)
        /\ exists shuffled,
             Permutation shuffled candidates
             /\ questions s'
                = firstn (List.length candidates - Z.to_nat (- n)) shuffled).
Proof.
  intros Hc Hf candidates s' Hne.
  unfold s'. rewrite (fetched_session loc fetch rnd code st data s Hc Hf Hne).
  fold candidates. split.
  - intros ->.
    assert (E : forall l : list QuizQuestion, JS.slice0 l None = []).
    { intros l. unfold JS.slice0. cbn [Z.ltb Z.compare].
      replace (Z.to_nat (Z.min 0 (Z.of_nat (List.length l)))) with 0 by lia.
      reflexivity. }
    unfold render. cbn [questions fetchError isLoading JS.truthy_opt].
    rewrite E. repeat split.
  - intros n -> Hn. cbn [questions].
    pose proof (sort_permutes rnd candidates) as Hperm.
    apply Z.ltb_lt in Hn. unfold JS.slice0. rewrite Hn.
    apply Z.ltb_lt in Hn.
    assert (Hlen : List.length (shuffledQuestions sort rnd candidates)
                   = List.length candidates)
      by (apply Permutation_length, Hperm).
    rewrite Hlen.
    replace (Z.to_nat (Z.max (Z.of_nat (List.length candidates) + n) 0))
      with (List.length candidates - Z.to_nat (- n)) by lia.
    split.
    + rewrite length_firstn, Hlen. lia.
    + exists (shuffledQuestions sort rnd candidates). now split.
Qed.

End FreshSession.


(** ** The percentage shown *)

(** The percentage printed for [score] of [len] and its colour. *)
Lemma percentage_nearest (sc len : nat) :
  0 < len -> sc <= len -> (Z.of_nat len < 2 ^ 32)%Z ->
  exists n : Z,
    toFixed1 (percentageDouble sc len) = Some n
    /\ (2 * Z.abs (n * Z.of_nat len - 1000 * Z.of_nat sc) <= Z.of_nat len)%Z
    /\ (0 <= n <= 1000)%Z
    /\ getScoreColor (numberOfTenths n) = tierClass (tierOfTenths n).
Proof.
  intros Hlen Hle Hbig.
  assert (Hacc : ieee_accurate sc len = true)
    by (apply ieee_accurate_always; [exact Hlen | exact Hle | lia]).
  unfold ieee_accurate in Hacc. unfold toFixed1.
  destruct (dyadic (percentageDouble sc len)) as [[num den]|];
    [|discriminate].
  apply andb_prop in Hacc as [Hden Hacc].
  apply Z.ltb_lt in Hden. apply Z.leb_le in Hacc.
  set (n := ((20 * num + den) / (2 * den))%Z).
  assert (Hnear : (2 * Z.abs (n * Z.of_nat len - 1000 * Z.of_nat sc)
                   <= Z.of_nat len)%Z)
    by (apply nearest_tenth; [exact Hden | lia | lia | exact Hacc]).
  assert (Hrange : (0 <= n <= 1000)%Z) by nia.
  exists n. split; [reflexivity|]. split; [exact Hnear|].
  split; [exact Hrange | now apply getScoreColor_tier].
Qed.

(** X22: When a thousand times the score is a multiple of the number of
    questions, the percentage shown is the exact one: 100.0 in the colour of
    the high tier for a session answered correctly throughout, 0.0 in that
    of the low tier for one without a correct answer, 75.0 for three of
    four. *)
Theorem percentage_exact_when_divisible (s : State) :
  let len := List.length (questions s) in
  0 < len -> score s <= len -> (Z.of_nat len < 2 ^ 32)%Z ->
  (Z.of_nat len | 1000 * Z.of_nat (score s))%Z ->
  let n := (1000 * Z.of_nat (score s) / Z.of_nat len)%Z in
  percentage s = Some n
  /\ scoreColor s = tierClass (tierOfTenths n)
  /\ (score s = len ->
      percentage s = Some 1000%Z /\ scoreColor s = tierClass High)
  /\ (score s = 0 ->
      percentage s = Some 0%Z /\ scoreColor s = tierClass Low).
Proof.
  intros len Hlen Hle Hbig [k Hk] n.
  destruct (percentage_nearest (score s) len Hlen Hle Hbig)
    as (m & Hm & Hnear & Hrange & Hcol).
  assert (Hn : n = k)
    by (unfold n; rewrite Hk; apply Z.div_mul; lia).
  assert (Hmk : m = k).
  { rewrite Hk in Hnear.
    replace (m * Z.of_nat len - k * Z.of_nat len)%Z
      with ((m - k) * Z.of_nat len)%Z in Hnear by ring.
    rewrite Z.abs_mul in Hnear.
    rewrite (Z.abs_eq (Z.of_nat len)) in Hnear by lia.
    assert (Z.abs (m - k) < 1)%Z by nia. lia. }
  assert (Hp : percentage s = Some n)
    by (unfold percentage; fold len; rewrite Hm; congruence).
  assert (Hc : scoreColor s = tierClass (tierOfTenths n))
    by (unfold scoreColor; rewrite Hp; rewrite Hn, <- Hmk; exact Hcol).
  split; [exact Hp|]. split; [exact Hc|]. split; intros Hs.
  - assert (E : n = 1000%Z) by (rewrite Hn; nia).
    rewrite Hp, Hc, E. now split.
  - assert (E : n = 0%Z) by (rewrite Hn; nia).
    rewrite Hp, Hc, E. now split.
Qed.

(** X23: Of two results over the same number of questions, with scores not
    above that number, the one with the higher score never shows the lower
    percentage, and never the worse colour; both percentages lie between
    0.0 and 100.0.  A score above the number of questions, as a second
    fetch on a submitted session can leave it, is not covered. *)
Theorem percentage_monotone (s1 s2 : State) :
  let len := List.length (questions s1) in
  List.length (questions s2) = len ->
  0 < len -> (Z.of_nat len < 2 ^ 32)%Z ->
  score s1 <= score s2 -> score s2 <= len ->
  exists n1 n2 : Z,
    percentage s1 = Some n1 /\ percentage s2 = Some n2
    /\ (0 <= n1 <= n2)%Z /\ (n2 <= 1000)%Z
    /\ (scoreColor s1 = tierClass High -> scoreColor s2 = tierClass High)
    /\ (scoreColor s2 = tierClass Low -> scoreColor s1 = tierClass Low).
Proof.
  intros len Hsame Hlen Hbig H12 H2.
  destruct (percentage_nearest (score s1) len Hlen ltac:(lia) Hbig)
    as (n1 & Hp1 & Hn1 & Hr1 & Hc1).
  destruct (percentage_nearest (score s2) len Hlen H2 Hbig)
    as (n2 & Hp2 & Hn2 & Hr2 & Hc2).
  assert (Hle : (n1 <= n2)%Z).
  { destruct (Nat.eq_dec (score s1) (score s2)) as [E | Hne].
    - rewrite E in Hp1. rewrite Hp1 in Hp2. injection Hp2 as ->. lia.
    - assert (Z.of_nat (score s1) + 1 <= Z.of_nat (score s2))%Z by lia.
      destruct (Z.le_gt_cases n1 n2) as [|Hgt]; [assumption|exfalso].
      assert ((n2 + 1) * Z.of_nat len <= n1 * Z.of_nat len)%Z
        by (apply Z.mul_le_mono_nonneg_r; lia).
      lia. }
  exists n1, n2.
  assert (P1 : percentage s1 = Some n1) by (unfold percentage; exact Hp1).
  assert (P2 : percentage s2 = Some n2)
    by (unfold percentage; rewrite Hsame; exact Hp2).
  split; [exact P1|]. split; [exact P2|]. split; [lia|]. split; [lia|].
  unfold scoreColor. rewrite P1, P2, Hc1, Hc2. unfold tierOfTenths.
  destruct (800 <=? n1)%Z eqn:A1; destruct (800 <=? n2)%Z eqn:A2;
    destruct (600 <=? n1)%Z eqn:B1; destruct (600 <=? n2)%Z eqn:B2;
    split; intros Hx; try reflexivity; try discriminate Hx; exfalso;
    repeat match goal with
           | H : (_ <=? _)%Z = true |- _ => apply Z.leb_le in H
           | H : (_ <=? _)%Z = false |- _ => apply Z.leb_gt in H
           end; lia.
Qed.


(** ** The clock while the questions load *)

Lemma play_ticks_submitted (k : nat) (p : Page) :
  quizSubmitted (state p) = true ->
  state (play (repeat Tick k) p) = state p.
Proof.
  intros Hsub. revert p Hsub. induction k as [|k IH]; intros p Hsub;
    [reflexivity|].
  cbn [repeat play enabled].
  assert (Hs : state (afterEvent Tick p) = state p).
  { unfold afterEvent. cbn [state handlePage].
    pose proof (intervalCallback_state p) as Hc. cbn zeta in Hc.
    now rewrite Hc, Hsub, andb_false_r. }
  rewrite IH by (rewrite Hs; exact Hsub). exact Hs.
Qed.

(** Firings of the interval alone, on a running quiz with time left whose
    interval has seen the questions as they are. *)
Lemma play_ticks (k : nat) (p : Page) :
  quizSubmitted (state p) = false -> (0 < timeRemaining (state p))%Z ->
  seen p = questions (state p) ->
  let s' := state (play (repeat Tick k) p) in
  questions s' = questions (state p)
  /\ isLoading s' = isLoading (state p)
  /\ fetchError s' = fetchError (state p)
  /\ expandedQuestionIndex s' = expandedQuestionIndex (state p)
  /\ showOnlyIncorrect s' = showOnlyIncorrect (state p)
  /\ ((Z.of_nat k < timeRemaining (state p))%Z ->
      quizSubmitted s' = false
      /\ timeRemaining s' = (timeRemaining (state p) - Z.of_nat k)%Z
      /\ score s' = score (state p))
  /\ ((timeRemaining (state p) <= Z.of_nat k)%Z ->
      quizSubmitted s' = true /\ timeRemaining s' = 0%Z
      /\ score s' = correctAnswers (questions (state p))).
Proof.
  revert p. induction k as [|k IH]; intros p Hsub Hpos Hseen.
  - cbn. repeat split; intros; first [assumption | reflexivity | lia].
  - cbn [repeat play enabled]. cbn zeta.
    assert (Hst : state (afterEvent Tick p)
                  = run (intervalCallback p) (state p)) by reflexivity.
    assert (Hsn : seen (afterEvent Tick p)
                  = questions (state (afterEvent Tick p))).
    { unfold seen in *. unfold afterEvent. cbn [state stale handlePage].
      pose proof (intervalCallback_state p) as Hc. cbn zeta in Hc.
      assert (Hq : questions (run (intervalCallback p) (state p))
                   = questions (state p)).
      { rewrite Hc.
        destruct ((0 <? timeRemaining (state p))%Z
                  && negb (quizSubmitted (state p)));
          [destruct (timeRemaining (state p) <=? 1)%Z|]; reflexivity. }
      rewrite Hq.
      match goal with |- match (if ?c then _ else _) with _ => _ end = _ =>
        destruct c end; [exact Hseen | reflexivity]. }
    pose proof (intervalCallback_state p) as Hc. cbn zeta in Hc.
    rewrite Hsub in Hc.
    assert (H0 : (0 <? timeRemaining (state p))%Z = true)
      by now apply Z.ltb_lt.
    rewrite H0 in Hc. cbn [negb andb] in Hc. rewrite <- Hst in Hc.
    destruct (timeRemaining (state p) <=? 1)%Z eqn:H1.
    + apply Z.leb_le in H1.
      rewrite play_ticks_submitted by (rewrite Hc; reflexivity).
      rewrite Hc. cbn [questions isLoading fetchError expandedQuestionIndex
                       showOnlyIncorrect quizSubmitted timeRemaining score].
      repeat split; intros; try reflexivity; try lia.
      now rewrite Hseen.
    + apply Z.leb_gt in H1.
      destruct (IH (afterEvent Tick p))
        as (K1 & K2 & K3 & K4 & K5 & K6 & K7);
        [rewrite Hc; reflexivity | rewrite Hc; cbn; lia | exact Hsn|].
      rewrite Hc in K1, K2, K3, K4, K5, K6, K7.
      cbn [questions isLoading fetchError expandedQuestionIndex
           showOnlyIncorrect timeRemaining score] in *.
      split; [exact K1|]. split; [exact K2|]. split; [exact K3|].
      split; [exact K4|]. split; [exact K5|]. split; intros Hk.
      * destruct K6 as (A & B & C); [lia|].
        split; [exact A|]. split; [lia | exact C].
      * apply K7. lia.
Qed.

Section LoadingClock.

Variable sort : list bool -> list QuizQuestion -> list QuizQuestion.
Variable Number : string -> JS.number.

(** X24: The clock is set before the request for the questions is sent, and the
    interval starts with it: every second the answer of the bank service
    takes is taken off the time budget, behind the loading screen.  When the
    answer takes as long as the whole budget, the interval submits the quiz
    before there is a question, and the page opens on the result screen
    with a score of zero. *)
Theorem loading_time_counts (loc : Location) (fetch : string -> Fetched)
    (rnd : list bool) (code st : string) (data : Bank.QuizContent) (k : nat) :
  courseCodeOf (pathname loc) = inr code ->
  fetch code = Responds true st (Json data) ->
  let candidates := allQuestions (weeks Number (weeksParam loc)) data in
  candidates <> [] ->
  let budget := initialTimeRemaining (timeParam loc) in
  let p1 := mkPage (run (beforeAwait loc) initialState) None in
  let p2 := play (repeat Tick k) p1 in
  let s3 := run (afterAwait sort Number loc fetch rnd) (state p2) in
  fetchQuizContent sort Number loc fetch rnd
  = beforeAwait loc ++ afterAwait sort Number loc fetch rnd
  /\ render (state p2) = inr Loading
  /\ questions s3
     = JS.slice0 (shuffledQuestions sort rnd candidates)
         (numQuestions (numQuestionsParam loc))
  /\ isLoading s3 = false /\ fetchError s3 = None
  /\ ((Z.of_nat k < budget)%Z ->
      quizSubmitted s3 = false
      /\ timeRemaining s3 = (budget - Z.of_nat k)%Z)
  /\ ((budget <= Z.of_nat k)%Z ->
      quizSubmitted s3 = true /\ score s3 = 0 /\ timeRemaining s3 = 0%Z
      /\ (questions s3 <> [] ->
          render s3
          = inr (Results (questions s3) 0 (List.length (questions s3))
                   (correctAnswers (questions s3)) (percentage s3)
                   (scoreColor s3) None))).
Proof.
  intros Hc Hf candidates Hne budget p1 p2 s3.
  split; [apply fetchQuizContent_phases|].
  assert (Hs1 : state p1 = mkState [] 0 budget false 0 false false None false
                             true None)
    by (unfold p1, beforeAwait; cbn [state]; rewrite Hc; reflexivity).
  assert (Hpos : (0 < timeRemaining (state p1))%Z)
    by (rewrite Hs1; apply initialTimeRemaining_pos).
  assert (Hsub : quizSubmitted (state p1) = false) by now rewrite Hs1.
  assert (Hseen : seen p1 = questions (state p1)) by reflexivity.
  destruct (play_ticks k p1 Hsub Hpos Hseen)
    as (K1 & K2 & K3 & K4 & K5 & K6 & K7).
  fold p2 in K1, K2, K3, K4, K5, K6, K7.
  rewrite Hs1 in K1, K2, K3, K4, K5, K6, K7.
  cbn [questions isLoading fetchError expandedQuestionIndex showOnlyIncorrect
       timeRemaining score] in K1, K2, K3, K4, K5, K6, K7.
  assert (Hlen : (List.length candidates =? 0)%nat = false)
    by (apply Nat.eqb_neq; destruct candidates; [congruence | discriminate]).
  set (s2 := state p2) in *.
  assert (Hs3 : s3 = mkState
                       (JS.slice0 (shuffledQuestions sort rnd candidates)
                          (numQuestions (numQuestionsParam loc)))
                       (currentQuestionIndex s2) (timeRemaining s2)
                       (quizSubmitted s2) (score s2) (showWarning s2)
                       (showOnlyIncorrect s2) (expandedQuestionIndex s2)
                       (showError s2) false (fetchError s2)).
  { unfold s3, afterAwait. rewrite Hc, Hf. fold candidates. rewrite Hlen.
    destruct s2; reflexivity. }
  split; [unfold render; now rewrite K2|].
  split; [now rewrite Hs3|]. split; [now rewrite Hs3|].
  split; [rewrite Hs3; exact K3|]. split; intros Hk.
  - destruct (K6 Hk) as (A & B & _). rewrite Hs3. now split.
  - destruct (K7 Hk) as (A & B & C).
    assert (Hsc : score s3 = 0) by (rewrite Hs3; exact C).
    split; [rewrite Hs3; exact A|]. split; [exact Hsc|].
    split; [rewrite Hs3; exact B|]. intros Hq.
    assert (Hl3 : isLoading s3 = false) by now rewrite Hs3.
    assert (He3 : fetchError s3 = None) by (rewrite Hs3; exact K3).
    rewrite (render_session s3 Hl3 He3).
    assert (E : (List.length (questions s3) =? 0)%nat = false)
      by (apply Nat.eqb_neq; destruct (questions s3);
          [congruence | discriminate]).
    rewrite E.
    assert (Hsub3 : quizSubmitted s3 = true) by (rewrite Hs3; exact A).
    rewrite Hsub3, Hsc.
    assert (Hd : displayedQuestions s3 = questions s3)
      by (unfold displayedQuestions; rewrite Hs3;
          cbn [showOnlyIncorrect questions]; now rewrite K5).
    assert (Hex : expandedQuestionIndex s3 = None)
      by (rewrite Hs3; exact K4).
    now rewrite Hd, Hex.
Qed.

End LoadingClock.

(** ** The expiry effect *)

Lemma run_app (a b : list Action) (s : State) :
  run (a ++ b) s = run b (run a s).
Proof. unfold run. apply fold_left_app. Qed.

Lemma clock_guard_step (e : Event) (p : Page) :
  quizSubmitted (state p) = true \/ (0 < timeRemaining (state p))%Z ->
  enabled e (state p) = true ->
  let s' := state (afterEvent e p) in
  quizSubmitted s' = true \/ (0 < timeRemaining s')%Z.
Proof.
  intros HJ Hen. cbn zeta.
  destruct (quizSubmitted (state p)) eqn:Hsub.
  - left. now apply submitted_step.
  - destruct HJ as [HJ | Hpos]; [discriminate|].
    destruct (running_step e p Hsub Hpos) as [Hrun _].
    destruct (quizSubmitted (state (afterEvent e p))); [now left|].
    right. now apply Hrun.
Qed.

Lemma clock_guard_play (es : list Event) (p : Page) :
  quizSubmitted (state p) = true \/ (0 < timeRemaining (state p))%Z ->
  quizSubmitted (state (play es p)) = true
  \/ (0 < timeRemaining (state (play es p)))%Z.
Proof.
  revert p. induction es as [|e es IH]; intros p HJ; [exact HJ|].
  cbn [play]. apply IH. destruct (enabled e (state p)) eqn:Hen; [|exact HJ].
  now apply clock_guard_step.
Qed.

Lemma expiry_guard_step (e : Event) (p : Page) :
  quizSubmitted (state p) = true \/ (0 < timeRemaining (state p))%Z
  \/ questions (state p) = [] ->
  enabled e (state p) = true ->
  let s' := state (afterEvent e p) in
  quizSubmitted s' = true \/ (0 < timeRemaining s')%Z \/ questions s' = [].
Proof.
  intros HJ Hen. cbn zeta.
  destruct HJ as [HJ | [HJ | Hnil]].
  - destruct (clock_guard_step e p (or_introl HJ) Hen); tauto.
  - destruct (clock_guard_step e p (or_intror HJ) Hen); tauto.
  - right. right. unfold afterEvent. cbn [state].
    destruct (step_questions e p) as [-> | (a & q & _ & ->)];
      [exact Hnil|].
    rewrite Hnil. now destruct (currentQuestionIndex (state p)).
Qed.

Lemma expiry_guard_play (es : list Event) (p : Page) :
  quizSubmitted (state p) = true \/ (0 < timeRemaining (state p))%Z
  \/ questions (state p) = [] ->
  quizSubmitted (state (play es p)) = true
  \/ (0 < timeRemaining (state (play es p)))%Z
  \/ questions (state (play es p)) = [].
Proof.
  revert p. induction es as [|e es IH]; intros p HJ; [exact HJ|].
  cbn [play]. apply IH. destruct (enabled e (state p)) eqn:Hen; [|exact HJ].
  now apply expiry_guard_step.
Qed.

Section ExpiryEffect.

Variable sort : list bool -> list QuizQuestion -> list QuizQuestion.
Variable Number : string -> JS.number.

Lemma afterAwait_keeps (loc : Location) (fetch : string -> Fetched)
    (rnd : list bool) (s : State) :
  let s' := run (afterAwait sort Number loc fetch rnd) s in
  quizSubmitted s' = quizSubmitted s /\ timeRemaining s' = timeRemaining s.
Proof.
  unfold afterAwait, reported.
  destruct (courseCodeOf (pathname loc)) as [e | code]; [now split|].
  destruct (fetch code) as [m | [|] st [m | data]];
    try (destruct s; now split).
  destruct (List.length _ =? 0)%nat; destruct s; now split.
Qed.

(** X21: The effect that submits at a clock of zero never does so.  Whatever
    happens while the questions load and whatever happens after, it finds
    the clock above zero, the quiz submitted or no question to score: the
    time budget is never zero, and the firing of the interval that takes the
    clock to zero submits in the same step.  The submission at the end of
    the time is the one made by the interval. *)
Theorem expiry_effect_never_fires (loc : Location) (fetch : string -> Fetched)
    (rnd : list bool) (loading session : list Event) :
  let p1 := mkPage (run (beforeAwait loc) initialState) None in
  let p2 := play loading p1 in
  let p3 := mkPage (run (afterAwait sort Number loc fetch rnd) (state p2))
              (Some (seen p2)) in
  expiryEffect (state (play session p3)) = []
  /\ (loading = [] -> p3 = openPage sort Number loc fetch rnd)
  /\ (0 < initialTimeRemaining (timeParam loc))%Z.
Proof.
  intros p1 p2 p3.
  split; [|split; [|apply initialTimeRemaining_pos]].
  - assert (H3 : quizSubmitted (state p3) = true
                 \/ (0 < timeRemaining (state p3))%Z
                 \/ questions (state p3) = []).
    { destruct (courseCodeOf (pathname loc)) as [e | code] eqn:Hc.
      - assert (H1 : questions (state p1) = [])
          by (unfold p1, beforeAwait; rewrite Hc; reflexivity).
        pose proof (expiry_guard_play loading p1
                      (or_intror (or_intror H1))) as H2.
        fold p2 in H2. unfold p3, afterAwait. rewrite Hc. exact H2.
      - assert (H1 : (0 < timeRemaining (state p1))%Z)
          by (unfold p1, beforeAwait; rewrite Hc; cbn;
              apply initialTimeRemaining_pos).
        pose proof (clock_guard_play loading p1 (or_intror H1)) as H2.
        fold p2 in H2.
        destruct (afterAwait_keeps loc fetch rnd (state p2)) as [K1 K2].
        unfold p3. cbn [state]. rewrite K1, K2. tauto. }
    pose proof (expiry_guard_play session p3 H3) as HJ.
    unfold expiryEffect.
    destruct HJ as [HJ | [HJ | HJ]].
    + rewrite HJ. cbn. now rewrite andb_false_r.
    + assert (E : (timeRemaining (state (play session p3)) =? 0)%Z = false)
        by (apply Z.eqb_neq; lia).
      now rewrite E.
    + rewrite HJ. cbn. now rewrite andb_false_r.
  - intros ->. unfold p3, p2, p1, openPage. cbn [play state].
    rewrite (fetchQuizContent_phases sort Number), run_app. f_equal.
    unfold seen. cbn [stale state]. unfold beforeAwait, reported.
    destruct (courseCodeOf (pathname loc)); reflexivity.
Qed.

End ExpiryEffect.

(** ** The page when the questions arrive *)

Lemma Waiting_step (e : Event) (p : Page) :
  Waiting p -> enabled e (state p) = true ->
  Waiting (afterEvent e p)
  /\ (e = Tick \/ state (afterEvent e p) = state p).
Proof.
  intros (Hl & He & Hq & Hs & Hi & Hsc & Her & Hf & Hex) Hen.
  unfold enabled, render in Hen. rewrite Hl in Hen.
  destruct e; try discriminate Hen.
  - (* Tick *)
    split; [|now left].
    unfold Waiting, afterEvent, seen in *. cbn [state stale handlePage].
    pose proof (intervalCallback_state p) as Hc. cbn zeta in Hc.
    unfold seen in Hc. rewrite Hc.
    assert (Hz : correctAnswers
                   match stale p with
                   | Some qs => qs
                   | None => questions (state p)
                   end = 0) by now rewrite Hs.
    destruct ((0 <? timeRemaining (state p))%Z
              && negb (quizSubmitted (state p)));
      [destruct (timeRemaining (state p) <=? 1)%Z|];
      cbn [isLoading fetchError questions currentQuestionIndex score
           showError showOnlyIncorrect expandedQuestionIndex timeRemaining
           quizSubmitted];
      repeat (split; [assumption|]);
      try (split; [match goal with
                   | |- match (if ?c then _ else _) with _ => _ end = _ =>
                       destruct c; assumption
                   end|]);
      repeat (split; [assumption|]); assumption.
  - (* Expiry *)
    assert (E : expiryEffect (state p) = [])
      by (unfold expiryEffect; rewrite Hq; cbn; now rewrite andb_false_r).
    assert (Hst : afterEvent Expiry p = p).
    { unfold afterEvent. cbn [handlePage handle]. rewrite E. cbn [run fold_left].
      rewrite Z.eqb_refl, eqb_reflx. now destruct p. }
    rewrite Hst. split; [|now right]. now repeat split.
Qed.

Lemma Waiting_submitted_play (es : list Event) (p : Page) :
  Waiting p -> quizSubmitted (state p) = true ->
  Waiting (play es p) /\ state (play es p) = state p.
Proof.
  revert p. induction es as [|e es IH]; intros p Hw Hsub; [now split|].
  cbn [play]. destruct (enabled e (state p)) eqn:Hen; [|now apply IH].
  destruct (Waiting_step e p Hw Hen) as [Hw' Hsame].
  assert (Hst : state (afterEvent e p) = state p).
  { destruct Hsame as [-> | H]; [|exact H].
    unfold afterEvent. cbn [state handlePage].
    pose proof (intervalCallback_state p) as Hc. cbn zeta in Hc.
    now rewrite Hc, Hsub, andb_false_r. }
  destruct (IH _ Hw') as [K1 K2]; [now rewrite Hst|].
  split; [exact K1 | now rewrite K2].
Qed.

Lemma warning_window (T t : Z) :
  (t <= T)%Z -> t <> 30%Z ->
  ((30 <=? T) && (t - 1 <? 30))%Z = ((30 <=? T) && (t <? 30))%Z.
Proof.
  intros Hle Hne.
  destruct (Z.leb_spec 30 T); destruct (Z.ltb_spec (t - 1) 30);
    destruct (Z.ltb_spec t 30); try reflexivity; lia.
Qed.

(** The clock, the submission and the warning behind the loading screen. *)
Lemma Waiting_play (es : list Event) (p : Page) (T : Z) :
  Waiting p -> quizSubmitted (state p) = false ->
  (0 < timeRemaining (state p) <= T)%Z ->
  showWarning (state p)
  = ((30 <=? T) && (timeRemaining (state p) <? 30))%Z ->
  let p' := play es p in
  Waiting p'
  /\ ((Z.of_nat (ticksOf es) < timeRemaining (state p))%Z ->
      quizSubmitted (state p') = false
      /\ timeRemaining (state p')
         = (timeRemaining (state p) - Z.of_nat (ticksOf es))%Z
      /\ showWarning (state p')
         = ((30 <=? T) && (timeRemaining (state p') <? 30))%Z)
  /\ ((timeRemaining (state p) <= Z.of_nat (ticksOf es))%Z ->
      quizSubmitted (state p') = true).
Proof.
  revert p. induction es as [|e es IH]; intros p Hw Hsub Ht Hwarn.
  - cbn [play]. cbn zeta. split; [exact Hw|]. split.
    + intros _. split; [exact Hsub|]. split; [cbn; lia | exact Hwarn].
    + cbn. lia.
  - cbn [play]. rewrite ticksOf_cons. cbn zeta.
    destruct (enabled e (state p)) eqn:Hen.
    + destruct (Waiting_step e p Hw Hen) as [Hw' Hsame].
      destruct (Event_eq_Tick_dec e) as [-> | Hne].
      * assert (Hst : state (afterEvent Tick p)
                      = run (intervalCallback p) (state p)) by reflexivity.
        pose proof (intervalCallback_state p) as Hc. cbn zeta in Hc.
        rewrite <- Hst, Hsub in Hc.
        assert (E0 : (0 <? timeRemaining (state p))%Z = true)
          by (apply Z.ltb_lt; lia).
        rewrite E0 in Hc. cbn [negb andb] in Hc.
        destruct (Z.leb_spec (timeRemaining (state p)) 1) as [H1 | H1].
        -- destruct (Waiting_submitted_play es _ Hw') as [K1 K2];
             [rewrite Hc; reflexivity|].
           split; [exact K1|]. split; [lia|].
           intros _. rewrite K2, Hc. reflexivity.
        -- destruct (IH (afterEvent Tick p) Hw') as (K1 & K2 & K3).
           ++ rewrite Hc. reflexivity.
           ++ rewrite Hc. cbn. lia.
           ++ rewrite Hc. cbn [showWarning timeRemaining].
              destruct (Z.eqb_spec (timeRemaining (state p)) 30) as [E | E].
              ** rewrite E. cbn.
                 assert (E3 : (30 <=? T)%Z = true) by (apply Z.leb_le; lia).
                 now rewrite E3.
              ** rewrite Hwarn. symmetry. apply warning_window; lia.
           ++ rewrite Hc in K2, K3. cbn [timeRemaining] in K2, K3.
              split; [exact K1|]. split.
              ** intros Hk. destruct K2 as (A & B & C); [lia|].
                 split; [exact A|]. split; [lia | exact C].
              ** intros Hk. apply K3. lia.
      * destruct Hsame as [-> | Hst]; [congruence|].
        assert (Hd : match e with Tick => 1 | _ => 0 end = 0)
          by (destruct e; congruence).
        rewrite Hd. cbn [Nat.add].
        destruct (IH (afterEvent e p) Hw') as (K1 & K2 & K3);
          rewrite ?Hst; try assumption.
        rewrite Hst in K2, K3. now split.
    + assert (Hd : match e with Tick => 1 | _ => 0 end = 0)
        by (destruct e; try reflexivity; discriminate Hen).
      rewrite Hd. cbn [Nat.add]. now apply IH.
Qed.

Lemma loadingPage_state (loc : Location) (code : string) :
  courseCodeOf (pathname loc) = inr code ->
  state (loadingPage loc)
  = mkState [] 0 (initialTimeRemaining (timeParam loc)) false 0 false false
      None false true None.
Proof. intros Hc. unfold loadingPage, beforeAwait. now rewrite Hc. Qed.

Section Arriving.

Variable sort : list bool -> list QuizQuestion -> list QuizQuestion.
Variable Number : string -> JS.number.

Hypothesis sort_permutes :
  forall rnd l, Permutation (sort rnd l) l.

(** Without an event before the answer, the arrived page is the page of
    [fetchQuizContent] run in one step. *)
Lemma arrivedPage_at_once (loc : Location) (fetch : string -> Fetched)
    (rnd : list bool) :
  arrivedPage sort Number loc fetch rnd []
  = openPage sort Number loc fetch rnd.
Proof.
  unfold arrivedPage, loadingPage, openPage. cbn [play state].
  rewrite (fetchQuizContent_phases sort Number), run_app. f_equal.
  unfold seen. cbn [stale state]. unfold beforeAwait, reported.
  destruct (courseCodeOf (pathname loc)); reflexivity.
Qed.

(** X20: When the bank answers with candidates, for a [numQ] of at least one
    and after fewer firings of the interval than the budget has seconds, the
    page shows the answering screen on the first question of the session:
    position 1, the clock at the budget less one second for every firing
    there was while the questions loaded, red from thirty seconds down, the
    warning on when the clock has come below thirty from a budget of thirty
    or more, no request to answer, the button reading [Submit] only for a
    session of a single question.  The session is one on the screen, every
    question of it is one of the candidates, and none has an answer
    selected.  An answer within the first second shows the whole budget. *)
Theorem fresh_session_screen (loc : Location) (fetch : string -> Fetched)
    (rnd : list bool) (code st : string) (data : Bank.QuizContent) (n : Z)
    (loading : list Event) :
  courseCodeOf (pathname loc) = inr code ->
  fetch code = Responds true st (Json data) ->
  numQuestions (numQuestionsParam loc) = Some n -> (1 <= n)%Z ->
  let candidates := allQuestions (weeks Number (weeksParam loc)) data in
  let budget := initialTimeRemaining (timeParam loc) in
  let left := (budget - Z.of_nat (ticksOf loading))%Z in
  let p := arrivedPage sort Number loc fetch rnd loading in
  candidates <> [] -> (0 < left)%Z ->
  PageInv p
  /\ quizSubmitted (state p) = false
  /\ timeRemaining (state p) = left
  /\ Forall (fun q => In q candidates /\ selectedAnswer q = None)
       (questions (state p))
  /\ (exists first rest,
       questions (state p) = first :: rest
       /\ render (state p)
          = inr (Answering first 1 (List.length (questions (state p)))
                   (formatTime left) (left <=? 30)%Z
                   ((30 <=? budget) && (left <? 30))%Z false
                   (if (List.length (questions (state p)) =? 1)%nat
                    then "Submit" else "Next")))
  /\ (loading = [] ->
      p = openPage sort Number loc fetch rnd /\ left = budget).
Proof.
  intros Hc Hf Hn Hpos candidates budget left p Hne Hleft.
  pose proof (initialTimeRemaining_pos (timeParam loc)) as Hbudget.
  fold budget in Hbudget.
  pose proof (loadingPage_state loc code Hc) as Hs1. fold budget in Hs1.
  assert (Hw1 : Waiting (loadingPage loc))
    by (unfold Waiting, seen; cbn [stale loadingPage]; rewrite Hs1;
        now repeat split).
  assert (Hwarn1 : showWarning (state (loadingPage loc))
                   = ((30 <=? budget)
                      && (timeRemaining (state (loadingPage loc)) <? 30))%Z).
  { rewrite Hs1. cbn [showWarning timeRemaining].
    destruct (Z.leb_spec 30 budget); destruct (Z.ltb_spec budget 30);
      try reflexivity; lia. }
  destruct (Waiting_play loading (loadingPage loc) budget Hw1)
    as (Hw2 & Hrun & _);
    [now rewrite Hs1 | rewrite Hs1; cbn; lia | exact Hwarn1|].
  rewrite Hs1 in Hrun. cbn [timeRemaining] in Hrun.
  destruct Hrun as (Hsub2 & Ht2 & Hwarn2); [unfold left in Hleft; lia|].
  fold left in Ht2. rewrite Ht2 in Hwarn2.
  set (p2 := play loading (loadingPage loc)) in *.
  destruct Hw2 as (Hl & He & Hq & Hseen & Hi & Hsc & Her & Hfl & Hex).
  assert (Hlen : (List.length candidates =? 0)%nat = false)
    by (apply Nat.eqb_neq; destruct candidates; [congruence | discriminate]).
  set (shuffled := shuffledQuestions sort rnd candidates).
  assert (Hperm : Permutation shuffled candidates) by apply sort_permutes.
  assert (Hp : p = mkPage
                     (mkState (JS.slice0 shuffled (Some n)) 0 left false 0
                        ((30 <=? budget) && (left <? 30))%Z false None false
                        false None)
                     (Some [])).
  { unfold p, arrivedPage. fold p2. rewrite Hseen. f_equal.
    unfold afterAwait. rewrite Hc, Hf. fold candidates. rewrite Hlen, Hn.
    fold shuffled. destruct (state p2); cbn in *. now subst. }
  clearbody shuffled.
  assert (Hsl : JS.slice0 shuffled (Some n)
                = firstn (Nat.min (Z.to_nat n) (List.length shuffled))
                    shuffled).
  { destruct (slice0_firstn shuffled (Some n)) as (k & -> & ->).
    assert (E : (n <? 0)%Z = false) by (apply Z.ltb_ge; lia).
    now rewrite E. }
  rewrite Hsl in Hp.
  assert (Hall : Forall (fun q => In q candidates /\ selectedAnswer q = None)
                   (firstn (Nat.min (Z.to_nat n) (List.length shuffled))
                      shuffled)).
  { apply Forall_forall. intros q Hq0. apply In_firstn in Hq0.
    apply (Permutation_in _ Hperm) in Hq0. split; [exact Hq0|].
    apply allQuestions_In in Hq0 as (week & bq & _ & _ & -> & _).
    reflexivity. }
  assert (Hsh : shuffled <> []).
  { intros E. rewrite E in Hperm. apply Permutation_nil in Hperm.
    contradiction. }
  destruct shuffled as [|first more] eqn:Esh; [congruence|].
  destruct (Z.to_nat n) as [|k] eqn:Ek; [lia|].
  cbn [List.length Nat.min firstn] in *.
  rewrite Hp. cbn [state stale].
  split; [|split; [reflexivity|]; split; [reflexivity|];
           split; [exact Hall|]; split].
  - unfold PageInv, SessionInv, seen. cbn.
    repeat split; try lia; try discriminate.
    apply Forall_forall. intros q Hq0 a Ha.
    rewrite Forall_forall in Hall. destruct (Hall q Hq0) as [_ Hnone].
    congruence.
  - exists first, (firstn (Nat.min k (List.length more)) more).
    split; [reflexivity|]. unfold render.
    cbn [isLoading fetchError JS.truthy_opt questions quizSubmitted
         currentQuestionIndex timeRemaining showWarning showError nth_error
         List.length Nat.eqb Nat.add].
    set (L := List.length (firstn (Nat.min k (List.length more)) more)).
    assert (Hb : (Z.of_nat 0 =? Z.of_nat (S L) - 1)%Z = (L =? 0)%nat)
      by (destruct (Z.eqb_spec (Z.of_nat 0) (Z.of_nat (S L) - 1));
          destruct (Nat.eqb_spec L 0); try reflexivity; lia).
    now rewrite Hb.
  - intros Hnil. split.
    + rewrite <- Hp. unfold p. rewrite Hnil. apply arrivedPage_at_once.
    + unfold left. rewrite Hnil. cbn. lia.
Qed.

End Arriving.

(** ** The two submissions *)

(** The last firing of the interval and the press that submits, as lists of
    setter calls. *)
Lemma intervalCallback_expiring (p : Page) :
  quizSubmitted (state p) = false ->
  (0 < timeRemaining (state p) <= 1)%Z ->
  intervalCallback p
  = [SetScore (correctAnswers (seen p)); SetQuizSubmitted true;
     SetTimeRemaining 0%Z].
Proof.
  intros Hsub [Hpos H1].
  destruct p as [[qs i t sub sc w f ex er ld fe] sn].
  cbn in Hsub, Hpos, H1. subst sub.
  unfold intervalCallback, tick, tickUpdater, submitQuiz. cbn.
  assert (E0 : (0 <? t)%Z = true) by now apply Z.ltb_lt.
  assert (E1 : (t <=? 1)%Z = true) by now apply Z.leb_le.
  now rewrite E0, E1.
Qed.

Lemma goToNextQuestion_submitting (s : State) (q : QuizQuestion) :
  nth_error (questions s) (currentQuestionIndex s) = Some q ->
  JS.truthy_opt (selectedAnswer q) = true ->
  Z.of_nat (currentQuestionIndex s)
  = (Z.of_nat (List.length (questions s)) - 1)%Z ->
  fst (goToNextQuestion s)
  = [SetShowError false; SetScore (correctAnswers (questions s));
     SetQuizSubmitted true].
Proof.
  intros Hq Ht Hlast. unfold goToNextQuestion, submitQuiz.
  rewrite Hq, Ht. apply Z.eqb_eq in Hlast. now rewrite Hlast.
Qed.

(** X26: The two callers of [submitQuiz] do not read the same questions: the
    press of the button reads those of its render, the interval those of
    the render in which it was set up.  When the interval fires in the
    last second, on the last question, answered, it submits with the count
    of correct answers of the array it has kept; when the press of the
    render before comes in as well, the score is written a second time,
    now with the count over the questions of the state.  Wherever the two
    counts differ, as they do when the interval has kept the array of
    before the questions arrived, the score the interval stored is not
    that of the questions, and the press changes the submitted state. *)
Theorem submission_race_rewrites_score (p : Page) (q : QuizQuestion) :
  let s := state p in
  quizSubmitted s = false -> (0 < timeRemaining s <= 1)%Z ->
  nth_error (questions s) (currentQuestionIndex s) = Some q ->
  JS.truthy_opt (selectedAnswer q) = true ->
  Z.of_nat (currentQuestionIndex s)
  = (Z.of_nat (List.length (questions s)) - 1)%Z ->
  let s1 := run (intervalCallback p) s in
  let s2 := run (fst (goToNextQuestion s)) s1 in
  quizSubmitted s1 = true
  /\ score s1 = correctAnswers (seen p)
  /\ questions s1 = questions s
  /\ quizSubmitted s2 = true
  /\ score s2 = correctAnswers (questions s)
  /\ scoreWrites (intervalCallback p ++ fst (goToNextQuestion s)) = 2
  /\ (correctAnswers (seen p) <> correctAnswers (questions s) ->
      s2 <> s1 /\ score s1 <> correctAnswers (questions s1)).
Proof.
  intros s Hsub Ht Hq Htr Hlast s1 s2.
  pose proof (intervalCallback_expiring p Hsub Ht) as Hi.
  pose proof (goToNextQuestion_submitting s q Hq Htr Hlast) as Hn.
  assert (H1 : quizSubmitted s1 = true /\ score s1 = correctAnswers (seen p)
               /\ questions s1 = questions s)
    by (unfold s1; rewrite Hi; unfold s; destruct (state p);
        repeat split; reflexivity).
  assert (H2 : quizSubmitted s2 = true
               /\ score s2 = correctAnswers (questions s))
    by (unfold s2, s1; rewrite Hi, Hn; unfold s; destruct (state p);
        split; reflexivity).
  destruct H1 as (A1 & A2 & A3). destruct H2 as (B1 & B2).
  split; [exact A1|]. split; [exact A2|]. split; [exact A3|].
  split; [exact B1|]. split; [exact B2|]. split.
  - rewrite Hi, Hn. reflexivity.
  - intros Hne. split.
    + intros E. rewrite E in B2. congruence.
    + rewrite A3. congruence.
Qed.

(** ** The further properties on sample sessions *)

Ltac on_sample :=
  repeat split; try reflexivity; try discriminate; try (cbn; lia);
  repeat constructor; cbn; intros; try discriminate; try lia.

Lemma formatTime_roundtrip_witness :
  exists hh mm ss,
    JS.split ":" (formatTime 3723) = [hh; mm; ss]
    /\ JS.parseInt hh = Some 1%Z /\ JS.parseInt mm = Some 2%Z
    /\ JS.parseInt ss = Some 3%Z.
Proof.
  destruct (formatTime_roundtrip 3723 ltac:(lia))
    as (hh & mm & ss & H1 & H2 & H3 & H4 & _).
  exists hh, mm, ss. repeat split; assumption.
Defined.


Lemma courseCodeOf_reads_path_witness :
  courseCodeOf "/courses" = inl InvalidUrlFormat
  /\ courseCodeOf "/quiz/CS101?weeks=1" = inr "CS101"
  /\ courseCodeOf "/a/quiz/b/quiz/c" = inr "b"
  /\ courseCodeOf "/quiz/" = inl CourseCodeNotFound.
Proof.
  destruct courseCodeOf_reads_path as [H1 H2].
  split; [apply H1; reflexivity|]. split; [|split].
  - apply (H2 "" "CS101" "?weeks=1"); try reflexivity.
    right. left. now exists "weeks=1".
  - apply (H2 "/a" "b" "/quiz/c"); try reflexivity.
    right. right. now exists "c".
  - apply (H2 "" "" ""); try reflexivity. now left.
Defined.

Lemma runningPage_inv : PageInv runningPage.
Proof. on_sample. Qed.

Lemma session_stays_on_screen_witness :
  exists screen,
    render (state (play [AnswerSelect "y"; Tick; NextQuestion] runningPage))
    = inr screen.
Proof.
  exact (proj1 (proj2 (session_stays_on_screen
                         [AnswerSelect "y"; Tick; NextQuestion] runningPage
                         runningPage_inv))).
Defined.

Lemma submission_is_final_witness :
  score (state (play [AnswerSelect "y"; Tick; OnlyIncorrect true] reviewPage))
  = 1.
Proof.
  exact (proj1 (proj2 (submission_is_final
                         [AnswerSelect "y"; Tick; OnlyIncorrect true]
                         reviewPage eq_refl))).
Defined.

Lemma clock_counts_ticks_witness :
  (0 <= timeRemaining (state (play countdownEvents runningPage)) <= 31)%Z.
Proof.
  exact (proj2 (clock_counts_ticks countdownEvents runningPage eq_refl
                  ltac:(reflexivity))).
Defined.

Lemma timer_forces_submission_witness :
  let s' := state (play [AnswerSelect "x"; Tick] finalSecondPage) in
  quizSubmitted s' = true
  /\ score s' = correctAnswers (questions s')
  /\ correctAnswers (questions s') = 1.
Proof.
  destruct (timer_forces_submission [AnswerSelect "x"; Tick] finalSecondPage
              ltac:(cbn; lia)) as (H1 & H2 & _).
  split; [exact H1|]. split; [|reflexivity].
  apply H2; [reflexivity | now right].
Defined.

Lemma short_budget_never_warns_witness :
  showWarning (state (play (repeat Tick 19) shortBudgetPage)) = false.
Proof.
  exact (proj1 (short_budget_never_warns (repeat Tick 19) shortBudgetPage
                  ltac:(cbn; lia) eq_refl eq_refl)).
Defined.

Lemma answer_last_write_wins_witness :
  let s := state runningPage in
  let s1 := run (fst (handleAnswerSelect "y" s)) s in
  run (fst (handleAnswerSelect "x" s1)) s1
  = run (fst (handleAnswerSelect "x" s)) s.
Proof.
  exact (proj1 (answer_last_write_wins "y" "x" (state runningPage) _ eq_refl)).
Defined.

Lemma score_agrees_with_recount_witness :
  let p := arrivedPage (@insertionSort QuizQuestion) numberOfDigits
             sampleLocation sampleFetch sampleSource [Tick; Tick] in
  let s' := state (play (walk ["yes"; "no"; "yes"; "yes"]) p) in
  timeRemaining (state p) = 1798%Z
  /\ quizSubmitted s' = true /\ score s' = correctAnswers (questions s').
Proof.
  intros p s'. split; [reflexivity|]. split; [reflexivity|].
  apply (score_agrees_with_recount (walk ["yes"; "no"; "yes"; "yes"]) p
           eq_refl ltac:(left; vm_compute; discriminate)).
  reflexivity.
Defined.

Lemma answering_every_question_submits_witness :
  let s' := state (play (walk ["x"; "y"]) (mkPage blankOptionSession None)) in
  quizSubmitted s' = true /\ score s' = 1.
Proof.
  destruct (answering_every_question_submits ["x"; "y"]
              (mkPage blankOptionSession None) eq_refl eq_refl eq_refl eq_refl
              ltac:(discriminate))
    as (H1 & _ & H3 & _).
  - repeat constructor; try discriminate; cbn; tauto.
  - split; [exact H1 | exact H3].
Defined.

Lemma answers_are_never_cleared_witness :
  let p := afterEvent (AnswerSelect "x") runningPage in
  enabled (AnswerSelect "y") (state p) = true
  /\ answeredAt (state (play [AnswerSelect "y"; Tick; NextQuestion] p)) 0.
Proof.
  split; [reflexivity|].
  apply (answers_are_never_cleared [AnswerSelect "y"; Tick; NextQuestion]
           (afterEvent (AnswerSelect "x") runningPage) 0).
  eexists _, "x". split; reflexivity.
Defined.

Lemma filter_moves_open_card_witness :
  let s' := run (handle (OnlyIncorrect true) (state reviewPage))
              (state reviewPage) in
  openCard (state reviewPage) = nth_error (questions (state reviewPage)) 1
  /\ expandedQuestionIndex s' = Some 1.
Proof.
  destruct (filter_moves_open_card (state reviewPage) 1 0 _ eq_refl eq_refl
              ltac:(lia) eq_refl eq_refl) as (H1 & H2 & _).
  split; [exact H1 | exact H2].
Defined.

Lemma toggleQuestionExpansion_one_card_witness :
  openCard (run (toggleQuestionExpansion 1 (state reviewPage))
              (state reviewPage)) = None.
Proof.
  destruct (toggleQuestionExpansion_one_card 1 (state reviewPage))
    as [_ H].
  destruct (H eq_refl) as (_ & H1 & _). exact (H1 eq_refl).
Defined.

Lemma fetch_failure_screen_witness :
  render
    (run (fetchQuizContent (@insertionSort QuizQuestion) numberOfDigits
            noWeeksLocation sampleFetch sampleSource) initialState)
  = inr (FetchFailure "No questions available for the selected weeks.").
Proof.
  destruct (fetch_failure_screen (@insertionSort QuizQuestion) numberOfDigits
              noWeeksLocation sampleFetch sampleSource NoQuestionsAvailable
              initialState eq_refl)
    as (_ & _ & m & _ & _ & Hr & Hm & _).
  rewrite Hr, (Hm ltac:(discriminate)). reflexivity.
Defined.

Lemma fetch_keeps_progress_witness :
  score
    (run (fetchQuizContent (@insertionSort QuizQuestion) numberOfDigits
            sampleLocation sampleFetch sampleSource) (state reviewPage))
  = 1.
Proof.
  exact (proj1 (proj2 (proj2 (fetch_keeps_progress
                                (@insertionSort QuizQuestion) numberOfDigits
                                sampleLocation sampleFetch sampleSource
                                (state reviewPage))))).
Defined.

Lemma week_filter_selects_witness :
  allQuestions [JS.Int 2; JS.Int 1; JS.Int 2] sampleBank
  = allQuestions [JS.Int 1; JS.Int 2] sampleBank.
Proof.
  apply (proj2 (week_filter_selects [JS.Int 2; JS.Int 1; JS.Int 2]
                  [JS.Int 1; JS.Int 2] sampleBank)).
  intros x. cbn. tauto.
Defined.

Lemma only_first_answer_scores_witness :
  isCorrect
    (withSelectedAnswer "y"
       (deriveQuestion (Bank.mkWeek "1" [twoAnswerQuestion]) twoAnswerQuestion))
  = false.
Proof.
  apply (proj2 (only_first_answer_scores (Bank.mkWeek "1" [twoAnswerQuestion])
                  twoAnswerQuestion "x" ["y"] "y" eq_refl)).
  - now left.
  - discriminate.
Defined.

Lemma session_count_unusual_numQ_witness :
  List.length
    (questions
       (run (fetchQuizContent (@insertionSort QuizQuestion) numberOfDigits
               negativeCountLocation sampleFetch sampleSource) initialState))
  = 3
  /\ render
       (run (fetchQuizContent (@insertionSort QuizQuestion) numberOfDigits
               wordCountLocation sampleFetch sampleSource) initialState)
     = inr NoQuestions.
Proof.
  split.
  - destruct (session_count_unusual_numQ (@insertionSort QuizQuestion)
                numberOfDigits insertionSort_permutes negativeCountLocation
                sampleFetch sampleSource "CS101" "OK" sampleBank initialState
                eq_refl eq_refl ltac:(discriminate)) as [_ H].
    destruct (H (-2)%Z eq_refl ltac:(lia)) as [Hl _]. exact Hl.
  - destruct (session_count_unusual_numQ (@insertionSort QuizQuestion)
                numberOfDigits insertionSort_permutes wordCountLocation
                sampleFetch sampleSource "CS101" "OK" sampleBank initialState
                eq_refl eq_refl ltac:(discriminate)) as [H _].
    destruct (H eq_refl) as (_ & _ & Hr). exact Hr.
Defined.

Lemma fresh_session_screen_witness :
  let p := arrivedPage (@insertionSort QuizQuestion) numberOfDigits
             sampleLocation sampleFetch sampleSource [Tick; Tick; Tick] in
  let late := arrivedPage (@insertionSort QuizQuestion) numberOfDigits
                (mkLocation "/quiz/CS101" (Some "1-2") (Some "4")
                   (Some "000031"))
                sampleFetch sampleSource [Tick; Tick] in
  PageInv p /\ timeRemaining (state p) = 1797%Z
  /\ exists first rest,
       questions (state late) = first :: rest
       /\ render (state late)
          = inr (Answering first 1 4 "00:00:29" true true false "Next").
Proof.
  destruct (fresh_session_screen (@insertionSort QuizQuestion)
              numberOfDigits insertionSort_permutes sampleLocation
              sampleFetch sampleSource "CS101" "OK" sampleBank 4
              [Tick; Tick; Tick] eq_refl eq_refl eq_refl ltac:(lia)
              ltac:(discriminate) ltac:(vm_compute; reflexivity))
    as (H1 & _ & H3 & _).
  destruct (fresh_session_screen (@insertionSort QuizQuestion)
              numberOfDigits insertionSort_permutes
              (mkLocation "/quiz/CS101" (Some "1-2") (Some "4")
                 (Some "000031"))
              sampleFetch sampleSource "CS101" "OK" sampleBank 4
              [Tick; Tick] eq_refl eq_refl eq_refl ltac:(lia)
              ltac:(discriminate) ltac:(vm_compute; reflexivity))
    as (_ & _ & _ & _ & (first & rest & Hq & Hr) & _).
  split; [exact H1|]. split; [exact (eq_trans H3 eq_refl)|].
  exists first, rest. split; [exact Hq | exact (eq_trans Hr eq_refl)].
Defined.

(** At [/quiz/CS101?weeks=1&numQ=1&time=000001] the answer "yes" is
    selected in the only second there is, the interval fires and stores the
    score 0 of the empty array it read, with one question answered
    correctly, and the press of the button writes 1. *)
Lemma submission_race_rewrites_score_witness :
  let p := play [AnswerSelect "yes"]
             (openPage (@insertionSort QuizQuestion) numberOfDigits
                oneSecondLocation sampleFetch sampleSource) in
  let s1 := run (intervalCallback p) (state p) in
  let s2 := run (fst (goToNextQuestion (state p))) s1 in
  quizSubmitted s1 = true /\ score s1 = 0
  /\ correctAnswers (questions s1) = 1
  /\ score s2 = 1 /\ s2 <> s1.
Proof.
  intros p s1 s2.
  destruct (submission_race_rewrites_score p _ eq_refl
              ltac:(vm_compute; split; [reflexivity | discriminate])
              eq_refl eq_refl eq_refl)
    as (A1 & A2 & A3 & _ & B2 & _ & Hne).
  destruct Hne as [Hne _]; [vm_compute; discriminate|].
  split; [exact A1|]. split; [exact (eq_trans A2 eq_refl)|].
  split; [exact (eq_trans (f_equal correctAnswers A3) eq_refl)|].
  split; [exact (eq_trans B2 eq_refl) | exact Hne].
Defined.

Lemma expiry_effect_never_fires_witness :
  expiryEffect
    (state
       (play (repeat Tick 1800)
          (openPage (@insertionSort QuizQuestion) numberOfDigits sampleLocation
             sampleFetch sampleSource)))
  = [].
Proof.
  destruct (expiry_effect_never_fires (@insertionSort QuizQuestion)
              numberOfDigits sampleLocation sampleFetch sampleSource []
              (repeat Tick 1800)) as (H1 & H2 & _).
  rewrite <- (H2 eq_refl). exact H1.
Defined.

Lemma percentage_exact_when_divisible_witness :
  let s := run (submitQuiz lastSecondSession) lastSecondSession in
  percentage s = Some 1000%Z /\ scoreColor s = tierClass High.
Proof.
  destruct (percentage_exact_when_divisible
              (run (submitQuiz lastSecondSession) lastSecondSession)
              ltac:(cbn; lia) ltac:(cbn; lia) ltac:(cbn; lia)
              ltac:(exists 1000%Z; reflexivity)) as (_ & _ & H & _).
  exact (H eq_refl).
Defined.

Lemma percentage_monotone_witness :
  exists n1 n2 : Z,
    percentage lastSecondSession = Some n1
    /\ percentage (run (submitQuiz lastSecondSession) lastSecondSession)
       = Some n2
    /\ (n1 <= n2)%Z.
Proof.
  destruct (percentage_monotone lastSecondSession
              (run (submitQuiz lastSecondSession) lastSecondSession)
              eq_refl ltac:(cbn; lia) ltac:(cbn; lia) ltac:(cbn; lia)
              ltac:(cbn; lia))
    as (n1 & n2 & H1 & H2 & H3 & _).
  exists n1, n2. repeat split; try assumption. lia.
Defined.

Lemma loading_time_counts_witness :
  let p2 := play (repeat Tick 5)
              (mkPage (run (beforeAwait sampleLocation) initialState) None) in
  timeRemaining
    (run (afterAwait (@insertionSort QuizQuestion) numberOfDigits
            sampleLocation sampleFetch sampleSource) (state p2))
  = 1795%Z.
Proof.
  destruct (loading_time_counts (@insertionSort QuizQuestion) numberOfDigits
              sampleLocation sampleFetch sampleSource "CS101" "OK" sampleBank
              5 eq_refl eq_refl ltac:(discriminate))
    as (_ & _ & _ & _ & _ & H & _).
  destruct (H ltac:(vm_compute; reflexivity)) as [_ Ht]. exact Ht.
Defined.

Lemma time_parameter_edges_witness :
  initialTimeRemaining (Some "0130") = 1800%Z
  /\ initialTimeRemaining (Some "01h30m") = 1800%Z
  /\ initialTimeRemaining (Some "01300059") = 5400%Z.
Proof.
  destruct time_parameter_edges as (H1 & H2 & H3).
  split; [apply H2; cbn; lia|]. split.
  - apply H1. right. left. reflexivity.
  - exact (eq_trans (H3 0 1 3 0 0 0 "59") eq_refl).
Defined.
